(** * The llad device manager (llad/DeviceManager.cpp)

    A shallow embedding of [lla::DeviceManager]: the registry that hands out
    device aliases, tracks which devices are active and saves / restores the
    port to universe patchings through the preferences store.

    The manager works on objects it does not own and reaches through
    pointers: devices, their ports, the preferences and the universe store.
    Here a device or port pointer is the object's address together with what
    its [const] methods return; what changes (the universe a port is bound
    to, the contents of the two stores) is part of the state that every
    operation takes and returns. The pointers the manager dereferences
    without a test (the universe store, the ports of a device) are taken to
    be valid; the ones it tests (the device, the preferences) are options.

    Integers are [Z]: an [unsigned int] is kept in [0, 2^32) by reducing
    modulo 2^32 where the code increments it, an [int] is what the cast of
    [strtol]'s [long] leaves. *)

From Stdlib Require Import ZArith Lia List Ascii String.
From stdpp Require Import base option list sorting gmap strings pretty.

Local Open Scope Z_scope.

(** ** C library: [strtol], [errno] and the conversion to [int] *)

Module LibC.

(** The two things [strtol] leaves to the implementation: the width of
    [long], and whether a subject sequence without digits sets [errno]
    (POSIX allows EINVAL; glibc leaves [errno] alone, the BSDs and musl set
    it). *)
Inductive data_model := ILP32 | LP64.

Record libc := {
  long_model : data_model;
  noconv_sets_errno : bool
}.

Definition glibc64 : libc := {| long_model := LP64; noconv_sets_errno := false |}.
Definition glibc32 : libc := {| long_model := ILP32; noconv_sets_errno := false |}.
Definition bsd64 : libc := {| long_model := LP64; noconv_sets_errno := true |}.

Definition INT_MIN : Z := - 2 ^ 31.
Definition INT_MAX : Z := 2 ^ 31 - 1.
Definition UINT_MAX : Z := 2 ^ 32 - 1.

Definition LONG_MAX (c : libc) : Z :=
  match long_model c with ILP32 => 2 ^ 31 - 1 | LP64 => 2 ^ 63 - 1 end.
Definition LONG_MIN (c : libc) : Z :=
  match long_model c with ILP32 => - 2 ^ 31 | LP64 => - 2 ^ 63 end.

Definition EINVAL : Z := 22.
Definition ERANGE : Z := 34.

(** [isspace] in the C locale: space, \t, \n, \v, \f, \r. *)
Definition isspace (c : ascii) : bool :=
  let n := Z.of_nat (nat_of_ascii c) in
  (n =? 32) || ((9 <=? n) && (n <=? 13)).

Definition digit_value (c : ascii) : option Z :=
  let n := Z.of_nat (nat_of_ascii c) in
  if (48 <=? n) && (n <=? 57) then Some (n - 48) else None.

Fixpoint skip_spaces (s : string) : string :=
  match s with
  | String c rest => if isspace c then skip_spaces rest else s
  | EmptyString => s
  end.

(** The digits of the subject sequence, base 10: the value read so far and
    whether any digit was seen. Reading stops at the first character that is
    not a digit (the terminating NUL of [data()] included). *)
Fixpoint read_digits (s : string) (acc : Z) (seen : bool) : Z * bool :=
  match s with
  | String c rest =>
      match digit_value c with
      | Some d => read_digits rest (10 * acc + d) true
      | None => (acc, seen)
      end
  | EmptyString => (acc, seen)
  end.

Definition read_sign (s : string) : bool * string :=
  match s with
  | String c rest =>
      if Ascii.eqb c "-" then (true, rest)
      else if Ascii.eqb c "+" then (false, rest)
      else (false, s)
  | EmptyString => (false, s)
  end.

(** [strtol(s, NULL, 10)] run with [errno] as given: the [long] returned and
    the value of [errno] afterwards. *)
Definition strtol (c : libc) (s : string) (errno : Z) : Z * Z :=
  let '(negative, body) := read_sign (skip_spaces s) in
  let '(magnitude, seen) := read_digits body 0 false in
  if negb seen then (0, if noconv_sets_errno c then EINVAL else errno)
  else
    let v := if negative then - magnitude else magnitude in
    if LONG_MAX c <? v then (LONG_MAX c, ERANGE)
    else if v <? LONG_MIN c then (LONG_MIN c, ERANGE)
    else (v, errno).

(** The cast [(int) l] of a [long]: reduction modulo 2^32 into the range of
    [int]. *)
Definition int_of_long (l : Z) : Z := (l + 2 ^ 31) mod 2 ^ 32 - 2 ^ 31.

End LibC.

Import LibC.

(** ** lla/StringUtils.h *)

Definition digit_char (d : Z) : ascii := ascii_of_nat (Z.to_nat (48 + d)).

(** The decimal digits of [n >= 0] in front of [acc], most significant
    first; [fuel] bounds the number of digits. *)
Fixpoint decimal_digits (fuel : nat) (n : Z) (acc : string) : string :=
  match fuel with
  | O => acc
  | S fuel' =>
      let acc' := String (digit_char (n mod 10)) acc in
      if n <? 10 then acc' else decimal_digits fuel' (n / 10) acc'
  end.

(** Modelled from the spec: [IntToString] of lla/StringUtils.h, which is not
    among the sources. The spec has the universe id "serialized as a decimal
    string": a minus sign for negative values, then the digits without
    leading zeros. *)
Definition IntToString (i : Z) : string :=
  if i <? 0
  then String "-" (decimal_digits (S (Z.to_nat (Z.log2 (- i)))) (- i) "")
  else decimal_digits (S (Z.to_nat (Z.log2 i))) i "".

(** [std::string::empty()]. *)
Definition empty_string (s : string) : bool :=
  match s with EmptyString => true | String _ _ => false end.


(** ** Devices, ports and the collaborators of the manager *)

(** A port object ([AbstractPort], llad/Port.h): the address that identifies
    the object and what its [UniqueId()] returns. The universe it is patched
    to changes over time and lives in the state below. *)
Record AbstractPort := {
  port_addr : N;
  port_UniqueId : string
}.

(** A device object ([AbstractDevice]): its address and what [UniqueId()],
    [Name()] and [Ports()] return. A nullable [AbstractDevice*] is an
    [option AbstractDevice]. *)
Record AbstractDevice := {
  device_addr : N;
  device_UniqueId : string;
  device_Name : string;
  device_Ports : list AbstractPort
}.

(** [struct device_alias_pair { unsigned int alias; AbstractDevice *device; }] *)
Record device_alias_pair := {
  alias : Z;
  device : option AbstractDevice
}.

(** [bool operator <(const device_alias_pair &left, const device_alias_pair &right)] *)
Definition device_alias_pair_lt (left right : device_alias_pair) : bool :=
  if alias left <? alias right then true else false.

Definition MISSING_DEVICE_ALIAS : Z := 0.

Definition PORT_PREFERENCES : string := "port".

(** Modelled from the spec: [FIRST_DEVICE_ALIAS] is declared in
    llad/DeviceManager.h, which is not among the sources. The spec has aliases
    "starting from a fixed first value", and its scenario gives the first two
    devices the aliases 1 and 2. *)
Definition FIRST_DEVICE_ALIAS : Z := 1.

(** Arithmetic on [unsigned int] is modulo 2^32. *)
Definition UINT_MODULUS : Z := 2 ^ 32.
Definition uint_incr (n : Z) : Z := (n + 1) mod UINT_MODULUS.

(** Modelled from the spec: the Preference Store ([Preferences],
    lla/Preferences.h, not among the sources), "a scoped, string-keyed
    persistent mapping" with [get(key) -> string (empty if absent)],
    [set(key, value)] and [remove(key)], where removing a key that is not
    there is not an error. *)
Module Preferences.

Definition GetValue (key : string) (prefs : gmap string string) : string :=
  default ""%string (prefs !! key).

Definition SetValue (key value : string) (prefs : gmap string string)
  : gmap string string := <[key := value]> prefs.

Definition RemoveValue (key : string) (prefs : gmap string string)
  : gmap string string := delete key prefs.

End Preferences.

(** Modelled from the spec: the Universe Store ([UniverseStore],
    llad/UniverseStore.h, not among the sources). [get_or_create(id)]
    "returns an existing universe or creates one"; the store owns one universe
    per id, so a [Universe*] it returns is identified with its id. [universes]
    are the ids of the universes that exist, [requested] the ids asked for so
    far, oldest first. *)
Record UniverseStore := {
  universes : gset Z;
  requested : list Z
}.

Definition GetUniverseOrCreate (id : Z) (store : UniverseStore) : Z * UniverseStore :=
  (id, {| universes := {[ id ]} ∪ universes store;
          requested := requested store ++ [id] |}).

(** ** The state *)

(** The members of [DeviceManager], together with the objects it reaches
    through pointers: the universe store, the preferences (NULL when the
    manager was built without a preferences factory) and, for every port
    object, the universe it is patched to ([GetUniverse()], absent when the
    port is unpatched). The class is declared in llad/DeviceManager.h, which
    is not among the sources; the members have the types their uses in
    DeviceManager.cpp give them: aliases and the counter are [unsigned int]
    ([unsigned int alias = m_next_device_alias++], the keys of [m_alias_map]),
    kept in [0, 2^32). [m_alias_map] only ever holds pointers to devices,
    never NULL. *)
Record DeviceManager := {
  m_universe_store : UniverseStore;
  m_port_preferences : option (gmap string string);
  m_next_device_alias : Z;
  m_devices : gmap string device_alias_pair;
  m_alias_map : gmap Z AbstractDevice;
  port_universe : gmap N Z
}.

Definition set_universe_store (v : UniverseStore) (dm : DeviceManager) :=
  {| m_universe_store := v; m_port_preferences := m_port_preferences dm;
     m_next_device_alias := m_next_device_alias dm; m_devices := m_devices dm;
     m_alias_map := m_alias_map dm; port_universe := port_universe dm |}.
Definition set_port_preferences (v : option (gmap string string)) (dm : DeviceManager) :=
  {| m_universe_store := m_universe_store dm; m_port_preferences := v;
     m_next_device_alias := m_next_device_alias dm; m_devices := m_devices dm;
     m_alias_map := m_alias_map dm; port_universe := port_universe dm |}.
Definition set_next_device_alias (v : Z) (dm : DeviceManager) :=
  {| m_universe_store := m_universe_store dm; m_port_preferences := m_port_preferences dm;
     m_next_device_alias := v; m_devices := m_devices dm;
     m_alias_map := m_alias_map dm; port_universe := port_universe dm |}.
Definition set_devices (v : gmap string device_alias_pair) (dm : DeviceManager) :=
  {| m_universe_store := m_universe_store dm; m_port_preferences := m_port_preferences dm;
     m_next_device_alias := m_next_device_alias dm; m_devices := v;
     m_alias_map := m_alias_map dm; port_universe := port_universe dm |}.
Definition set_alias_map (v : gmap Z AbstractDevice) (dm : DeviceManager) :=
  {| m_universe_store := m_universe_store dm; m_port_preferences := m_port_preferences dm;
     m_next_device_alias := m_next_device_alias dm; m_devices := m_devices dm;
     m_alias_map := v; port_universe := port_universe dm |}.
Definition set_port_universe (v : gmap N Z) (dm : DeviceManager) :=
  {| m_universe_store := m_universe_store dm; m_port_preferences := m_port_preferences dm;
     m_next_device_alias := m_next_device_alias dm; m_devices := m_devices dm;
     m_alias_map := m_alias_map dm; port_universe := v |}.

(** [port->GetUniverse()] *)
Definition GetUniverse (port : AbstractPort) (dm : DeviceManager) : option Z :=
  port_universe dm !! port_addr port.

(** Modelled from the spec: [Universe::AddPort] (llad/Universe.h, not among
    the sources) "binds the port to the returned universe". *)
Definition AddPort (uni : Z) (port : AbstractPort) (dm : DeviceManager) : DeviceManager :=
  set_port_universe (<[port_addr port := uni]> (port_universe dm)) dm.

(** Modelled from the spec: unpatching a port ([Universe::RemovePort],
    llad/Universe.h, not among the sources) leaves it with no bound
    universe. *)
Definition RemovePort (port : AbstractPort) (dm : DeviceManager) : DeviceManager :=
  set_port_universe (delete (port_addr port) (port_universe dm)) dm.

(** The constructor: the counter starts at [FIRST_DEVICE_ALIAS], both maps
    are empty, and the preferences are those the factory loaded ([None]
    without a factory). *)
Definition new_DeviceManager (prefs : option (gmap string string))
    (store : UniverseStore) (ports : gmap N Z) : DeviceManager :=
  {| m_universe_store := store; m_port_preferences := prefs;
     m_next_device_alias := FIRST_DEVICE_ALIAS; m_devices := ∅;
     m_alias_map := ∅; port_universe := ports |}.

(** Iteration over [m_devices], a [std::map<string, device_alias_pair>],
    visits the entries in the order of their keys: [std::less<string>], the
    lexicographic order of the characters. *)
Definition key_le (x y : string * device_alias_pair) : Prop :=
  String.le x.1 y.1.

#[global] Instance key_le_dec : RelDecision key_le.
Proof. intros x y. unfold key_le. apply _. Defined.

#[global] Instance key_le_total : Total key_le.
Proof. intros x y. unfold key_le. apply (total String.le). Qed.

#[global] Instance key_le_transitive : Transitive key_le.
Proof. intros x y z. unfold key_le. apply (transitivity (R := String.le)). Qed.

Definition entries (m : gmap string device_alias_pair)
  : list (string * device_alias_pair) :=
  merge_sort key_le (map_to_list m).

(** ** The operations *)

Section Operations.

Variable c : libc.

(** The body of the loop of [SaveDevicePortPatchings], for one port. *)
Definition save_port (prefs : gmap string string) (dm : DeviceManager)
    (port : AbstractPort) : gmap string string :=
  if empty_string (port_UniqueId port) then prefs
  else
    match GetUniverse port dm with
    | None => Preferences.RemoveValue (port_UniqueId port) prefs
    | Some uni => Preferences.SetValue (port_UniqueId port) (IntToString uni) prefs
    end.

Definition SaveDevicePortPatchings (dev : option AbstractDevice)
    (dm : DeviceManager) : DeviceManager :=
  match m_port_preferences dm, dev with
  | Some prefs, Some d =>
      set_port_preferences
        (Some (fold_left (fun p port => save_port p dm port) (device_Ports d) prefs)) dm
  | _, _ => dm
  end.

(** The body of the loop of [RestoreDevicePortPatchings], for one port. *)
Definition restore_port (prefs : gmap string string) (dm : DeviceManager)
    (port : AbstractPort) : DeviceManager :=
  if empty_string (port_UniqueId port) then dm
  else
    let uni_id := Preferences.GetValue (port_UniqueId port) prefs in
    if empty_string uni_id then dm
    else
      let errno := 0 in
      let '(l, errno) := strtol c uni_id errno in
      let id := int_of_long l in
      if (id =? 0) && negb (errno =? 0) then dm
      else
        let '(uni, store) := GetUniverseOrCreate id (m_universe_store dm) in
        AddPort uni port (set_universe_store store dm).

Definition RestoreDevicePortPatchings (dev : option AbstractDevice)
    (dm : DeviceManager) : DeviceManager :=
  match m_port_preferences dm, dev with
  | Some prefs, Some d => fold_left (restore_port prefs) (device_Ports d) dm
  | _, _ => dm
  end.

Definition RegisterDevice (dev : option AbstractDevice) (dm : DeviceManager)
  : bool * DeviceManager :=
  match dev with
  | None => (false, dm)
  | Some d =>
      let device_id := device_UniqueId d in
      if empty_string device_id then (false, dm)
      else
        let installed (a : Z) (dm1 : DeviceManager) :=
          let dm2 := set_alias_map (<[a := d]> (m_alias_map dm1)) dm1 in
          (true, RestoreDevicePortPatchings (Some d) dm2) in
        match m_devices dm !! device_id with
        | Some found =>
            match device found with
            | Some _ => (false, dm)
            | None =>
                installed (alias found)
                  (set_devices
                     (<[device_id := {| alias := alias found; device := Some d |}]>
                        (m_devices dm)) dm)
            end
        | None =>
            let a := m_next_device_alias dm in
            let dm1 := set_next_device_alias (uint_incr a) dm in
            installed a
              (set_devices
                 (<[device_id := {| alias := a; device := Some d |}]> (m_devices dm1)) dm1)
        end
  end.

(** [UnregisterDevice(const string &device_id)] *)
Definition UnregisterDevice (device_id : string) (dm : DeviceManager)
  : bool * DeviceManager :=
  match m_devices dm !! device_id with
  | Some found =>
      match device found with
      | Some d =>
          let dm1 := SaveDevicePortPatchings (Some d) dm in
          let dm2 := set_alias_map (delete (alias found) (m_alias_map dm1)) dm1 in
          (true,
           set_devices
             (<[device_id := {| alias := alias found; device := None |}]> (m_devices dm2))
             dm2)
      | None => (false, dm)
      end
  | None => (false, dm)
  end.

(** [UnregisterDevice(const AbstractDevice *device)] *)
Definition UnregisterDevice_ptr (dev : option AbstractDevice) (dm : DeviceManager)
  : bool * DeviceManager :=
  match dev with
  | None => (false, dm)
  | Some d =>
      let device_id := device_UniqueId d in
      if empty_string device_id then (false, dm)
      else UnregisterDevice device_id dm
  end.

Definition DeviceCount (dm : DeviceManager) : Z :=
  fold_left
    (fun count entry =>
       match device entry.2 with
       | Some _ => uint_incr count
       | None => count
       end)
    (entries (m_devices dm)) 0.

Definition Devices (dm : DeviceManager) : list device_alias_pair :=
  fold_left
    (fun result entry =>
       match device entry.2 with
       | Some _ => result ++ [entry.2]
       | None => result
       end)
    (entries (m_devices dm)) [].

(** [GetDevice(unsigned int alias)] *)
Definition GetDevice_alias (a : Z) (dm : DeviceManager) : option AbstractDevice :=
  m_alias_map dm !! a.

(** [GetDevice(const string &unique_id)] *)
Definition GetDevice (unique_id : string) (dm : DeviceManager) : device_alias_pair :=
  match m_devices dm !! unique_id with
  | Some found =>
      match device found with
      | Some _ => found
      | None => {| alias := MISSING_DEVICE_ALIAS; device := None |}
      end
  | None => {| alias := MISSING_DEVICE_ALIAS; device := None |}
  end.

Definition UnregisterAllDevices (dm : DeviceManager) : DeviceManager :=
  let dm' :=
    fold_left
      (fun dm1 entry =>
         let dm2 := SaveDevicePortPatchings (device entry.2) dm1 in
         set_devices
           (<[entry.1 := {| alias := alias entry.2; device := None |}]> (m_devices dm2))
           dm2)
      (entries (m_devices dm)) dm in
  set_alias_map ∅ dm'.

End Operations.

(** * Runs, and the vocabulary of the statements *)

(** ** Runs of the manager *)

(** The calls the plugin layer makes, and the state after a sequence of
    them. *)
Inductive operation :=
| Register (dev : option AbstractDevice)
| Unregister (device_id : string)
| UnregisterPtr (dev : option AbstractDevice)
| UnregisterAll.

Definition step (c : libc) (dm : DeviceManager) (op : operation) : DeviceManager :=
  match op with
  | Register dev => (RegisterDevice c dev dm).2
  | Unregister device_id => (UnregisterDevice device_id dm).2
  | UnregisterPtr dev => (UnregisterDevice_ptr dev dm).2
  | UnregisterAll => UnregisterAllDevices dm
  end.

Definition run (c : libc) (ops : list operation) (dm : DeviceManager) : DeviceManager :=
  fold_left (step c) ops dm.

(** ** Views of the records *)

(** The alias each unique id has been given. *)
Definition aliases (dm : DeviceManager) : gmap string Z := alias <$> m_devices dm.

(** The records whose device pointer is not NULL. *)
Definition is_active (entry : string * device_alias_pair) : Prop :=
  is_Some (device entry.2).

#[global] Instance is_active_dec entry : Decision (is_active entry).
Proof. unfold is_active. apply _. Defined.

Definition active_records (dm : DeviceManager) : gmap string device_alias_pair :=
  filter is_active (m_devices dm).

(** A record after [iter->second.device = NULL]. *)
Definition deactivate (r : device_alias_pair) : device_alias_pair :=
  {| alias := alias r; device := None |}.

(** What [GetDevice(unique_id)] returns for a device that is not found. *)
Definition missing_device : device_alias_pair :=
  {| alias := MISSING_DEVICE_ALIAS; device := None |}.

Definition no_active_record (device_id : string) (dm : DeviceManager) : Prop :=
  m_devices dm !! device_id = None \/
  exists found, m_devices dm !! device_id = Some found /\ device found = None.

(** ** What a call does to the two maps and to the counter *)

Inductive register_outcome (dev : option AbstractDevice) (dm : DeviceManager)
  : bool * DeviceManager -> Prop :=
| register_refused dm' :
    dm' = dm ->
    (dev = None \/
     (exists d, dev = Some d /\ device_UniqueId d = ""%string) \/
     (exists d found, dev = Some d /\ m_devices dm !! device_UniqueId d = Some found
                      /\ is_Some (device found))) ->
    register_outcome dev dm (false, dm')
| register_known d found dm' :
    dev = Some d -> device_UniqueId d <> ""%string ->
    m_devices dm !! device_UniqueId d = Some found -> device found = None ->
    m_devices dm' = <[device_UniqueId d := {| alias := alias found; device := Some d |}]>
                      (m_devices dm) ->
    m_alias_map dm' = <[alias found := d]> (m_alias_map dm) ->
    m_next_device_alias dm' = m_next_device_alias dm ->
    m_port_preferences dm' = m_port_preferences dm ->
    register_outcome dev dm (true, dm')
| register_fresh d dm' :
    dev = Some d -> device_UniqueId d <> ""%string ->
    m_devices dm !! device_UniqueId d = None ->
    m_devices dm' = <[device_UniqueId d :=
                        {| alias := m_next_device_alias dm; device := Some d |}]>
                      (m_devices dm) ->
    m_alias_map dm' = <[m_next_device_alias dm := d]> (m_alias_map dm) ->
    m_next_device_alias dm' = uint_incr (m_next_device_alias dm) ->
    m_port_preferences dm' = m_port_preferences dm ->
    register_outcome dev dm (true, dm').

Inductive unregister_outcome (device_id : string) (dm : DeviceManager)
  : bool * DeviceManager -> Prop :=
| unregister_refused dm' :
    dm' = dm ->
    no_active_record device_id dm ->
    unregister_outcome device_id dm (false, dm')
| unregister_done found d dm' :
    m_devices dm !! device_id = Some found -> device found = Some d ->
    m_devices dm' = <[device_id := deactivate found]> (m_devices dm) ->
    m_alias_map dm' = delete (alias found) (m_alias_map dm) ->
    m_next_device_alias dm' = m_next_device_alias dm ->
    m_port_preferences dm' = m_port_preferences (SaveDevicePortPatchings (Some d) dm) ->
    m_universe_store dm' = m_universe_store dm ->
    port_universe dm' = port_universe dm ->
    unregister_outcome device_id dm (true, dm').

(** The moves a call can make on [m_devices], [m_alias_map] and
    [m_next_device_alias]. *)
Inductive map_step (dm dm' : DeviceManager) : Prop :=
| ms_stutter :
    m_devices dm' = m_devices dm -> m_alias_map dm' = m_alias_map dm ->
    m_next_device_alias dm' = m_next_device_alias dm ->
    map_step dm dm'
| ms_activate id found d :
    m_devices dm !! id = Some found -> device found = None ->
    m_devices dm' = <[id := {| alias := alias found; device := Some d |}]> (m_devices dm) ->
    m_alias_map dm' = <[alias found := d]> (m_alias_map dm) ->
    m_next_device_alias dm' = m_next_device_alias dm ->
    map_step dm dm'
| ms_allocate id d :
    m_devices dm !! id = None ->
    m_devices dm' = <[id := {| alias := m_next_device_alias dm; device := Some d |}]>
                      (m_devices dm) ->
    m_alias_map dm' = <[m_next_device_alias dm := d]> (m_alias_map dm) ->
    m_next_device_alias dm' = uint_incr (m_next_device_alias dm) ->
    map_step dm dm'
| ms_deactivate id found d :
    m_devices dm !! id = Some found -> device found = Some d ->
    m_devices dm' = <[id := deactivate found]> (m_devices dm) ->
    m_alias_map dm' = delete (alias found) (m_alias_map dm) ->
    m_next_device_alias dm' = m_next_device_alias dm ->
    map_step dm dm'
| ms_deactivate_all :
    m_devices dm' = deactivate <$> m_devices dm ->
    m_alias_map dm' = ∅ ->
    m_next_device_alias dm' = m_next_device_alias dm ->
    map_step dm dm'.

(** The invariant of the alias bookkeeping, good while at most 2^32 unique
    ids have a record: the counter is [FIRST_DEVICE_ALIAS] plus the number of
    records, modulo 2^32; the aliases handed out are the values the counter
    went through; no two unique ids share one; and the alias index holds
    exactly the active records. *)
Record alias_inv (dm : DeviceManager) : Prop := {
  inv_next :
    m_next_device_alias dm
    = (FIRST_DEVICE_ALIAS + Z.of_nat (size (m_devices dm))) mod UINT_MODULUS;
  inv_range : forall id a,
    aliases dm !! id = Some a ->
    exists i, 0 <= i < Z.of_nat (size (m_devices dm)) /\
              a = (FIRST_DEVICE_ALIAS + i) mod UINT_MODULUS;
  inv_inj : forall id1 id2 a,
    aliases dm !! id1 = Some a -> aliases dm !! id2 = Some a -> id1 = id2;
  inv_index : forall a d,
    m_alias_map dm !! a = Some d <->
    exists id, m_devices dm !! id = Some {| alias := a; device := Some d |}
}.

(** ** Ports and what is stored for them *)

#[global] Instance AbstractPort_eq_dec : EqDecision AbstractPort.
Proof. solve_decision. Defined.

(** The port writes under [key]: its unique id is [key], and is not empty. *)
Definition writes_key (key : string) (port : AbstractPort) : Prop :=
  port_UniqueId port = key /\ key <> ""%string.

#[global] Instance writes_key_dec key port : Decision (writes_key key port).
Proof. unfold writes_key. apply _. Defined.

Definition has_unique_id (port : AbstractPort) : Prop :=
  port_UniqueId port <> ""%string.

#[global] Instance has_unique_id_dec port : Decision (has_unique_id port).
Proof. unfold has_unique_id. apply _. Defined.

(** The device with another list of ports. *)
Definition with_ports (ports : list AbstractPort) (d : AbstractDevice) : AbstractDevice :=
  {| device_addr := device_addr d; device_UniqueId := device_UniqueId d;
     device_Name := device_Name d; device_Ports := ports |}.

(** The universe id [RestoreDevicePortPatchings] asks the store for on behalf
    of a port, if any. *)
Definition patch_target (c : libc) (prefs : gmap string string) (port : AbstractPort)
  : option Z :=
  if empty_string (port_UniqueId port) then None
  else
    let uni_id := Preferences.GetValue (port_UniqueId port) prefs in
    if empty_string uni_id then None
    else
      let id := int_of_long (strtol c uni_id 0).1 in
      if (id =? 0) && negb ((strtol c uni_id 0).2 =? 0) then None else Some id.

(** The stored value is one the loop passes over: converted to [int] it is 0,
    and [strtol] has set [errno]. *)
Definition skipped_value (c : libc) (v : string) : Prop :=
  int_of_long (strtol c v 0).1 = 0 /\ (strtol c v 0).2 <> 0.

(** The subject sequence of [v] (after white space and sign) has no digit. *)
Definition no_digits (v : string) : Prop :=
  (read_digits (read_sign (skip_spaces v)).2 0 false).2 = false.

(** [GetUniverseOrCreate(id)->AddPort(port)] *)
Definition patch (id : Z) (port : AbstractPort) (dm : DeviceManager) : DeviceManager :=
  AddPort id port (set_universe_store (GetUniverseOrCreate id (m_universe_store dm)).2 dm).

(** ** Devices and runs to try the statements on *)

Definition empty_store : UniverseStore := {| universes := ∅; requested := [] |}.

(** A manager built without a preferences factory. *)
Definition bare_manager : DeviceManager := new_DeviceManager None empty_store ∅.

(** The [i]-th of a family of devices without ports, with pairwise different
    unique ids "usb-0", "usb-1", ... *)
Definition nth_device (i : N) : AbstractDevice :=
  {| device_addr := i;
     device_UniqueId := "usb-" +:+ pretty i;
     device_Name := "device";
     device_Ports := [] |}.

(** Registering the first [n] of them, in order. *)
Definition register_first (n : nat) : list operation :=
  (fun i => Register (Some (nth_device (N.of_nat i)))) <$> seq 0 n.

(** The scenario of the spec: "usb-1" and "usb-2" register, then "usb-1"
    leaves and comes back and "usb-3" registers. *)
Definition scenario_before : list operation :=
  [Register (Some (nth_device 1)); Register (Some (nth_device 2))].

Definition scenario_after : list operation :=
  [UnregisterPtr (Some (nth_device 1)); Register (Some (nth_device 1));
   Register (Some (nth_device 3))].

Definition port_A : AbstractPort := {| port_addr := 1; port_UniqueId := "portA" |}.

Definition device_A : AbstractDevice :=
  {| device_addr := 1; device_UniqueId := "usb-1"; device_Name := "device";
     device_Ports := [port_A] |}.

(** Another device object with the unique id of [device_A], and another port
    object with the unique id of [port_A]. *)
Definition port_B : AbstractPort := {| port_addr := 2; port_UniqueId := "portA" |}.

Definition device_B : AbstractDevice :=
  {| device_addr := 2; device_UniqueId := "usb-1"; device_Name := "device";
     device_Ports := [port_B] |}.

(** [device_A] registered with an empty preferences store, its port then
    patched to universe 7. *)
Definition patched_manager : DeviceManager :=
  AddPort 7 port_A
    (RegisterDevice glibc64 (Some device_A)
       (new_DeviceManager (Some ∅) empty_store ∅)).2.

(** A device whose two ports report the same unique id, and a manager in
    which it is registered, the first port bound to universe 7 and the second
    to universe 9. *)
Definition twin_device : AbstractDevice := with_ports [port_A; port_B] device_A.

Definition twin_manager : DeviceManager :=
  AddPort 9 port_B
    (AddPort 7 port_A
       (RegisterDevice glibc64 (Some twin_device)
          (new_DeviceManager (Some ∅) empty_store ∅)).2).

(** ** lla/LlaDevice.h: the client's plugins, ports, devices and universes

    Value classes: a constructor that stores its arguments, accessors that
    return them, and, for plugins and devices, [operator<]. [unsigned int]
    members hold values in [0, 2^32), [int] members values in
    [INT_MIN, INT_MAX]; on such values the comparison of the machine is that
    of [Z]. *)

Module LlaPlugin.

Record t := {
  m_id : Z;                 (* unsigned int *)
  m_name : string;
  m_description : string
}.

Definition Id (p : t) : Z := m_id p.
Definition Name (p : t) : string := m_name p.
Definition Description (p : t) : string := m_description p.

(** [operator<] *)
Definition lt (p other : t) : bool := m_id p <? m_id other.

End LlaPlugin.

Module LlaPort.

Inductive PortCapability := LLA_PORT_CAP_IN | LLA_PORT_CAP_OUT.

Record t := {
  m_id : Z;                 (* int *)
  m_capability : PortCapability;
  m_universe : Z;           (* int *)
  m_active : Z;             (* int *)
  m_description : string
}.

Definition Id (p : t) : Z := m_id p.
Definition Capability (p : t) : PortCapability := m_capability p.
Definition Universe (p : t) : Z := m_universe p.
Definition IsActive (p : t) : Z := m_active p.
Definition Description (p : t) : string := m_description p.

End LlaPort.

Module LlaDevice.

Record t := {
  m_id : string;
  m_alias : Z;              (* unsigned int *)
  m_name : string;
  m_plugin_id : Z;          (* int *)
  m_ports : list LlaPort.t
}.

Definition Id (d : t) : string := m_id d.
Definition Alias (d : t) : Z := m_alias d.
Definition Name (d : t) : string := m_name d.
Definition PluginId (d : t) : Z := m_plugin_id d.
Definition Ports (d : t) : list LlaPort.t := m_ports d.

(** [operator<] *)
Definition lt (d other : t) : bool := m_alias d <? m_alias other.

End LlaDevice.

Module LlaUniverse.

Inductive merge_mode := MERGE_HTP | MERGE_LTP.

Record t := {
  m_id : Z;                 (* int *)
  m_merge_mode : merge_mode;
  m_name : string
}.

Definition Id (u : t) : Z := m_id u.
Definition MergeMode (u : t) : merge_mode := m_merge_mode u.
Definition Name (u : t) : string := m_name u.

End LlaUniverse.

(** What the C++ library asks of a comparison used for ordering ([std::sort],
    [std::set], [std::map]): irreflexive, asymmetric, transitive, and with a
    transitive "neither is less". *)
Definition strict_weak_order {A} (lt : A -> A -> bool) : Prop :=
  (forall x, lt x x = false) /\
  (forall x y, lt x y = true -> lt y x = false) /\
  (forall x y z, lt x y = true -> lt y z = true -> lt x z = true) /\
  (forall x y z,
     lt x y = false -> lt y x = false -> lt y z = false -> lt z y = false ->
     lt x z = false /\ lt z x = false).

(** ** Runs without registrations, and the ports [UnregisterAllDevices] saves *)

(** The calls other than [RegisterDevice]. *)
Definition is_unregistration (op : operation) : Prop :=
  match op with
  | Register _ => False
  | Unregister _ | UnregisterPtr _ | UnregisterAll => True
  end.

(** The ports of the devices of [Devices()], device after device. *)
Definition active_ports (dm : DeviceManager) : list AbstractPort :=
  concat ((fun r => match device r with
                    | Some d => device_Ports d
                    | None => []
                    end) <$> Devices dm).

(** The unique ids of the devices of [Devices()]. *)
Definition active_unique_ids (dm : DeviceManager) : list string :=
  omap (fun r => device_UniqueId <$> device r) (Devices dm).

(** The records are kept under the unique ids of their devices, and none
    under the empty string. *)
Definition keyed_by_unique_id (dm : DeviceManager) : Prop :=
  m_devices dm !! ""%string = None /\
  forall id r d, m_devices dm !! id = Some r -> device r = Some d -> device_UniqueId d = id.

(** Every entry of the alias index is the alias and the device of an active
    record. *)
Definition index_entries_active (dm : DeviceManager) : Prop :=
  forall a d,
    m_alias_map dm !! a = Some d ->
    exists id, m_devices dm !! id = Some {| alias := a; device := Some d |}.

(** Every alias of the alias index is the alias of an active record. *)
Definition index_keys_active (dm : DeviceManager) : Prop :=
  forall a d,
    m_alias_map dm !! a = Some d ->
    exists id r, m_devices dm !! id = Some r /\ is_Some (device r) /\ alias r = a.

(** * Verification *)

(** ** Decimal strings: [strtol] reads back what [IntToString] writes *)

(** [strtol] and [IntToString] on a few inputs. *)
Example IntToString_examples :
  IntToString 7 = "7"%string /\ IntToString 0 = "0"%string /\
  IntToString (-120) = "-120"%string /\
  IntToString INT_MIN = "-2147483648"%string.
Proof. repeat split; vm_compute; reflexivity. Qed.

Example strtol_examples :
  strtol glibc64 "7" 0 = (7, 0) /\
  strtol glibc64 "  -12ab" 0 = (-12, 0) /\
  strtol glibc64 "abc" 0 = (0, 0) /\
  strtol bsd64 "abc" 0 = (0, EINVAL) /\
  strtol glibc64 "99999999999999999999" 0 = (2 ^ 63 - 1, ERANGE) /\
  strtol glibc32 "99999999999999999999" 0 = (2 ^ 31 - 1, ERANGE) /\
  strtol glibc64 "-99999999999999999999" 0 = (- 2 ^ 63, ERANGE) /\
  int_of_long (2 ^ 63 - 1) = -1 /\ int_of_long (- 2 ^ 63) = 0.
Proof. repeat split; vm_compute; reflexivity. Qed.

(** Case analysis on a decimal digit. *)
Ltac each_digit d :=
  let H := fresh "Hdigit" in
  assert (H : d = 0 \/ d = 1 \/ d = 2 \/ d = 3 \/ d = 4 \/ d = 5 \/ d = 6
              \/ d = 7 \/ d = 8 \/ d = 9) by lia;
  repeat (destruct H as [-> | H]); [.. | subst d].

Lemma digit_value_digit_char d :
  0 <= d <= 9 -> digit_value (digit_char d) = Some d.
Proof. intros Hd. each_digit d; reflexivity. Qed.

Lemma digit_char_not_space d : 0 <= d <= 9 -> isspace (digit_char d) = false.
Proof. intros Hd. each_digit d; reflexivity. Qed.

Lemma digit_char_not_sign d rest :
  0 <= d <= 9 ->
  read_sign (String (digit_char d) rest) = (false, String (digit_char d) rest).
Proof. intros Hd. each_digit d; reflexivity. Qed.

(** Whatever the fuel (at least one), the digits start with a digit. *)
Lemma decimal_digits_head fuel n acc :
  0 <= n ->
  exists d rest, 0 <= d <= 9 /\
    decimal_digits (S fuel) n acc = String (digit_char d) rest.
Proof.
  revert n acc. induction fuel as [| fuel IH]; intros n acc Hn.
  - exists (n mod 10), acc. split; [pose proof (Z.mod_pos_bound n 10 ltac:(lia)); lia |].
    simpl. destruct (n <? 10); reflexivity.
  - change (decimal_digits (S (S fuel)) n acc)
      with (let acc' := String (digit_char (n mod 10)) acc in
            if n <? 10 then acc' else decimal_digits (S fuel) (n / 10) acc').
    cbv zeta. destruct (n <? 10).
    + exists (n mod 10), acc. split; [pose proof (Z.mod_pos_bound n 10 ltac:(lia)); lia | reflexivity].
    + apply IH. apply Z.div_pos; lia.
Qed.

(** Reading the digits written for [n] continues from [acc * 10^k + n], [k]
    being the number of digits. *)
Lemma read_digits_decimal_digits fuel n rest :
  0 <= n < 10 ^ Z.of_nat fuel -> (0 < fuel)%nat ->
  exists k, 0 <= k /\ forall acc seen,
    read_digits (decimal_digits fuel n rest) acc seen
    = read_digits rest (acc * 10 ^ k + n) true.
Proof.
  revert n rest. induction fuel as [| fuel IH]; intros n rest Hn Hfuel; [lia |].
  simpl decimal_digits. destruct (Z.ltb_spec n 10) as [Hlt | Hge].
  - exists 1. split; [lia |]. intros acc seen. simpl read_digits.
    rewrite Z.mod_small by lia. rewrite digit_value_digit_char by lia.
    f_equal. lia.
  - assert (Hfuel' : (0 < fuel)%nat).
    { destruct fuel; [simpl in Hn; lia | lia]. }
    assert (Hdiv : 0 <= n / 10 < 10 ^ Z.of_nat fuel).
    { split; [apply Z.div_pos; lia |].
      apply Z.div_lt_upper_bound; [lia |].
      replace (Z.of_nat (S fuel)) with (Z.of_nat fuel + 1) in Hn by lia.
      rewrite Z.pow_add_r in Hn by lia. lia. }
    destruct (IH (n / 10) (String (digit_char (n mod 10)) rest) Hdiv Hfuel')
      as (k & Hk & Hread).
    exists (k + 1). split; [lia |]. intros acc seen.
    rewrite Hread. simpl read_digits.
    rewrite digit_value_digit_char by (pose proof (Z.mod_pos_bound n 10 ltac:(lia)); lia).
    f_equal. rewrite Z.pow_add_r by lia.
    pose proof (Z.div_mod n 10 ltac:(lia)). lia.
Qed.

Lemma digits_fuel_enough n :
  0 <= n -> n < 10 ^ Z.of_nat (S (Z.to_nat (Z.log2 n))).
Proof.
  intros Hn.
  replace (Z.of_nat (S (Z.to_nat (Z.log2 n)))) with (Z.log2 n + 1)
    by (pose proof (Z.log2_nonneg n); lia).
  destruct (Z.eq_dec n 0) as [-> | Hne]; [reflexivity |].
  pose proof (Z.log2_nonneg n) as Hlog.
  assert (Hlt : n < 2 ^ (Z.log2 n + 1)).
  { replace (Z.log2 n + 1) with (Z.succ (Z.log2 n)) by lia.
    apply Z.log2_spec. lia. }
  assert (Hle : 2 ^ (Z.log2 n + 1) <= 10 ^ (Z.log2 n + 1)).
  { apply Z.pow_le_mono_l. lia. }
  lia.
Qed.

Lemma read_digits_IntToString_nonneg n :
  0 <= n ->
  read_digits (decimal_digits (S (Z.to_nat (Z.log2 n))) n "") 0 false = (n, true).
Proof.
  intros Hn.
  destruct (read_digits_decimal_digits (S (Z.to_nat (Z.log2 n))) n "")
    as (k & _ & Hread).
  - split; [lia | apply digits_fuel_enough; lia].
  - lia.
  - rewrite Hread; simpl; f_equal; lia.
Qed.

(** [strtol] on the output of [IntToString]: the value comes back and
    [errno] is not touched, for every [long] value. *)
Lemma strtol_IntToString c i errno :
  LONG_MIN c <= i <= LONG_MAX c ->
  strtol c (IntToString i) errno = (i, errno).
Proof.
  intros Hrange. unfold strtol, IntToString.
  destruct (Z.ltb_spec i 0) as [Hneg | Hpos].
  - replace (skip_spaces (String "-" (decimal_digits (S (Z.to_nat (Z.log2 (- i)))) (- i) "")))
      with (String "-" (decimal_digits (S (Z.to_nat (Z.log2 (- i)))) (- i) ""))
      by reflexivity.
    replace (read_sign (String "-" (decimal_digits (S (Z.to_nat (Z.log2 (- i)))) (- i) "")))
      with (true, decimal_digits (S (Z.to_nat (Z.log2 (- i)))) (- i) "")
      by reflexivity.
    rewrite read_digits_IntToString_nonneg by lia. cbn [negb].
    destruct (Z.ltb_spec (LONG_MAX c) (- - i)); [lia |].
    destruct (Z.ltb_spec (- - i) (LONG_MIN c)); [lia |].
    f_equal. lia.
  - destruct (decimal_digits_head (Z.to_nat (Z.log2 i)) i "" Hpos)
      as (d & rest & Hd & Hhead).
    pose proof (read_digits_IntToString_nonneg i Hpos) as Hread.
    rewrite Hhead in Hread |- *.
    replace (skip_spaces (String (digit_char d) rest))
      with (String (digit_char d) rest)
      by (simpl; rewrite digit_char_not_space by lia; reflexivity).
    rewrite digit_char_not_sign by lia. rewrite Hread. cbn [negb].
    destruct (Z.ltb_spec (LONG_MAX c) i); [lia |].
    destruct (Z.ltb_spec i (LONG_MIN c)); [lia |].
    reflexivity.
Qed.

Lemma int_range_in_long c i :
  INT_MIN <= i <= INT_MAX -> LONG_MIN c <= i <= LONG_MAX c.
Proof.
  unfold INT_MIN, INT_MAX, LONG_MIN, LONG_MAX.
  destruct (long_model c); lia.
Qed.

Lemma int_of_long_id i : INT_MIN <= i <= INT_MAX -> int_of_long i = i.
Proof.
  unfold INT_MIN, INT_MAX, int_of_long. intros Hi.
  rewrite Z.mod_small by lia. lia.
Qed.

Lemma IntToString_nonempty i : empty_string (IntToString i) = false.
Proof.
  unfold IntToString. destruct (i <? 0); [reflexivity |].
  simpl. destruct (i <? 10); [reflexivity |].
  destruct (Z.to_nat (Z.log2 i)); [reflexivity |].
  generalize (String (digit_char (i mod 10)) ""). generalize (i / 10).
  induction n as [| n IH]; intros m acc; simpl.
  - destruct (m <? 10); reflexivity.
  - destruct (m <? 10); [reflexivity | apply IH].
Qed.

(** ** Which fields each operation touches *)

Lemma fold_left_frame {A B C} (f : A -> B -> A) (g : A -> C) (l : list B) (a : A) :
  (forall a' b, g (f a' b) = g a') -> g (fold_left f l a) = g a.
Proof.
  intros Hstep. revert a. induction l as [| b l IH]; intros a; simpl; [done |].
  by rewrite IH, Hstep.
Qed.

Section Frames.

Variable c : libc.

Lemma Save_frame dev dm :
  m_devices (SaveDevicePortPatchings dev dm) = m_devices dm /\
  m_alias_map (SaveDevicePortPatchings dev dm) = m_alias_map dm /\
  m_next_device_alias (SaveDevicePortPatchings dev dm) = m_next_device_alias dm /\
  m_universe_store (SaveDevicePortPatchings dev dm) = m_universe_store dm /\
  port_universe (SaveDevicePortPatchings dev dm) = port_universe dm.
Proof.
  unfold SaveDevicePortPatchings.
  destruct (m_port_preferences dm), dev; done.
Qed.

Lemma restore_port_frame prefs dm port :
  m_devices (restore_port c prefs dm port) = m_devices dm /\
  m_alias_map (restore_port c prefs dm port) = m_alias_map dm /\
  m_next_device_alias (restore_port c prefs dm port) = m_next_device_alias dm /\
  m_port_preferences (restore_port c prefs dm port) = m_port_preferences dm.
Proof.
  unfold restore_port.
  destruct (empty_string (port_UniqueId port)); [done |].
  destruct (empty_string _); [done |].
  destruct (strtol c _ 0) as [l errno].
  destruct (_ && _); done.
Qed.

Lemma Restore_frame dev dm :
  m_devices (RestoreDevicePortPatchings c dev dm) = m_devices dm /\
  m_alias_map (RestoreDevicePortPatchings c dev dm) = m_alias_map dm /\
  m_next_device_alias (RestoreDevicePortPatchings c dev dm) = m_next_device_alias dm /\
  m_port_preferences (RestoreDevicePortPatchings c dev dm) = m_port_preferences dm.
Proof.
  unfold RestoreDevicePortPatchings.
  destruct (m_port_preferences dm) as [prefs |] eqn:Hprefs, dev as [d |]; try done.
  repeat split.
  - apply (fold_left_frame _ m_devices). intros. apply restore_port_frame.
  - apply (fold_left_frame _ m_alias_map). intros. apply restore_port_frame.
  - apply (fold_left_frame _ m_next_device_alias). intros. apply restore_port_frame.
  - rewrite <- Hprefs.
    apply (fold_left_frame _ m_port_preferences). intros. apply restore_port_frame.
Qed.

(** *** What [RegisterDevice] and [UnregisterDevice] do to the two maps *)

Lemma empty_string_spec s : empty_string s = true <-> s = ""%string.
Proof. destruct s; simpl; split; congruence. Qed.

Lemma empty_string_false s : empty_string s = false <-> s <> ""%string.
Proof. destruct s; simpl; split; congruence. Qed.

Lemma RegisterDevice_outcome dev dm :
  register_outcome dev dm (RegisterDevice c dev dm).
Proof.
  unfold RegisterDevice. destruct dev as [d |].
  2: { apply register_refused; auto. }
  destruct (empty_string (device_UniqueId d)) eqn:Hid.
  { apply register_refused; [done |]. right; left. exists d.
    split; [done | by apply empty_string_spec]. }
  apply empty_string_false in Hid.
  destruct (m_devices dm !! device_UniqueId d) as [found |] eqn:Hfound.
  - destruct (device found) as [d0 |] eqn:Hdev.
    + apply register_refused; [done |]. right; right. exists d, found.
      rewrite Hdev. eauto.
    + eapply register_known; eauto.
      all: match goal with
           | |- ?f (RestoreDevicePortPatchings _ _ ?x) = _ =>
               pose proof (Restore_frame (Some d) x) as (H1 & H2 & H3 & H4);
               rewrite ?H1, ?H2, ?H3, ?H4
           end; done.
  - eapply register_fresh; eauto.
    all: match goal with
         | |- ?f (RestoreDevicePortPatchings _ _ ?x) = _ =>
             pose proof (Restore_frame (Some d) x) as (H1 & H2 & H3 & H4);
             rewrite ?H1, ?H2, ?H3, ?H4
         end; done.
Qed.

End Frames.

Lemma UnregisterDevice_outcome device_id dm :
  unregister_outcome device_id dm (UnregisterDevice device_id dm).
Proof.
  unfold UnregisterDevice.
  destruct (m_devices dm !! device_id) as [found |] eqn:Hfound.
  2: { apply unregister_refused; [done | by left]. }
  destruct (device found) as [d |] eqn:Hdev.
  2: { apply unregister_refused; [done | right; eauto]. }
  pose proof (Save_frame (Some d) dm) as (H1 & H2 & H3 & H4 & H5).
  eapply unregister_done; eauto; simpl; by rewrite ?H1, ?H2, ?H3, ?H4, ?H5.
Qed.

Lemma entries_Permutation (m : gmap string device_alias_pair) :
  entries m ≡ₚ map_to_list m.
Proof. apply merge_sort_Permutation. Qed.

Lemma elem_of_entries (m : gmap string device_alias_pair) id r :
  (id, r) ∈ entries m <-> m !! id = Some r.
Proof. rewrite entries_Permutation. apply elem_of_map_to_list. Qed.

(** Overwriting, one after the other, the records listed in [l] with their
    deactivated versions. *)
Lemma lookup_fold_deactivate (m : gmap string device_alias_pair)
    (l : list (string * device_alias_pair)) (m0 : gmap string device_alias_pair) id :
  (forall k r, (k, r) ∈ l -> m !! k = Some r) ->
  fold_left (fun acc entry => <[entry.1 := deactivate entry.2]> acc) l m0 !! id
  = if decide (id ∈ l.*1) then deactivate <$> m !! id else m0 !! id.
Proof.
  revert m0. induction l as [| [k r] l IH]; intros m0 Hl.
  - rewrite fmap_nil. cbn [fold_left].
    rewrite decide_False; [done | apply not_elem_of_nil].
  - rewrite fmap_cons. cbn [fold_left fst snd].
    rewrite IH by (intros k' r' Hin; apply Hl, elem_of_cons; by right).
    destruct (decide (id ∈ l.*1)) as [Hin | Hnotin].
    + rewrite decide_True; [done | apply elem_of_cons; by right].
    + destruct (decide (id = k)) as [-> | Hne].
      * rewrite decide_True by (apply elem_of_cons; by left).
        rewrite lookup_insert_eq.
        rewrite (Hl k r) by (apply elem_of_cons; by left). done.
      * rewrite decide_False by (rewrite elem_of_cons; tauto).
        by rewrite lookup_insert_ne.
Qed.

Lemma UnregisterAllDevices_frame dm :
  m_devices (UnregisterAllDevices dm) = deactivate <$> m_devices dm /\
  m_alias_map (UnregisterAllDevices dm) = ∅ /\
  m_next_device_alias (UnregisterAllDevices dm) = m_next_device_alias dm /\
  m_universe_store (UnregisterAllDevices dm) = m_universe_store dm /\
  port_universe (UnregisterAllDevices dm) = port_universe dm.
Proof.
  unfold UnregisterAllDevices.
  cbn [m_devices m_alias_map m_next_device_alias m_universe_store port_universe
       set_alias_map].
  split; [| split; [done |]; split; [| split]].
  - assert (Hfold : forall l dm0,
      m_devices (fold_left
        (fun dm1 entry =>
           let dm2 := SaveDevicePortPatchings (device entry.2) dm1 in
           set_devices (<[entry.1 := {| alias := alias entry.2; device := None |}]>
                          (m_devices dm2)) dm2) l dm0)
      = fold_left (fun acc entry => <[entry.1 := deactivate entry.2]> acc) l (m_devices dm0)).
    { induction l as [| e l IH]; intros dm0; simpl; [done |].
      rewrite IH. simpl.
      by pose proof (Save_frame (device e.2) dm0) as (-> & _). }
    rewrite Hfold. apply map_eq. intros id.
    rewrite (lookup_fold_deactivate (m_devices dm)).
    2: { intros k r. apply elem_of_entries. }
    rewrite lookup_fmap. case_decide as Hin; [done |].
    destruct (m_devices dm !! id) as [r |] eqn:Hr; [| done].
    exfalso. apply Hin. apply list_elem_of_fmap. exists (id, r).
    split; [done |]. by apply elem_of_entries.
  - apply (fold_left_frame _ m_next_device_alias). intros dm1 e. simpl.
    by pose proof (Save_frame (device e.2) dm1) as (_ & _ & -> & _).
  - apply (fold_left_frame _ m_universe_store). intros dm1 e. simpl.
    by pose proof (Save_frame (device e.2) dm1) as (_ & _ & _ & -> & _).
  - apply (fold_left_frame _ port_universe). intros dm1 e. simpl.
    by pose proof (Save_frame (device e.2) dm1) as (_ & _ & _ & _ & ->).
Qed.

(** ** Runs of the manager *)

Lemma run_app c ops1 ops2 dm : run c (ops1 ++ ops2) dm = run c ops2 (run c ops1 dm).
Proof. apply fold_left_app. Qed.

(** *** The moves of the two maps and of the counter *)

Lemma RegisterDevice_map_step c dev dm : map_step dm (RegisterDevice c dev dm).2.
Proof.
  destruct (RegisterDevice_outcome c dev dm); simpl.
  - subst. by apply ms_stutter.
  - eapply ms_activate; eauto.
  - eapply ms_allocate; eauto.
Qed.

Lemma UnregisterDevice_map_step device_id dm :
  map_step dm (UnregisterDevice device_id dm).2.
Proof.
  destruct (UnregisterDevice_outcome device_id dm); simpl.
  - subst. by apply ms_stutter.
  - eapply ms_deactivate; eauto.
Qed.

Lemma step_map_step c dm op : map_step dm (step c dm op).
Proof.
  destruct op as [dev | device_id | dev |]; simpl.
  - apply RegisterDevice_map_step.
  - apply UnregisterDevice_map_step.
  - unfold UnregisterDevice_ptr. destruct dev as [d |]; [| by apply ms_stutter].
    destruct (empty_string _); [by apply ms_stutter |].
    apply UnregisterDevice_map_step.
  - pose proof (UnregisterAllDevices_frame dm) as (? & ? & ? & _).
    by apply ms_deactivate_all.
Qed.

Lemma aliases_lookup dm id :
  aliases dm !! id = alias <$> m_devices dm !! id.
Proof. apply lookup_fmap. Qed.

Lemma aliases_size dm : size (aliases dm) = size (m_devices dm).
Proof. apply map_size_fmap. Qed.

Lemma aliases_insert_same dm dm' id found r :
  m_devices dm !! id = Some found -> alias r = alias found ->
  m_devices dm' = <[id := r]> (m_devices dm) ->
  aliases dm' = aliases dm.
Proof.
  unfold aliases. intros Hfound Halias ->. rewrite fmap_insert.
  apply insert_id. by rewrite lookup_fmap, Hfound, Halias.
Qed.

Lemma aliases_deactivate_all dm dm' :
  m_devices dm' = deactivate <$> m_devices dm -> aliases dm' = aliases dm.
Proof.
  unfold aliases. intros ->. rewrite <- map_fmap_compose. by apply map_fmap_ext.
Qed.

(** A record, once made, keeps its alias; a move either leaves the aliases as
    they are or gives the value of the counter to an id that had none. *)
Lemma map_step_aliases dm dm' :
  map_step dm dm' ->
  (aliases dm' = aliases dm /\ m_next_device_alias dm' = m_next_device_alias dm) \/
  (exists id, aliases dm !! id = None /\
     aliases dm' = <[id := m_next_device_alias dm]> (aliases dm) /\
     m_next_device_alias dm' = uint_incr (m_next_device_alias dm)).
Proof.
  intros [Hd _ Hn | id found d Hfound _ Hd _ Hn | id d Hnone Hd _ Hn
         | id found d Hfound _ Hd _ Hn | Hd _ Hn].
  - left. unfold aliases. by rewrite Hd.
  - left. split; [| done].
    by refine (aliases_insert_same dm dm' id found _ Hfound _ Hd).
  - right. exists id. unfold aliases.
    rewrite Hd, fmap_insert, lookup_fmap, Hnone. done.
  - left. split; [| done].
    by refine (aliases_insert_same dm dm' id found _ Hfound _ Hd).
  - left. split; [by apply aliases_deactivate_all | done].
Qed.

Lemma map_step_aliases_subseteq dm dm' :
  map_step dm dm' -> aliases dm ⊆ aliases dm'.
Proof.
  intros Hstep.
  destruct (map_step_aliases _ _ Hstep) as [[-> _] | (id & Hnone & -> & _)]; [done |].
  by apply insert_subseteq.
Qed.

Lemma run_aliases_subseteq c ops dm : aliases dm ⊆ aliases (run c ops dm).
Proof.
  revert dm. induction ops as [| op ops IH]; intros dm; simpl; [done |].
  etrans; [| apply IH]. apply map_step_aliases_subseteq, step_map_step.
Qed.

Lemma run_devices_size c ops dm :
  (size (m_devices dm) <= size (m_devices (run c ops dm)))%nat.
Proof.
  rewrite <- !aliases_size. apply map_subseteq_size, run_aliases_subseteq.
Qed.

(** ** The invariant of the alias bookkeeping *)

Lemma alias_inv_new prefs store ports :
  alias_inv (new_DeviceManager prefs store ports).
Proof.
  split; simpl.
  - reflexivity.
  - intros id a. unfold aliases. simpl. by rewrite fmap_empty, lookup_empty.
  - intros id1 id2 a. unfold aliases. simpl. by rewrite fmap_empty, lookup_empty.
  - intros a d. rewrite lookup_empty. split; [done |].
    intros [id Hid]. by rewrite lookup_empty in Hid.
Qed.

(** While at most 2^32 aliases are in use, the alias the counter hands out
    next differs from all of them. *)
Lemma counter_value_unused i n :
  0 <= i < n -> n < UINT_MODULUS ->
  (FIRST_DEVICE_ALIAS + i) mod UINT_MODULUS <> (FIRST_DEVICE_ALIAS + n) mod UINT_MODULUS.
Proof.
  unfold FIRST_DEVICE_ALIAS, UINT_MODULUS. intros Hi Hn.
  rewrite (Z.mod_small (1 + i)) by lia.
  destruct (Z.eq_dec (1 + n) (2 ^ 32)) as [-> | Hne].
  - rewrite Z.mod_same by lia. lia.
  - rewrite Z.mod_small by lia. lia.
Qed.

Lemma alias_record_lookup dm id a :
  aliases dm !! id = Some a <->
  exists dev, m_devices dm !! id = Some {| alias := a; device := dev |}.
Proof.
  rewrite aliases_lookup. split.
  - destruct (m_devices dm !! id) as [[a' dev] |]; simpl; [| done].
    intros [= ->]. eauto.
  - intros [dev ->]. done.
Qed.

Lemma map_step_alias_inv dm dm' :
  alias_inv dm -> map_step dm dm' ->
  Z.of_nat (size (m_devices dm')) <= UINT_MODULUS ->
  alias_inv dm'.
Proof.
  intros [Hnext Hrange Hinj Hindex] Hstep Hsize.
  assert (Hsame : aliases dm' = aliases dm ->
                  m_next_device_alias dm' = m_next_device_alias dm ->
                  (forall a d, m_alias_map dm' !! a = Some d <->
                     exists id, m_devices dm' !! id = Some {| alias := a; device := Some d |}) ->
                  alias_inv dm').
  { intros Ha Hn Hi.
    assert (Hsz : size (m_devices dm') = size (m_devices dm))
      by (rewrite <- !aliases_size; by rewrite Ha).
    split; rewrite ?Ha, ?Hn, ?Hsz; done. }
  destruct Hstep as [Hd Hm Hn | id found d Hfound Hdev Hd Hm Hn | id d Hnone Hd Hm Hn
                    | id found d Hfound Hdev Hd Hm Hn | Hd Hm Hn].
  - (* nothing moves *)
    apply Hsame; [unfold aliases; by rewrite Hd | done |].
    intros a d. rewrite Hm, Hd. apply Hindex.
  - (* a known device comes back *)
    assert (Ha : aliases dm' = aliases dm)
      by (by refine (aliases_insert_same dm dm' id found _ Hfound _ Hd)).
    apply Hsame; [done | done |].
    intros a d'. rewrite Hm, Hd. destruct found as [af devf]. simpl in *. subst devf.
    split.
    + destruct (decide (a = af)) as [-> | Hne].
      * rewrite lookup_insert_eq. intros [= ->]. exists id. by rewrite lookup_insert_eq.
      * rewrite lookup_insert_ne by done. intros Hold.
        apply Hindex in Hold as [id0 Hid0]. exists id0.
        rewrite lookup_insert_ne; [done |]. intros ->. congruence.
    + intros [id0 Hid0]. destruct (decide (id0 = id)) as [-> | Hne].
      * rewrite lookup_insert_eq in Hid0. injection Hid0 as -> ->.
        by rewrite lookup_insert_eq.
      * rewrite lookup_insert_ne in Hid0 by done.
        assert (a <> af).
        { intros ->. apply Hne. apply (Hinj id0 id af); apply alias_record_lookup; eauto. }
        rewrite lookup_insert_ne by done. apply Hindex. eauto.
  - (* a new device gets the value of the counter *)
    assert (Hsz : size (m_devices dm') = S (size (m_devices dm)))
      by (rewrite Hd; by apply map_size_insert_None).
    assert (Hfresh : forall id0 a0, aliases dm !! id0 = Some a0 ->
                                    a0 <> m_next_device_alias dm).
    { intros id0 a0 Ha0. destruct (Hrange _ _ Ha0) as (i & Hi & ->).
      rewrite Hnext. apply counter_value_unused; lia. }
    assert (Ha : aliases dm' = <[id := m_next_device_alias dm]> (aliases dm)).
    { unfold aliases. by rewrite Hd, fmap_insert. }
    assert (Hnone' : aliases dm !! id = None) by (by rewrite aliases_lookup, Hnone).
    split.
    + rewrite Hn, Hsz, Hnext. unfold uint_incr.
      rewrite Z.add_mod_idemp_l by (unfold UINT_MODULUS; lia). f_equal. lia.
    + intros id0 a0. rewrite Ha, Hsz. destruct (decide (id0 = id)) as [-> | Hne].
      * rewrite lookup_insert_eq. intros [= <-].
        exists (Z.of_nat (size (m_devices dm))). split; [lia | done].
      * rewrite lookup_insert_ne by done. intros Ha0.
        destruct (Hrange _ _ Ha0) as (i & Hi & ->). exists i. split; [lia | done].
    + intros id1 id2 a0. rewrite Ha.
      destruct (decide (id1 = id)) as [-> | Hne1], (decide (id2 = id)) as [-> | Hne2];
        rewrite ?lookup_insert_eq, ?lookup_insert_ne by done; try done.
      * intros [= <-] Ha0. by apply Hfresh in Ha0.
      * intros Ha0 [= <-]. by apply Hfresh in Ha0.
      * apply Hinj.
    + intros a0 d'. rewrite Hm, Hd. split.
      * destruct (decide (a0 = m_next_device_alias dm)) as [-> | Hne].
        -- rewrite lookup_insert_eq. intros [= ->]. exists id. by rewrite lookup_insert_eq.
        -- rewrite lookup_insert_ne by done. intros Hold.
           apply Hindex in Hold as [id0 Hid0]. exists id0.
           rewrite lookup_insert_ne; [done |]. intros ->. congruence.
      * intros [id0 Hid0]. destruct (decide (id0 = id)) as [-> | Hne].
        -- rewrite lookup_insert_eq in Hid0. injection Hid0 as -> ->.
           by rewrite lookup_insert_eq.
        -- rewrite lookup_insert_ne in Hid0 by done.
           assert (a0 <> m_next_device_alias dm).
           { apply (Hfresh id0). apply alias_record_lookup. eauto. }
           rewrite lookup_insert_ne by done. apply Hindex. eauto.
  - (* an active device leaves *)
    assert (Ha : aliases dm' = aliases dm)
      by (by refine (aliases_insert_same dm dm' id found _ Hfound _ Hd)).
    apply Hsame; [done | done |].
    intros a d'. rewrite Hm, Hd. destruct found as [af devf]. simpl in *. subst devf.
    unfold deactivate. simpl. split.
    + destruct (decide (a = af)) as [-> | Hne]; [by rewrite lookup_delete_eq |].
      rewrite lookup_delete_ne by done. intros Hold.
      apply Hindex in Hold as [id0 Hid0]. exists id0.
      rewrite lookup_insert_ne; [done |]. intros ->. congruence.
    + intros [id0 Hid0]. destruct (decide (id0 = id)) as [-> | Hne].
      * by rewrite lookup_insert_eq in Hid0.
      * rewrite lookup_insert_ne in Hid0 by done.
        assert (a <> af).
        { intros ->. apply Hne. apply (Hinj id0 id af); apply alias_record_lookup; eauto. }
        rewrite lookup_delete_ne by done. apply Hindex. eauto.
  - (* every device leaves *)
    assert (Ha : aliases dm' = aliases dm) by (by apply aliases_deactivate_all).
    apply Hsame; [done | done |].
    intros a d'. rewrite Hm, Hd, lookup_empty. split; [done |].
    intros [id0 Hid0]. rewrite lookup_fmap in Hid0.
    destruct (m_devices dm !! id0); simpl in Hid0; [| done].
    unfold deactivate in Hid0. congruence.
Qed.

Lemma run_alias_inv c ops dm :
  alias_inv dm ->
  Z.of_nat (size (m_devices (run c ops dm))) <= UINT_MODULUS ->
  alias_inv (run c ops dm).
Proof.
  revert dm. induction ops as [| op ops IH]; intros dm Hinv Hsize; simpl in *; [done |].
  apply IH; [| done].
  apply (map_step_alias_inv dm); [done | apply step_map_step |].
  pose proof (run_devices_size c ops (step c dm op)). lia.
Qed.

(** ** Counting the active records *)

Lemma map_to_list_active (m : gmap string device_alias_pair) :
  map_to_list (filter is_active m) ≡ₚ filter is_active (map_to_list m).
Proof.
  apply NoDup_Permutation.
  - apply NoDup_map_to_list.
  - apply NoDup_filter, NoDup_map_to_list.
  - intros [id r]. rewrite elem_of_map_to_list, list_elem_of_filter,
      elem_of_map_to_list, map_lookup_filter_Some. tauto.
Qed.

Lemma active_records_size dm :
  size (active_records dm) = length (filter is_active (entries (m_devices dm))).
Proof.
  unfold active_records. rewrite <- length_map_to_list, map_to_list_active.
  by rewrite entries_Permutation.
Qed.

Lemma count_loop (l : list (string * device_alias_pair)) (count : Z) :
  0 <= count < UINT_MODULUS ->
  fold_left
    (fun count entry =>
       match device entry.2 with
       | Some _ => uint_incr count
       | None => count
       end) l count
  = (count + Z.of_nat (length (filter is_active l))) mod UINT_MODULUS.
Proof.
  revert count. induction l as [| [id [a dev]] l IH]; intros count Hcount.
  - simpl. rewrite Z.add_0_r, Z.mod_small; done.
  - cbn [fold_left snd device]. destruct dev as [d |].
    + rewrite filter_cons_True by (unfold is_active; simpl; eauto).
      rewrite IH by (unfold uint_incr, UINT_MODULUS in *; apply Z.mod_pos_bound; lia).
      unfold uint_incr. rewrite Z.add_mod_idemp_l by (unfold UINT_MODULUS; lia).
      f_equal. simpl length. lia.
    + rewrite filter_cons_False by (unfold is_active; simpl; by intros [? ?]).
      by apply IH.
Qed.

Lemma DeviceCount_mod dm :
  DeviceCount dm = Z.of_nat (size (active_records dm)) mod UINT_MODULUS.
Proof.
  unfold DeviceCount. rewrite count_loop by (unfold UINT_MODULUS; lia).
  by rewrite active_records_size.
Qed.

(** ** Registering many devices, one after the other *)

Lemma nth_device_id_inj i j :
  device_UniqueId (nth_device i) = device_UniqueId (nth_device j) -> i = j.
Proof.
  simpl. intros H. apply (inj (String.append _)) in H. by apply (inj pretty) in H.
Qed.

Lemma nth_device_id_nonempty i : device_UniqueId (nth_device i) <> ""%string.
Proof.
  simpl. change ("usb-" +:+ pretty i) with (String "u" ("sb-" +:+ pretty i)). done.
Qed.

Lemma register_first_S n :
  register_first (S n)
  = register_first n ++ [Register (Some (nth_device (N.of_nat n)))].
Proof. unfold register_first. by rewrite seq_S, fmap_app. Qed.

Lemma register_first_state c prefs store ports n :
  let dm := run c (register_first n) (new_DeviceManager prefs store ports) in
  m_next_device_alias dm = (FIRST_DEVICE_ALIAS + Z.of_nat n) mod UINT_MODULUS /\
  (forall i, (i < n)%nat ->
     m_devices dm !! device_UniqueId (nth_device (N.of_nat i))
     = Some {| alias := (FIRST_DEVICE_ALIAS + Z.of_nat i) mod UINT_MODULUS;
               device := Some (nth_device (N.of_nat i)) |}) /\
  (forall id, is_Some (m_devices dm !! id) ->
     exists i, (i < n)%nat /\ id = device_UniqueId (nth_device (N.of_nat i))) /\
  size (m_devices dm) = n /\
  (forall i, n = S i ->
     m_alias_map dm !! ((FIRST_DEVICE_ALIAS + Z.of_nat i) mod UINT_MODULUS)
     = Some (nth_device (N.of_nat i))).
Proof.
  induction n as [| n IH].
  - cbn zeta. repeat split; try done; try lia.
    intros id [r Hr]. simpl in Hr. by rewrite lookup_empty in Hr.
  - cbn zeta in *. rewrite register_first_S, run_app.
    set (dm := run c (register_first n) (new_DeviceManager prefs store ports)) in *.
    destruct IH as (Hnext & Hrecords & Hdom & Hsize & _).
    set (d := nth_device (N.of_nat n)).
    assert (Hnone : m_devices dm !! device_UniqueId d = None).
    { destruct (m_devices dm !! device_UniqueId d) as [r |] eqn:Hr; [| done].
      destruct (Hdom (device_UniqueId d)) as (i & Hi & Heq); [by rewrite Hr |].
      apply nth_device_id_inj in Heq. lia. }
    change (run c [Register (Some d)] dm) with (RegisterDevice c (Some d) dm).2.
    destruct (RegisterDevice_outcome c (Some d) dm)
      as [dm' _ Hrefused | d0 found dm' Hd0 _ Hfound _ _ _ _ _
         | d0 dm' Hd0 _ _ Hd Hm Hn _].
    + exfalso. destruct Hrefused as [? | [(d0 & Hd0 & Hempty) | (d0 & found & Hd0 & Hf & _)]].
      * done.
      * injection Hd0 as <-. done.
      * injection Hd0 as <-. congruence.
    + exfalso. injection Hd0 as <-. congruence.
    + injection Hd0 as <-. simpl. repeat split.
      * rewrite Hn, Hnext. unfold uint_incr.
        rewrite Z.add_mod_idemp_l by (unfold UINT_MODULUS; lia). f_equal. lia.
      * intros i Hi. rewrite Hd. destruct (decide (i = n)) as [-> | Hne].
        -- by rewrite lookup_insert_eq, Hnext.
        -- rewrite lookup_insert_ne; [apply Hrecords; lia |].
           intros Heq. apply nth_device_id_inj in Heq. lia.
      * intros id. rewrite Hd.
        destruct (decide (id = device_UniqueId d)) as [-> | Hne].
        -- intros _. exists n. split; [lia | done].
        -- rewrite lookup_insert_ne by done. intros Hid.
           destruct (Hdom id Hid) as (i & Hi & ->). exists i. split; [lia | done].
      * rewrite Hd, map_size_insert_None by done. by rewrite Hsize.
      * intros i [= <-]. by rewrite Hm, Hnext, lookup_insert_eq.
Qed.

Lemma register_first_all_active c prefs store ports n :
  let dm := run c (register_first n) (new_DeviceManager prefs store ports) in
  size (active_records dm) = n.
Proof.
  cbn zeta.
  destruct (register_first_state c prefs store ports n) as (_ & Hrecords & Hdom & Hsize & _).
  cbn zeta in *. unfold active_records. rewrite map_filter_id; [done |].
  intros id r Hr. destruct (Hdom id) as (i & Hi & ->); [by rewrite Hr |].
  rewrite Hrecords in Hr by done. injection Hr as <-.
  unfold is_active. simpl. eauto.
Qed.

(** ** Aliases (claim C1) *)

Lemma RegisterDevice_success c d dm dm' :
  RegisterDevice c (Some d) dm = (true, dm') ->
  exists a,
    m_devices dm' !! device_UniqueId d = Some {| alias := a; device := Some d |} /\
    ((exists found, m_devices dm !! device_UniqueId d = Some found /\
                    device found = None /\ a = alias found) \/
     (m_devices dm !! device_UniqueId d = None /\ a = m_next_device_alias dm)).
Proof.
  intros Hreg. pose proof (RegisterDevice_outcome c (Some d) dm) as Hout.
  rewrite Hreg in Hout.
  inversion Hout as [| d0 found dm0 Hd0 _ Hfound Hdev Hd _ _ _
                     | d0 dm0 Hd0 _ Hnone Hd _ _ _]; subst; injection Hd0 as <-.
  - exists (alias found). rewrite Hd, lookup_insert_eq. eauto 10.
  - exists (m_next_device_alias dm). rewrite Hd, lookup_insert_eq. eauto.
Qed.

Lemma GetDevice_active id dm r d :
  m_devices dm !! id = Some r -> device r = Some d -> GetDevice id dm = r.
Proof. unfold GetDevice. intros -> ->. done. Qed.

(** C1, as the code has it. Whatever the length of the run, a record keeps
    its alias, and every successful registration of a unique id returns the
    alias of an earlier successful registration of that id. And along every
    run in which at most 2^32 - 1 different unique ids get registered (the
    counter is an [unsigned int]): an alias given to one unique id is never
    held by another, at no time do two unique ids hold the same alias, the
    aliases in use are [FIRST_DEVICE_ALIAS], [FIRST_DEVICE_ALIAS + 1], ... in
    the order the ids were first registered, so a new id gets a larger alias
    than all before it. *)
Theorem alias_allocation c prefs store ports ops1 ops2 :
  let dm1 := run c ops1 (new_DeviceManager prefs store ports) in
  let dm2 := run c ops2 dm1 in
  (forall id a, aliases dm1 !! id = Some a -> aliases dm2 !! id = Some a) /\
  (forall d d' dmA dmB,
     device_UniqueId d' = device_UniqueId d ->
     RegisterDevice c (Some d) dm1 = (true, dmA) ->
     RegisterDevice c (Some d') (run c ops2 dmA) = (true, dmB) ->
     alias (GetDevice (device_UniqueId d) dmB)
     = alias (GetDevice (device_UniqueId d) dmA)) /\
  (Z.of_nat (size (m_devices dm2)) <= UINT_MAX ->
   (forall id1 id2 a,
      aliases dm1 !! id1 = Some a -> aliases dm2 !! id2 = Some a -> id1 = id2) /\
   (forall id1 id2 a,
      aliases dm2 !! id1 = Some a -> aliases dm2 !! id2 = Some a -> id1 = id2) /\
   (forall id a,
      aliases dm2 !! id = Some a ->
      FIRST_DEVICE_ALIAS <= a < FIRST_DEVICE_ALIAS + Z.of_nat (size (m_devices dm2))) /\
   (forall d dm3,
      m_devices dm2 !! device_UniqueId d = None ->
      RegisterDevice c (Some d) dm2 = (true, dm3) ->
      Z.of_nat (size (m_devices dm3)) <= UINT_MAX ->
      GetDevice (device_UniqueId d) dm3
      = {| alias := FIRST_DEVICE_ALIAS + Z.of_nat (size (m_devices dm2));
           device := Some d |})).
Proof.
  intros dm1 dm2.
  assert (Hkeep : forall id a, aliases dm1 !! id = Some a -> aliases dm2 !! id = Some a).
  { intros id a Ha. eapply lookup_weaken; [exact Ha | apply run_aliases_subseteq]. }
  split; [exact Hkeep |]. split; [| intros Hsize].
  { intros d d' dmA dmB Hid HregA HregB.
    destruct (RegisterDevice_success _ _ _ _ HregA) as (a & HrecA & _).
    destruct (RegisterDevice_success _ _ _ _ HregB) as (b & HrecB & Hwhere).
    rewrite Hid in HrecB, Hwhere.
    rewrite (GetDevice_active _ _ _ d HrecA eq_refl).
    rewrite (GetDevice_active _ _ _ d' HrecB eq_refl). simpl.
    assert (HaA : aliases (run c ops2 dmA) !! device_UniqueId d = Some a).
    { eapply lookup_weaken; [| apply run_aliases_subseteq].
      by rewrite aliases_lookup, HrecA. }
    rewrite aliases_lookup in HaA.
    destruct Hwhere as [(found & Hfound & _ & ->) | (Hnone & _)].
    + rewrite Hfound in HaA. simpl in HaA. congruence.
    + by rewrite Hnone in HaA. }
  assert (Hinv : alias_inv dm2).
  { unfold dm2, dm1. rewrite <- run_app. apply run_alias_inv; [apply alias_inv_new |].
    rewrite run_app. fold dm1. fold dm2. unfold UINT_MAX, UINT_MODULUS in *. lia. }
  destruct Hinv as [Hnext Hrange Hinj _].
  split; [| split; [exact Hinj |]; split].
  - intros id1 id2 a H1 H2. apply (Hinj id1 id2 a); [by apply Hkeep | done].
  - intros id a Ha. destruct (Hrange _ _ Ha) as (i & Hi & ->).
    unfold FIRST_DEVICE_ALIAS, UINT_MODULUS, UINT_MAX in *.
    rewrite Z.mod_small by lia. lia.
  - intros d dm3 Hnone Hreg Hsize3.
    destruct (RegisterDevice_success _ _ _ _ Hreg)
      as (a & Hrec & [(found & Hfound & _) | (_ & ->)]); [congruence |].
    rewrite (GetDevice_active _ _ _ d Hrec eq_refl). f_equal.
    rewrite Hnext.
    assert (size (m_devices dm3) = S (size (m_devices dm2))) as Hgrow.
    { pose proof (RegisterDevice_outcome c (Some d) dm2) as Hout. rewrite Hreg in Hout.
      inversion Hout as [| d0 f0 dm0 Hd0 _ Hf0 | d0 dm0 Hd0 _ _ Hd]; subst;
        injection Hd0 as <-; [congruence |].
      rewrite Hd. by apply map_size_insert_None. }
    unfold FIRST_DEVICE_ALIAS, UINT_MODULUS, UINT_MAX in *.
    rewrite Z.mod_small by lia. done.
Qed.

(** C1, on the scenario of the spec: three unique ids, one of them unregistered
    and registered again. *)
Lemma alias_allocation_witness :
  let dm1 := run glibc64 scenario_before bare_manager in
  let dm2 := run glibc64 scenario_after dm1 in
  Z.of_nat (size (m_devices dm2)) <= UINT_MAX /\
  (forall id1 id2 a,
     aliases dm1 !! id1 = Some a -> aliases dm2 !! id2 = Some a -> id1 = id2).
Proof.
  intros dm1 dm2.
  assert (Hsize : Z.of_nat (size (m_devices dm2)) <= UINT_MAX)
    by (vm_compute; discriminate).
  split; [exact Hsize |].
  exact (proj1 (proj2 (proj2
    (alias_allocation glibc64 None empty_store ∅
       scenario_before scenario_after)) Hsize)).
Defined.

(** C1 as stated fails: of 2^32 + 1 devices with different unique ids,
    registered one after the other, the one registered after the holder of
    alias 2^32 - 1 gets alias 0, the counter having wrapped around, and the
    first and the last hold the same alias, 1. *)
Lemma alias_shared_after_wraparound :
  let dm := run glibc64 (register_first (N.to_nat 4294967297)) bare_manager in
  m_devices dm !! "usb-0"%string
  = Some {| alias := 1; device := Some (nth_device 0) |} /\
  m_devices dm !! "usb-4294967294"%string
  = Some {| alias := 4294967295; device := Some (nth_device 4294967294) |} /\
  m_devices dm !! "usb-4294967295"%string
  = Some {| alias := 0; device := Some (nth_device 4294967295) |} /\
  m_devices dm !! "usb-4294967296"%string
  = Some {| alias := 1; device := Some (nth_device 4294967296) |}.
Proof.
  intros dm.
  destruct (register_first_state glibc64 None empty_store ∅
              (N.to_nat 4294967297)) as (_ & Hrecords & _).
  fold bare_manager in Hrecords. fold dm in Hrecords.
  assert (Hat : forall i : N, (i < 4294967297)%N ->
    m_devices dm !! device_UniqueId (nth_device i)
    = Some {| alias := (FIRST_DEVICE_ALIAS + Z.of_N i) mod UINT_MODULUS;
              device := Some (nth_device i) |}).
  { intros i Hi. pose proof (Hrecords (N.to_nat i) ltac:(lia)) as H.
    by rewrite N2Nat.id, N_nat_Z in H. }
  split; [exact (Hat 0%N eq_refl) |].
  split; [exact (Hat 4294967294%N eq_refl) |].
  split; [exact (Hat 4294967295%N eq_refl) | exact (Hat 4294967296%N eq_refl)].
Qed.

(** ** The alias index (claim C9) *)

(** Whatever the counter did, an entry of the alias index belongs to an
    active record: the call that unregisters a record takes its alias out of
    the index. *)
Lemma map_step_index_entries_active dm dm' :
  index_entries_active dm -> map_step dm dm' -> index_entries_active dm'.
Proof.
  intros Hinv Hstep a d0 Ha.
  destruct Hstep as [Hd Hm _ | id found d Hfound Hdev Hd Hm _ | id d Hnone Hd Hm _
                    | id found d Hfound Hdev Hd Hm _ | Hd Hm _]; rewrite Hm in Ha.
  - rewrite Hd. exact (Hinv a d0 Ha).
  - destruct (decide (a = alias found)) as [-> | Hne].
    + rewrite lookup_insert_eq in Ha. injection Ha as <-.
      exists id. by rewrite Hd, lookup_insert_eq.
    + rewrite lookup_insert_ne in Ha by done.
      destruct (Hinv a d0 Ha) as (id' & Hr).
      exists id'. rewrite Hd, lookup_insert_ne; [done |].
      intros <-. rewrite Hfound in Hr. injection Hr as ->. done.
  - destruct (decide (a = m_next_device_alias dm)) as [-> | Hne].
    + rewrite lookup_insert_eq in Ha. injection Ha as <-.
      exists id. by rewrite Hd, lookup_insert_eq.
    + rewrite lookup_insert_ne in Ha by done.
      destruct (Hinv a d0 Ha) as (id' & Hr).
      exists id'. rewrite Hd, lookup_insert_ne; [done | congruence].
  - destruct (decide (a = alias found)) as [-> | Hne].
    { by rewrite lookup_delete_eq in Ha. }
    rewrite lookup_delete_ne in Ha by done.
    destruct (Hinv a d0 Ha) as (id' & Hr).
    exists id'. rewrite Hd, lookup_insert_ne; [done |].
    intros <-. rewrite Hfound in Hr. injection Hr as ->. done.
  - by rewrite lookup_empty in Ha.
Qed.

Lemma run_index_entries_active c ops dm :
  index_entries_active dm -> index_entries_active (run c ops dm).
Proof.
  revert dm. induction ops as [| op ops IH]; intros dm Hinv; [done |].
  simpl. apply IH. eapply map_step_index_entries_active; [done | apply step_map_step].
Qed.

(** C9, as the code has it. Along every run of register / unregister /
    unregister-all from the initial state, whatever its length, the alias
    index has entries for active devices only (an entry [a -> d] belongs to a
    record with alias [a] and the non-null device [d]), and the keys of the
    records never go away. While at most 2^32 different unique ids have been
    registered the index holds [a -> d] exactly when some record has alias
    [a] and the non-null device [d]. *)
Theorem alias_index_live_view c prefs store ports ops1 ops2 :
  let dm1 := run c ops1 (new_DeviceManager prefs store ports) in
  let dm2 := run c ops2 dm1 in
  (forall a d,
     m_alias_map dm2 !! a = Some d ->
     exists id, m_devices dm2 !! id = Some {| alias := a; device := Some d |}) /\
  (forall a d,
     GetDevice_alias a dm2 = Some d ->
     exists id, GetDevice id dm2 = {| alias := a; device := Some d |}) /\
  dom (m_devices dm1) ⊆ dom (m_devices dm2) /\
  (Z.of_nat (size (m_devices dm2)) <= UINT_MODULUS ->
   forall a d,
     m_alias_map dm2 !! a = Some d <->
     exists id, m_devices dm2 !! id = Some {| alias := a; device := Some d |}).
Proof.
  intros dm1 dm2.
  assert (Hentries : index_entries_active dm2).
  { unfold dm2, dm1. rewrite <- run_app. apply run_index_entries_active.
    intros a d. simpl. by rewrite lookup_empty. }
  split; [exact Hentries |]. split; [| split].
  - unfold GetDevice_alias. intros a d Had. apply Hentries in Had as [id Hid].
    exists id. by apply (GetDevice_active _ _ _ d).
  - pose proof (run_aliases_subseteq c ops2 dm1) as Hsub.
    apply subseteq_dom in Hsub. unfold aliases in Hsub.
    by rewrite !dom_fmap_L in Hsub.
  - intros Hsize.
    assert (Hinv : alias_inv dm2).
    { unfold dm2, dm1. rewrite <- run_app. apply run_alias_inv; [apply alias_inv_new |].
      rewrite run_app. done. }
    by destruct Hinv as [_ _ _ Hindex].
Qed.

(** C9, on the scenario of the spec. *)
Lemma alias_index_live_view_witness :
  let dm1 := run glibc64 scenario_before bare_manager in
  let dm2 := run glibc64 scenario_after dm1 in
  Z.of_nat (size (m_devices dm2)) <= UINT_MODULUS /\
  (m_alias_map dm2 !! 3 = Some (nth_device 3) <->
   exists id, m_devices dm2 !! id = Some {| alias := 3; device := Some (nth_device 3) |}).
Proof.
  intros dm1 dm2.
  assert (Hsize : Z.of_nat (size (m_devices dm2)) <= UINT_MODULUS)
    by (vm_compute; discriminate).
  split; [exact Hsize |].
  exact (proj2 (proj2 (proj2
    (alias_index_live_view glibc64 None empty_store ∅
       scenario_before scenario_after))) Hsize 3 (nth_device 3)).
Defined.

(** C9 as stated fails: after 2^32 + 1 registrations the record of "usb-0"
    is active with alias 1, but the index has another device under 1. *)
Lemma alias_index_overwritten_after_wraparound :
  let dm := run glibc64 (register_first (N.to_nat 4294967297)) bare_manager in
  m_devices dm !! "usb-0"%string
  = Some {| alias := 1; device := Some (nth_device 0) |} /\
  m_alias_map dm !! 1 = Some (nth_device 4294967296) /\
  m_alias_map dm !! 1 <> Some (nth_device 0).
Proof.
  intros dm.
  destruct (register_first_state glibc64 None empty_store ∅
              (N.to_nat 4294967297)) as (_ & Hrecords & _ & _ & Hlast).
  fold bare_manager in Hrecords, Hlast. fold dm in Hrecords, Hlast.
  assert (Hindex : m_alias_map dm !! 1 = Some (nth_device 4294967296)).
  { pose proof (Hlast (N.to_nat 4294967296) ltac:(lia)) as H.
    rewrite N2Nat.id, N_nat_Z in H. exact H. }
  split; [exact (Hrecords 0%nat ltac:(lia)) |]. split; [exact Hindex |].
  rewrite Hindex. intros [=].
Qed.

(** ** Looking a device up by its unique id (claim C6) *)

(** C6, as the code has it. [GetDevice(unique_id)] returns the stored pair
    when the record exists with a non-null device, and the pair
    [{MISSING_DEVICE_ALIAS, NULL}] otherwise, as after registering and then
    unregistering a device; and along every run in which at most 2^32 - 1
    different unique ids get registered no record has the alias 0. *)
Theorem GetDevice_by_unique_id c (dm : DeviceManager) prefs store ports ops :
  (forall id r d,
     m_devices dm !! id = Some r -> device r = Some d -> GetDevice id dm = r) /\
  (forall id,
     m_devices dm !! id = None \/
     (exists r, m_devices dm !! id = Some r /\ device r = None) ->
     GetDevice id dm = missing_device) /\
  (forall d dm1,
     RegisterDevice c (Some d) dm = (true, dm1) ->
     (UnregisterDevice_ptr (Some d) dm1).1 = true /\
     GetDevice (device_UniqueId d) (UnregisterDevice_ptr (Some d) dm1).2
     = missing_device) /\
  (let dm' := run c ops (new_DeviceManager prefs store ports) in
   Z.of_nat (size (m_devices dm')) <= UINT_MAX ->
   forall id r, m_devices dm' !! id = Some r -> alias r <> MISSING_DEVICE_ALIAS).
Proof.
  split; [| split; [| split]].
  - intros id r d. apply GetDevice_active.
  - intros id [Hnone | (r & Hr & Hdev)]; unfold GetDevice.
    + by rewrite Hnone.
    + by rewrite Hr, Hdev.
  - intros d dm1 Hreg.
    destruct (RegisterDevice_success _ _ _ _ Hreg) as (a & Hrec & _).
    assert (Hid : empty_string (device_UniqueId d) = false).
    { unfold RegisterDevice in Hreg.
      destruct (empty_string (device_UniqueId d)); [by injection Hreg |]. done. }
    unfold UnregisterDevice_ptr. rewrite Hid.
    unfold UnregisterDevice. rewrite Hrec. simpl.
    split; [done |]. unfold GetDevice. simpl. by rewrite lookup_insert_eq.
  - intros dm' Hsize id r Hr.
    assert (Hinv : alias_inv dm').
    { apply run_alias_inv; [apply alias_inv_new |].
      fold dm'. unfold UINT_MAX, UINT_MODULUS in *. lia. }
    destruct Hinv as [_ Hrange _ _].
    destruct (Hrange id (alias r)) as (i & Hi & ->).
    { by rewrite aliases_lookup, Hr. }
    unfold FIRST_DEVICE_ALIAS, UINT_MODULUS, UINT_MAX, MISSING_DEVICE_ALIAS in *.
    rewrite Z.mod_small by lia. lia.
Qed.

(** C6, on the scenario of the spec: no record has the alias 0. *)
Lemma GetDevice_by_unique_id_witness :
  let dm' := run glibc64 (scenario_before ++ scenario_after) bare_manager in
  Z.of_nat (size (m_devices dm')) <= UINT_MAX /\
  forall id r, m_devices dm' !! id = Some r -> alias r <> MISSING_DEVICE_ALIAS.
Proof.
  intros dm'.
  assert (Hsize : Z.of_nat (size (m_devices dm')) <= UINT_MAX)
    by (vm_compute; discriminate).
  split; [exact Hsize |].
  exact (proj2 (proj2 (proj2
    (GetDevice_by_unique_id glibc64 bare_manager None empty_store ∅
       (scenario_before ++ scenario_after))) ) Hsize).
Defined.

(** C6 as stated fails: after 2^32 devices with different unique ids have
    been registered, the last of them is active under the alias 0. *)
Lemma alias_zero_assigned_after_wraparound :
  let dm := run glibc64 (register_first (N.to_nat 4294967296)) bare_manager in
  GetDevice "usb-4294967295" dm
  = {| alias := 0; device := Some (nth_device 4294967295) |}.
Proof.
  intros dm.
  destruct (register_first_state glibc64 None empty_store ∅
              (N.to_nat 4294967296)) as (_ & Hrecords & _).
  fold bare_manager in Hrecords. fold dm in Hrecords.
  pose proof (Hrecords (N.to_nat 4294967295) ltac:(lia)) as Hlast.
  rewrite N2Nat.id, N_nat_Z in Hlast.
  apply (GetDevice_active _ _ _ (nth_device 4294967295)); [exact Hlast | done].
Qed.

(** ** Counting the active devices (claim C8) *)

(** C8, as the code has it. [DeviceCount()] is the number of records whose
    device pointer is not NULL, reduced modulo 2^32 (the count is an
    [unsigned int]); so it is that number whenever fewer than 2^32 devices
    are active, whatever was registered and unregistered before. *)
Theorem DeviceCount_active_records c prefs store ports ops :
  let dm := run c ops (new_DeviceManager prefs store ports) in
  DeviceCount dm = Z.of_nat (size (active_records dm)) mod UINT_MODULUS /\
  (Z.of_nat (size (active_records dm)) < UINT_MODULUS ->
   DeviceCount dm = Z.of_nat (size (active_records dm))).
Proof.
  intros dm. split; [apply DeviceCount_mod |].
  intros Hsize. rewrite DeviceCount_mod. apply Z.mod_small. lia.
Qed.

(** C8, on the scenario of the spec. *)
Lemma DeviceCount_active_records_witness :
  let dm := run glibc64 (scenario_before ++ scenario_after) bare_manager in
  Z.of_nat (size (active_records dm)) < UINT_MODULUS /\
  DeviceCount dm = Z.of_nat (size (active_records dm)).
Proof.
  intros dm.
  assert (Hsize : Z.of_nat (size (active_records dm)) < UINT_MODULUS)
    by (vm_compute; reflexivity).
  split; [exact Hsize |].
  exact (proj2
    (DeviceCount_active_records glibc64 None empty_store ∅
       (scenario_before ++ scenario_after)) Hsize).
Defined.

(** C8 as stated fails: with 2^32 devices registered and active,
    [DeviceCount()] returns 0. *)
Lemma DeviceCount_wraps_around :
  let dm := run glibc64 (register_first (N.to_nat 4294967296)) bare_manager in
  size (active_records dm) = N.to_nat 4294967296 /\ DeviceCount dm = 0.
Proof.
  intros dm.
  pose proof (register_first_all_active glibc64 None empty_store ∅ (N.to_nat 4294967296)) as Hall.
  fold bare_manager in Hall. fold dm in Hall. cbn zeta in Hall.
  split; [exact Hall |].
  rewrite DeviceCount_mod, Hall, N_nat_Z. reflexivity.
Qed.

(** ** Failing to register (claim C3) *)

(** C3. [RegisterDevice] returns false exactly when the pointer is NULL, the
    unique id is empty, or a record for the unique id exists whose device
    pointer is not NULL; and whenever it returns false the whole state is as
    before. *)
Theorem RegisterDevice_failure c dev dm :
  ((RegisterDevice c dev dm).1 = false <->
   dev = None \/
   (exists d, dev = Some d /\ device_UniqueId d = ""%string) \/
   (exists d found active,
      dev = Some d /\ m_devices dm !! device_UniqueId d = Some found /\
      device found = Some active)) /\
  ((RegisterDevice c dev dm).1 = false -> (RegisterDevice c dev dm).2 = dm).
Proof.
  destruct (RegisterDevice_outcome c dev dm)
    as [dm' -> Hwhy | d found dm' -> Hid Hfound Hdev _ _ _ _
       | d dm' -> Hid Hnone _ _ _ _]; simpl.
  - split; [| done]. split; [intros _ | done].
    destruct Hwhy as [? | [? | (d & found & ? & ? & [active ?])]]; eauto 10.
  - split; [| done]. split; [done |].
    intros [? | [(d0 & [= <-] & ?) | (d0 & f0 & active & [= <-] & ? & ?)]];
      congruence.
  - split; [| done]. split; [done |].
    intros [? | [(d0 & [= <-] & ?) | (d0 & f0 & active & [= <-] & ? & ?)]];
      congruence.
Qed.

(** ** Saving the patchings (claim C7) *)

Lemma save_port_lookup prefs dm port key :
  save_port prefs dm port !! key
  = if decide (writes_key key port)
    then IntToString <$> GetUniverse port dm
    else prefs !! key.
Proof.
  unfold save_port, writes_key, Preferences.RemoveValue, Preferences.SetValue.
  destruct (empty_string (port_UniqueId port)) eqn:Hid.
  - apply empty_string_spec in Hid. rewrite decide_False; [done |].
    intros [Hk Hne]. congruence.
  - apply empty_string_false in Hid.
    destruct (decide (port_UniqueId port = key)) as [<- | Hne].
    + rewrite decide_True by done.
      destruct (GetUniverse port dm);
        by rewrite ?lookup_insert_eq, ?lookup_delete_eq.
    + rewrite decide_False by (intros [? ?]; done).
      destruct (GetUniverse port dm);
        by rewrite ?lookup_insert_ne, ?lookup_delete_ne.
Qed.

(** The loop of [SaveDevicePortPatchings]: under every key, the last port
    that writes there decides. *)
Lemma save_loop_lookup ports prefs dm key :
  fold_left (fun p port => save_port p dm port) ports prefs !! key
  = match last (filter (writes_key key) ports) with
    | Some port => IntToString <$> GetUniverse port dm
    | None => prefs !! key
    end.
Proof.
  induction ports as [| port ports IH] using rev_ind; [done |].
  rewrite fold_left_app. cbn [fold_left]. rewrite save_port_lookup, filter_app.
  destruct (decide (writes_key key port)) as [Hw | Hw].
  - rewrite (filter_cons_True _ _ _ Hw), filter_nil, last_snoc. done.
  - rewrite (filter_cons_False _ _ _ Hw), filter_nil, app_nil_r. apply IH.
Qed.

Lemma save_loop_unique_id ports prefs dm :
  fold_left (fun p port => save_port p dm port) ports prefs
  = fold_left (fun p port => save_port p dm port) (filter has_unique_id ports) prefs.
Proof.
  revert prefs. induction ports as [| port ports IH]; intros prefs; [done |].
  destruct (decide (has_unique_id port)) as [Hid | Hid].
  - rewrite (filter_cons_True _ _ _ Hid). simpl. apply IH.
  - rewrite (filter_cons_False _ _ _ Hid). simpl. rewrite <- IH. f_equal.
    unfold save_port. unfold has_unique_id in Hid.
    destruct (empty_string (port_UniqueId port)) eqn:He; [done |].
    apply empty_string_false in He. done.
Qed.

Lemma last_writer ports port :
  port ∈ ports -> has_unique_id port ->
  (forall q, q ∈ ports -> port_UniqueId q = port_UniqueId port -> q = port) ->
  last (filter (writes_key (port_UniqueId port)) ports) = Some port.
Proof.
  intros Hin Hid Huniq.
  destruct (last (filter (writes_key (port_UniqueId port)) ports)) as [q |] eqn:Hlast.
  - assert (Hq : q ∈ filter (writes_key (port_UniqueId port)) ports)
      by (by apply last_Some_elem_of).
    apply list_elem_of_filter in Hq as [[Hkey _] Hq]. f_equal. by apply Huniq.
  - apply last_None in Hlast.
    assert (Hp : port ∈ filter (writes_key (port_UniqueId port)) ports).
    { apply list_elem_of_filter. split; [| done]. split; done. }
    rewrite Hlast in Hp. by apply elem_of_nil in Hp.
Qed.

Lemma SaveDevicePortPatchings_prefs d dm prefs :
  m_port_preferences dm = Some prefs ->
  m_port_preferences (SaveDevicePortPatchings (Some d) dm)
  = Some (fold_left (fun p port => save_port p dm port) (device_Ports d) prefs).
Proof. unfold SaveDevicePortPatchings. intros ->. done. Qed.

(** C7. With a preferences store in place, [SaveDevicePortPatchings] leaves
    under every key what the last port of the device with that (non-empty)
    unique id gives: nothing when that port has no universe, the decimal
    string of the universe's id otherwise; keys of no port stay as they were.
    So a port that alone has its unique id ends with its key removed or set;
    removing a key that is not there changes nothing; what is stored is read
    back by [strtol] in base 10; after patching, saving, unpatching and saving
    again the key is gone; and ports with an empty unique id play no part. *)
Theorem SaveDevicePortPatchings_spec c d dm prefs :
  m_port_preferences dm = Some prefs ->
  exists prefs',
    m_port_preferences (SaveDevicePortPatchings (Some d) dm) = Some prefs' /\
    (forall key,
       prefs' !! key
       = match last (filter (writes_key key) (device_Ports d)) with
         | Some port => IntToString <$> GetUniverse port dm
         | None => prefs !! key
         end) /\
    (forall port,
       port ∈ device_Ports d -> has_unique_id port ->
       (forall q, q ∈ device_Ports d -> port_UniqueId q = port_UniqueId port -> q = port) ->
       prefs' !! port_UniqueId port = IntToString <$> GetUniverse port dm /\
       forall u,
         let dm1 := SaveDevicePortPatchings (Some d) (AddPort u port dm) in
         let dm2 := SaveDevicePortPatchings (Some d) (RemovePort port dm1) in
         (exists p1, m_port_preferences dm1 = Some p1 /\
                     p1 !! port_UniqueId port = Some (IntToString u)) /\
         (exists p2, m_port_preferences dm2 = Some p2 /\
                     p2 !! port_UniqueId port = None)) /\
    (forall key (p : gmap string string),
       p !! key = None -> Preferences.RemoveValue key p = p) /\
    (forall u, INT_MIN <= u <= INT_MAX -> strtol c (IntToString u) 0 = (u, 0)) /\
    SaveDevicePortPatchings (Some d) dm
    = SaveDevicePortPatchings
        (Some (with_ports (filter has_unique_id (device_Ports d)) d)) dm.
Proof.
  intros Hprefs. eexists. split; [by apply SaveDevicePortPatchings_prefs |].
  split; [| split; [| split; [| split]]].
  - intros key. apply save_loop_lookup.
  - intros port Hin Hid Huniq. split.
    + rewrite save_loop_lookup, last_writer; done.
    + intros u dm1 dm2. split.
      * eexists. split; [by apply SaveDevicePortPatchings_prefs |].
        rewrite save_loop_lookup, last_writer by done.
        unfold GetUniverse, AddPort. simpl. by rewrite lookup_insert_eq.
      * assert (Hp1 : exists p1, m_port_preferences dm1 = Some p1)
          by (eexists; by apply SaveDevicePortPatchings_prefs).
        destruct Hp1 as [p1 Hp1].
        exists (fold_left (fun p q => save_port p (RemovePort port dm1) q)
                  (device_Ports d) p1).
        split; [by apply SaveDevicePortPatchings_prefs |].
        rewrite save_loop_lookup, last_writer by done.
        unfold GetUniverse, RemovePort. simpl. by rewrite lookup_delete_eq.
  - intros key p Hnone. unfold Preferences.RemoveValue. by apply delete_id.
  - intros u Hu. apply strtol_IntToString. by apply int_range_in_long.
  - unfold SaveDevicePortPatchings. rewrite Hprefs. simpl.
    by rewrite <- save_loop_unique_id.
Qed.

(** C7, on a device with one port, patched to universe 7: saving stores "7"
    under "portA". *)
Lemma SaveDevicePortPatchings_spec_witness :
  let dm := AddPort 7 port_A (new_DeviceManager (Some ∅) empty_store ∅) in
  m_port_preferences dm = Some ∅ /\
  exists prefs',
    m_port_preferences (SaveDevicePortPatchings (Some device_A) dm) = Some prefs' /\
    prefs' !! "portA"%string = Some "7"%string.
Proof.
  intros dm.
  assert (Hprefs : m_port_preferences dm = Some ∅) by reflexivity.
  split; [exact Hprefs |].
  destruct (SaveDevicePortPatchings_spec glibc64 device_A dm ∅ Hprefs)
    as (prefs' & Hsaved & _ & Hport & _).
  exists prefs'. split; [exact Hsaved |].
  destruct (Hport port_A) as [Hkey _].
  - apply list_elem_of_singleton. reflexivity.
  - discriminate.
  - intros q Hq _. apply list_elem_of_singleton in Hq. exact Hq.
  - exact Hkey.
Defined.

(** C7 as stated fails for a port whose unique id another port of the
    device reports too. The device has the ports A and B, both with the
    unique id "portA", B bound to universe 9. Port A is bound to universe 7
    and the device saved, then A is unbound and the device saved again: the
    key of A is still there, with the universe of B. *)
Lemma key_left_by_port_with_same_unique_id :
  let dm0 := AddPort 9 port_B (new_DeviceManager (Some ∅) empty_store ∅) in
  let dm1 := SaveDevicePortPatchings (Some twin_device) (AddPort 7 port_A dm0) in
  let dm2 := SaveDevicePortPatchings (Some twin_device) (RemovePort port_A dm1) in
  device_Ports twin_device = [port_A; port_B] /\
  port_UniqueId port_A = "portA"%string /\
  port_UniqueId port_B = "portA"%string /\
  GetUniverse port_A (AddPort 7 port_A dm0) = Some 7 /\
  GetUniverse port_A (RemovePort port_A dm1) = None /\
  exists prefs,
    m_port_preferences dm2 = Some prefs /\
    prefs !! "portA"%string = Some "9"%string.
Proof.
  intros dm0 dm1 dm2. repeat (split; [reflexivity |]).
  eexists. split; [reflexivity |]. vm_compute. reflexivity.
Qed.

(** ** Unregistering (claim C4) *)

(** C4. Both overloads of [UnregisterDevice] return false, with the state as
    before, exactly when no active record matches (for a device pointer: also
    when it is NULL or has an empty unique id). Otherwise they return true
    and, [found] being the record and [d] its device: the patchings of [d]
    are saved as they are in the state before (without a preferences store
    nothing is stored; with one, every key ends with what the last port of
    [d] with that non-empty unique id gives, the decimal string of its
    universe or nothing, and the other keys stay; so a port that alone has
    its unique id leaves the string of its universe, or no key when it is not
    bound), the alias of the record is gone from the alias index, and the
    record is still there with its alias and a NULL device; nothing else
    moves. *)
Theorem UnregisterDevice_spec dev device_id dm :
  ((UnregisterDevice device_id dm).1 = false <-> no_active_record device_id dm) /\
  ((UnregisterDevice device_id dm).1 = false -> (UnregisterDevice device_id dm).2 = dm) /\
  (forall found d,
     m_devices dm !! device_id = Some found -> device found = Some d ->
     let dm' := (UnregisterDevice device_id dm).2 in
     (UnregisterDevice device_id dm).1 = true /\
     m_port_preferences dm' = m_port_preferences (SaveDevicePortPatchings (Some d) dm) /\
     (m_port_preferences dm = None -> m_port_preferences dm' = None) /\
     (forall prefs,
        m_port_preferences dm = Some prefs ->
        exists prefs',
          m_port_preferences dm' = Some prefs' /\
          (forall key,
             prefs' !! key
             = match last (filter (writes_key key) (device_Ports d)) with
               | Some port => IntToString <$> GetUniverse port dm
               | None => prefs !! key
               end) /\
          (forall port,
             port ∈ device_Ports d -> has_unique_id port ->
             (forall q, q ∈ device_Ports d ->
                        port_UniqueId q = port_UniqueId port -> q = port) ->
             (forall u, GetUniverse port dm = Some u ->
                        prefs' !! port_UniqueId port = Some (IntToString u)) /\
             (GetUniverse port dm = None -> prefs' !! port_UniqueId port = None))) /\
     m_alias_map dm' = delete (alias found) (m_alias_map dm) /\
     m_devices dm' = <[device_id := {| alias := alias found; device := None |}]>
                       (m_devices dm) /\
     m_next_device_alias dm' = m_next_device_alias dm /\
     m_universe_store dm' = m_universe_store dm /\
     port_universe dm' = port_universe dm) /\
  ((UnregisterDevice_ptr dev dm).1 = false <->
   dev = None \/
   exists d, dev = Some d /\
     (device_UniqueId d = ""%string \/ no_active_record (device_UniqueId d) dm)) /\
  ((UnregisterDevice_ptr dev dm).1 = false -> (UnregisterDevice_ptr dev dm).2 = dm) /\
  (forall d,
     dev = Some d -> device_UniqueId d <> ""%string ->
     UnregisterDevice_ptr dev dm = UnregisterDevice (device_UniqueId d) dm).
Proof.
  assert (Hfail : forall id,
    ((UnregisterDevice id dm).1 = false <-> no_active_record id dm) /\
    ((UnregisterDevice id dm).1 = false -> (UnregisterDevice id dm).2 = dm)).
  { intros id. unfold no_active_record.
    destruct (UnregisterDevice_outcome id dm)
      as [dm' -> Hwhy | found d dm' Hfound Hdev _ _ _ _ _ _]; simpl.
    - done.
    - split; [| done]. split; [done |].
      intros [? | (f0 & ? & ?)]; congruence. }
  split; [apply Hfail |]. split; [apply Hfail |]. split; [| split; [| split]].
  - intros found d Hfound Hdev dm'. unfold dm'.
    destruct (UnregisterDevice_outcome device_id dm)
      as [dm0 -> Hwhy | f0 d0 dm0 Hf0 Hd0 Hd Hm Hn Hp Hs Hh]; simpl.
    + destruct Hwhy as [? | (f0 & ? & ?)]; congruence.
    + rewrite Hfound in Hf0. injection Hf0 as <-.
      rewrite Hdev in Hd0. injection Hd0 as <-.
      split; [done |]. split; [done |]. split; [| split; [| done]].
      * intros Hnone. rewrite Hp. unfold SaveDevicePortPatchings. by rewrite Hnone.
      * intros prefs Hprefs. rewrite Hp, (SaveDevicePortPatchings_prefs d dm prefs Hprefs).
        eexists. split; [reflexivity |].
        assert (Hkeys : forall key,
          fold_left (fun p port => save_port p dm port) (device_Ports d) prefs !! key
          = match last (filter (writes_key key) (device_Ports d)) with
            | Some port => IntToString <$> GetUniverse port dm
            | None => prefs !! key
            end) by (intros key; apply save_loop_lookup).
        split; [exact Hkeys |].
        intros port Hin Hid Huniq. rewrite Hkeys, last_writer by done.
        split; [intros u -> | intros ->]; done.
  - unfold UnregisterDevice_ptr. destruct dev as [d |]; simpl.
    2: { split; [auto | done]. }
    destruct (empty_string (device_UniqueId d)) eqn:Hid; simpl.
    + apply empty_string_spec in Hid. split; [| done]. intros _. right. eauto.
    + apply empty_string_false in Hid. rewrite (proj1 (Hfail _)). split.
      * intros ?. right. eauto.
      * intros [? | (d0 & [= <-] & [? | ?])]; done.
  - unfold UnregisterDevice_ptr. destruct dev as [d |]; simpl; [| done].
    destruct (empty_string (device_UniqueId d)); simpl; [done |]. apply Hfail.
  - intros d -> Hid. unfold UnregisterDevice_ptr.
    apply empty_string_false in Hid. by rewrite Hid.
Qed.

(** ** Restoring the patchings (claims C5, C10, C2) *)

Lemma restore_port_target c prefs dm port :
  restore_port c prefs dm port
  = match patch_target c prefs port with
    | Some id => patch id port dm
    | None => dm
    end.
Proof.
  unfold restore_port, patch_target.
  destruct (empty_string (port_UniqueId port)); [done |].
  destruct (empty_string _); [done |].
  destruct (strtol c _ 0) as [l errno]. simpl.
  destruct (_ && _); done.
Qed.

Lemma patch_target_value c prefs port v :
  port_UniqueId port <> ""%string ->
  prefs !! port_UniqueId port = Some v -> v <> ""%string ->
  (skipped_value c v -> patch_target c prefs port = None) /\
  (~ skipped_value c v ->
   patch_target c prefs port = Some (int_of_long (strtol c v 0).1)).
Proof.
  intros Hid Hv Hne. unfold patch_target, skipped_value, Preferences.GetValue.
  apply empty_string_false in Hid, Hne. rewrite Hid, Hv. simpl. rewrite Hne.
  destruct (Z.eqb_spec (int_of_long (strtol c v 0).1) 0) as [Hz | Hz];
    destruct (Z.eqb_spec (strtol c v 0).2 0) as [He | He]; simpl; split;
    try done; intros H; try (destruct H; done).
Qed.

Lemma restore_loop_requested c prefs ports dm :
  requested (m_universe_store (fold_left (restore_port c prefs) ports dm))
  = requested (m_universe_store dm) ++ omap (patch_target c prefs) ports.
Proof.
  revert dm. induction ports as [| port ports IH]; intros dm; simpl.
  - by rewrite app_nil_r.
  - rewrite IH, restore_port_target.
    destruct (patch_target c prefs port) as [id |]; simpl; [| done].
    by rewrite <- app_assoc.
Qed.

Lemma restore_loop_universes c prefs ports dm id :
  id ∈ universes (m_universe_store (fold_left (restore_port c prefs) ports dm)) <->
  id ∈ omap (patch_target c prefs) ports \/ id ∈ universes (m_universe_store dm).
Proof.
  revert dm. induction ports as [| port ports IH]; intros dm; simpl.
  - rewrite elem_of_nil. tauto.
  - rewrite IH, restore_port_target.
    destruct (patch_target c prefs port) as [id' |]; simpl; [| done].
    rewrite elem_of_cons, elem_of_union, elem_of_singleton. tauto.
Qed.

Lemma restore_loop_untouched c prefs ports dm a :
  (forall q, q ∈ ports -> port_addr q <> a) ->
  port_universe (fold_left (restore_port c prefs) ports dm) !! a
  = port_universe dm !! a.
Proof.
  revert dm. induction ports as [| port ports IH]; intros dm Hother; simpl; [done |].
  rewrite IH by (intros q Hq; apply Hother, elem_of_cons; by right).
  rewrite restore_port_target.
  destruct (patch_target c prefs port) as [id |]; simpl; [| done].
  apply lookup_insert_ne. apply Hother, elem_of_cons. by left.
Qed.

Lemma restore_loop_binding c prefs ports dm port :
  port ∈ ports ->
  (forall q, q ∈ ports -> port_addr q = port_addr port -> q = port) ->
  port_universe (fold_left (restore_port c prefs) ports dm) !! port_addr port
  = match patch_target c prefs port with
    | Some id => Some id
    | None => port_universe dm !! port_addr port
    end.
Proof.
  revert dm. induction ports as [| x ports IH]; intros dm Hin Hown.
  { by apply elem_of_nil in Hin. }
  cbn [fold_left].
  assert (Hx : port_universe (restore_port c prefs dm x) !! port_addr port
               = if decide (x = port)
                 then match patch_target c prefs port with
                      | Some id => Some id
                      | None => port_universe dm !! port_addr port
                      end
                 else port_universe dm !! port_addr port).
  { rewrite restore_port_target. destruct (decide (x = port)) as [-> | Hne].
    - destruct (patch_target c prefs port); simpl; [| done]. apply lookup_insert_eq.
    - destruct (patch_target c prefs x); simpl; [| done].
      apply lookup_insert_ne. intros Heq. apply Hne, Hown; [| done].
      apply elem_of_cons. by left. }
  destruct (decide (port ∈ ports)) as [Hin' | Hnotin].
  - rewrite IH; [| done | intros q Hq; apply Hown, elem_of_cons; by right].
    destruct (patch_target c prefs port) eqn:Ht; [done |].
    rewrite Hx. by destruct (decide (x = port)).
  - apply elem_of_cons in Hin as [-> | ?]; [| done].
    rewrite restore_loop_untouched.
    + rewrite Hx. by rewrite decide_True.
    + intros q Hq Heq. apply Hnotin.
      rewrite <- (Hown q); [done | apply elem_of_cons; by right | done].
Qed.

Lemma restore_loop_without c prefs ports dm port :
  patch_target c prefs port = None ->
  fold_left (restore_port c prefs) ports dm
  = fold_left (restore_port c prefs) (filter (fun q => q <> port) ports) dm.
Proof.
  intros Hnone. revert dm. induction ports as [| x ports IH]; intros dm; [done |].
  destruct (decide (x = port)) as [-> | Hne].
  - rewrite filter_cons_False by (intros H; by apply H).
    cbn [fold_left]. rewrite restore_port_target, Hnone. apply IH.
  - rewrite filter_cons_True by done. cbn [fold_left]. apply IH.
Qed.

Lemma Restore_loop c d dm prefs :
  m_port_preferences dm = Some prefs ->
  RestoreDevicePortPatchings c (Some d) dm
  = fold_left (restore_port c prefs) (device_Ports d) dm.
Proof. unfold RestoreDevicePortPatchings. intros ->. done. Qed.

Lemma no_digits_skipped c v :
  noconv_sets_errno c = true -> no_digits v -> skipped_value c v.
Proof.
  unfold no_digits, skipped_value, strtol. intros Hc Hv.
  destruct (read_sign (skip_spaces v)) as [negative body]. simpl in Hv.
  destruct (read_digits body 0 false) as [magnitude seen]. simpl in Hv. subst seen.
  simpl. rewrite Hc. done.
Qed.

(** What the guard [id == 0 && errno] does pass over. For a port with a
    non-empty unique id and a non-empty stored value [v], the loop of
    [RestoreDevicePortPatchings] looks at what [strtol] returns, not at
    whether [v] is a number: the port is passed over when the value converted
    to [int] is 0 and [errno] is set.
    Then the state ends as if the port were not among the device's ports, the
    port keeps the universe it had (none, if it was unpatched), and a device
    with only this port leaves the whole state, the universe store included,
    as it was. A value without digits is such a value on a C library that sets
    [errno] for it. *)
Theorem restore_passes_over_zero_with_errno c d dm prefs port v :
  m_port_preferences dm = Some prefs ->
  port ∈ device_Ports d ->
  port_UniqueId port <> ""%string ->
  prefs !! port_UniqueId port = Some v ->
  v <> ""%string ->
  let dm' := RestoreDevicePortPatchings c (Some d) dm in
  (skipped_value c v ->
   dm' = RestoreDevicePortPatchings c
           (Some (with_ports (filter (fun q => q <> port) (device_Ports d)) d)) dm /\
   ((forall q, q ∈ device_Ports d -> port_addr q = port_addr port -> q = port) ->
    GetUniverse port dm' = GetUniverse port dm) /\
   (device_Ports d = [port] -> dm' = dm)) /\
  (noconv_sets_errno c = true -> no_digits v -> skipped_value c v).
Proof.
  intros Hprefs Hin Hid Hv Hne dm'. unfold dm'. clear dm'.
  destruct (patch_target_value c prefs port v Hid Hv Hne) as [Hskip _].
  rewrite (Restore_loop c d dm prefs Hprefs).
  split; [| apply no_digits_skipped].
  intros Hs. specialize (Hskip Hs). split; [| split].
  - rewrite (Restore_loop c _ dm prefs Hprefs). simpl.
    by apply restore_loop_without.
  - intros Hown. unfold GetUniverse.
    rewrite restore_loop_binding by done. by rewrite Hskip.
  - intros ->. simpl. by rewrite restore_port_target, Hskip.
Qed.

(** On a C library that sets [errno] when there are no digits, the stored
    value "abc" is passed over and nothing changes. *)
Lemma restore_passes_over_zero_with_errno_witness :
  let dm := new_DeviceManager (Some {[ "portA"%string := "abc"%string ]}) empty_store ∅ in
  skipped_value bsd64 "abc" /\
  RestoreDevicePortPatchings bsd64 (Some device_A) dm = dm.
Proof.
  intros dm.
  assert (Hs : skipped_value bsd64 "abc") by (split; [reflexivity | discriminate]).
  split; [exact Hs |].
  refine (proj2 (proj2 (proj1
    (restore_passes_over_zero_with_errno bsd64 device_A dm
       {[ "portA"%string := "abc"%string ]} port_A "abc" eq_refl _ _ eq_refl _) Hs))
    eq_refl).
  - apply list_elem_of_singleton. reflexivity.
  - discriminate.
  - discriminate.
Defined.

(** C5 fails on the code. The loop resets [errno] and tests
    [id == 0 && errno] to pass over a value that does not parse, and misses
    it. A stored value that is no number at all, "abc", on glibc: [strtol]
    returns 0 and leaves [errno] alone, so the port is not passed over but
    bound to universe 0, which the store is asked for. And a value out of the
    range of [long] binds the port whatever the C library: [strtol] returns
    [LONG_MAX], which is not 0 as an [int]. *)
Lemma unparsable_value_is_patched :
  (let dm := new_DeviceManager (Some {[ "portA"%string := "abc"%string ]}) empty_store ∅ in
   let dm' := RestoreDevicePortPatchings glibc64 (Some device_A) dm in
   GetUniverse port_A dm = None /\
   GetUniverse port_A dm' = Some 0 /\
   requested (m_universe_store dm') = [0]) /\
  (let dm := new_DeviceManager
               (Some {[ "portA"%string := "99999999999999999999"%string ]}) empty_store ∅ in
   GetUniverse port_A (RestoreDevicePortPatchings glibc64 (Some device_A) dm) = Some (-1) /\
   GetUniverse port_A (RestoreDevicePortPatchings bsd64 (Some device_A) dm) = Some (-1) /\
   GetUniverse port_A (RestoreDevicePortPatchings glibc32 (Some device_A) dm)
   = Some 2147483647).
Proof. vm_compute. repeat split. Qed.

(** C10. A stored value of exactly "0" is not passed over: universe 0 is
    asked of the store (and so exists afterwards) and the port is bound to
    it. *)
Theorem restore_universe_zero c d dm prefs port :
  m_port_preferences dm = Some prefs ->
  port ∈ device_Ports d ->
  port_UniqueId port <> ""%string ->
  prefs !! port_UniqueId port = Some "0"%string ->
  (forall q, q ∈ device_Ports d -> port_addr q = port_addr port -> q = port) ->
  let dm' := RestoreDevicePortPatchings c (Some d) dm in
  ~ skipped_value c "0" /\
  restore_port c prefs dm port = patch 0 port dm /\
  GetUniverse port dm' = Some 0 /\
  0 ∈ universes (m_universe_store dm') /\
  exists asked,
    requested (m_universe_store dm') = requested (m_universe_store dm) ++ asked /\
    0 ∈ asked.
Proof.
  intros Hprefs Hin Hid Hv Hown dm'. unfold dm'. clear dm'.
  assert (Hs : ~ skipped_value c "0").
  { unfold skipped_value. intros [_ Herr]. apply Herr.
    unfold strtol. simpl. destruct c as [[] ?]; reflexivity. }
  assert (Hzero : int_of_long (strtol c "0" 0).1 = 0).
  { unfold strtol. simpl. destruct c as [[] ?]; reflexivity. }
  destruct (patch_target_value c prefs port "0" Hid Hv ltac:(done)) as [_ Hpatch].
  specialize (Hpatch Hs). rewrite Hzero in Hpatch.
  rewrite (Restore_loop c d dm prefs Hprefs).
  assert (Hasked : 0 ∈ omap (patch_target c prefs) (device_Ports d)).
  { apply list_elem_of_omap. exists port. done. }
  split; [done |]. split; [by rewrite restore_port_target, Hpatch |].
  split; [| split].
  - unfold GetUniverse. rewrite restore_loop_binding by done. by rewrite Hpatch.
  - apply restore_loop_universes. by left.
  - eexists. split; [apply restore_loop_requested | done].
Qed.

(** C10, with "0" stored under "portA". *)
Lemma restore_universe_zero_witness :
  let dm := new_DeviceManager (Some {[ "portA"%string := "0"%string ]}) empty_store ∅ in
  m_port_preferences dm = Some {[ "portA"%string := "0"%string ]} /\
  GetUniverse port_A (RestoreDevicePortPatchings glibc64 (Some device_A) dm) = Some 0.
Proof.
  intros dm. split; [reflexivity |].
  refine (proj1 (proj2 (proj2
    (restore_universe_zero glibc64 device_A dm {[ "portA"%string := "0"%string ]}
       port_A eq_refl _ _ eq_refl _)))).
  - apply list_elem_of_singleton. reflexivity.
  - discriminate.
  - intros q Hq _. apply list_elem_of_singleton in Hq. exact Hq.
Defined.

Lemma IntToString_not_skipped c u :
  INT_MIN <= u <= INT_MAX ->
  ~ skipped_value c (IntToString u) /\ int_of_long (strtol c (IntToString u) 0).1 = u.
Proof.
  intros Hu. unfold skipped_value.
  rewrite strtol_IntToString by (by apply int_range_in_long). simpl.
  rewrite int_of_long_id by done. split; [| done]. intros [_ ?]. done.
Qed.

(** Unregistering an active device and then registering a device object
    with the same unique id (the same object or a new one): a port of the
    first that has its unique id to itself hands its universe over to the
    port of the second with that unique id. *)
Lemma save_then_restore c d dm prefs found port u between d' port' :
  m_port_preferences dm = Some prefs ->
  device_UniqueId d <> ""%string ->
  m_devices dm !! device_UniqueId d = Some found ->
  device found = Some d ->
  port ∈ device_Ports d ->
  port_UniqueId port <> ""%string ->
  (forall q, q ∈ device_Ports d -> port_UniqueId q = port_UniqueId port -> q = port) ->
  GetUniverse port dm = Some u ->
  INT_MIN <= u <= INT_MAX ->
  device_UniqueId d' = device_UniqueId d ->
  port' ∈ device_Ports d' ->
  port_UniqueId port' = port_UniqueId port ->
  (forall q, q ∈ device_Ports d' -> port_addr q = port_addr port' -> q = port') ->
  let gone := UnregisterDevice_ptr (Some d) dm in
  let back := RegisterDevice c (Some d') (set_port_universe between gone.2) in
  gone.1 = true /\
  (exists saved,
     m_port_preferences gone.2 = Some saved /\
     saved !! port_UniqueId port = Some (IntToString u)) /\
  back.1 = true /\
  GetUniverse port' back.2 = Some u /\
  u ∈ universes (m_universe_store back.2) /\
  exists asked,
    requested (m_universe_store back.2) = requested (m_universe_store dm) ++ asked /\
    u ∈ asked.
Proof.
  intros Hprefs Hdev_id Hfound Hactive Hin Hid Hkey Hbound Hu Hsame Hin' Hid' Hown
    gone back.
  set (saved := fold_left (fun p q => save_port p dm q) (device_Ports d) prefs).
  assert (Hsaved : saved !! port_UniqueId port = Some (IntToString u)).
  { unfold saved. by rewrite save_loop_lookup, last_writer, Hbound. }
  assert (Hgone : gone =
    (true,
     set_devices (<[device_UniqueId d := {| alias := alias found; device := None |}]>
                    (m_devices dm))
       (set_alias_map (delete (alias found) (m_alias_map dm))
          (set_port_preferences (Some saved) dm)))).
  { unfold gone, UnregisterDevice_ptr, UnregisterDevice.
    apply empty_string_false in Hdev_id. rewrite Hdev_id, Hfound, Hactive.
    unfold SaveDevicePortPatchings. rewrite Hprefs. done. }
  assert (Htarget : patch_target c saved port' = Some u).
  { destruct (IntToString_not_skipped c u Hu) as [Hns Hval].
    rewrite <- Hid' in Hid, Hsaved.
    destruct (patch_target_value c saved port' (IntToString u) Hid Hsaved) as [_ Hpatch].
    { apply empty_string_false, IntToString_nonempty. }
    rewrite Hpatch by done. by rewrite Hval. }
  assert (Hback : exists dm2,
    m_port_preferences dm2 = Some saved /\
    m_universe_store dm2 = m_universe_store dm /\
    back = (true, fold_left (restore_port c saved) (device_Ports d') dm2)).
  { unfold back. rewrite Hgone. cbn [snd]. unfold RegisterDevice.
    rewrite Hsame. apply empty_string_false in Hdev_id. rewrite Hdev_id.
    cbn [m_devices set_port_universe set_devices set_alias_map set_port_preferences].
    rewrite lookup_insert_eq. cbn [device alias].
    eexists. split; [| split]; [| | unfold RestoreDevicePortPatchings; simpl; reflexivity];
      done. }
  destruct Hback as (dm2 & Hprefs2 & Hstore2 & ->). rewrite Hgone. cbn [fst snd].
  split; [done |]. split; [by exists saved |]. split; [done |].
  assert (Hasked : u ∈ omap (patch_target c saved) (device_Ports d')).
  { apply list_elem_of_omap. exists port'. done. }
  split; [| split].
  - unfold GetUniverse. rewrite restore_loop_binding by done. by rewrite Htarget.
  - apply restore_loop_universes. by left.
  - eexists. split; [| exact Hasked].
    by rewrite restore_loop_requested, Hstore2.
Qed.

(** C2. Let a device be active, with a port that has a non-empty unique id of
    its own and is bound to universe [u] (any [int], 7 say), and let the
    manager have a preferences store. Unregistering the device succeeds and
    leaves the decimal string of [u] under the port's unique id; registering
    it again succeeds, asks the universe store for [u] and binds the port to
    it, whatever became of the ports' bindings in between. *)
Theorem patching_round_trip c d dm prefs found port u between :
  m_port_preferences dm = Some prefs ->
  device_UniqueId d <> ""%string ->
  m_devices dm !! device_UniqueId d = Some found ->
  device found = Some d ->
  port ∈ device_Ports d ->
  port_UniqueId port <> ""%string ->
  (forall q, q ∈ device_Ports d ->
     port_UniqueId q = port_UniqueId port \/ port_addr q = port_addr port -> q = port) ->
  GetUniverse port dm = Some u ->
  INT_MIN <= u <= INT_MAX ->
  let gone := UnregisterDevice_ptr (Some d) dm in
  let back := RegisterDevice c (Some d) (set_port_universe between gone.2) in
  gone.1 = true /\
  (exists saved,
     m_port_preferences gone.2 = Some saved /\
     saved !! port_UniqueId port = Some (IntToString u)) /\
  back.1 = true /\
  GetUniverse port back.2 = Some u /\
  u ∈ universes (m_universe_store back.2) /\
  exists asked,
    requested (m_universe_store back.2) = requested (m_universe_store dm) ++ asked /\
    u ∈ asked.
Proof.
  intros Hprefs Hdev_id Hfound Hactive Hin Hid Hown Hbound Hu.
  apply (save_then_restore c d dm prefs found port u between d port); auto.
Qed.

(** C2, on a device with one port patched to universe 7, the port being
    unpatched while the device is away. *)
Lemma patching_round_trip_witness :
  let gone := UnregisterDevice_ptr (Some device_A) patched_manager in
  let back := RegisterDevice glibc64 (Some device_A) (RemovePort port_A gone.2) in
  GetUniverse port_A patched_manager = Some 7 /\
  GetUniverse port_A (RemovePort port_A gone.2) = None /\
  GetUniverse port_A back.2 = Some 7.
Proof.
  intros gone back.
  split; [reflexivity |]. split; [reflexivity |].
  refine (proj1 (proj2 (proj2 (proj2
    (patching_round_trip glibc64 device_A patched_manager ∅
       {| alias := 1; device := Some device_A |} port_A 7
       (delete (port_addr port_A) (port_universe gone.2))
       eq_refl _ eq_refl eq_refl _ _ _ eq_refl _))))).
  - discriminate.
  - apply list_elem_of_singleton. reflexivity.
  - discriminate.
  - intros q Hq _. apply list_elem_of_singleton in Hq. exact Hq.
  - split; discriminate.
Defined.

(** C2 as stated fails for a port whose unique id another port of the
    device reports too. The registered device has the ports A and B, both
    with the unique id "portA", A bound to universe 7 and B to universe 9.
    The device is unregistered and registered again, both with success: port
    A ends up bound to universe 9, the one saved last under the shared key. *)
Lemma round_trip_lost_by_port_with_same_unique_id :
  let gone := UnregisterDevice_ptr (Some twin_device) twin_manager in
  let back := RegisterDevice glibc64 (Some twin_device) gone.2 in
  device_Ports twin_device = [port_A; port_B] /\
  port_UniqueId port_A = "portA"%string /\
  port_UniqueId port_B = "portA"%string /\
  GetUniverse port_A twin_manager = Some 7 /\
  GetUniverse port_B twin_manager = Some 9 /\
  gone.1 = true /\
  back.1 = true /\
  GetUniverse port_A back.2 = Some 9 /\
  GetUniverse port_A back.2 <> Some 7.
Proof.
  intros gone back. repeat (split; [reflexivity |]).
  assert (Hend : GetUniverse port_A back.2 = Some 9) by (vm_compute; reflexivity).
  rewrite Hend. discriminate.
Qed.

(** ** Further properties of the manager *)

Lemma entries_sorted (m : gmap string device_alias_pair) :
  StronglySorted key_le (entries m).
Proof. apply StronglySorted_merge_sort; apply _. Qed.

Lemma Devices_loop (l : list (string * device_alias_pair)) (result : list device_alias_pair) :
  fold_left
    (fun result entry =>
       match device entry.2 with
       | Some _ => result ++ [entry.2]
       | None => result
       end) l result
  = result ++ (snd <$> filter is_active l).
Proof.
  revert result. induction l as [| [id [a dev]] l IH]; intros result.
  - simpl. by rewrite app_nil_r.
  - cbn [fold_left snd device]. destruct dev as [d |].
    + rewrite filter_cons_True by (unfold is_active; simpl; eauto).
      rewrite IH, fmap_cons, <- app_assoc. done.
    + rewrite filter_cons_False by (unfold is_active; simpl; by intros [? ?]).
      apply IH.
Qed.

(** X1. [Devices()] returns the records whose device pointer is not NULL,
    each once, in the order of their unique ids; [DeviceCount()] is the length
    of that list modulo 2^32. *)
Theorem Devices_active_in_key_order dm :
  Devices dm = snd <$> filter is_active (entries (m_devices dm)) /\
  StronglySorted key_le (entries (m_devices dm)) /\
  (forall r,
     r ∈ Devices dm <->
     exists id, m_devices dm !! id = Some r /\ is_Some (device r)) /\
  DeviceCount dm = Z.of_nat (length (Devices dm)) mod UINT_MODULUS.
Proof.
  assert (Hlist : Devices dm = snd <$> filter is_active (entries (m_devices dm))).
  { unfold Devices. by rewrite Devices_loop. }
  split; [exact Hlist |]. split; [apply entries_sorted |]. split.
  - intros r. rewrite Hlist, list_elem_of_fmap. split.
    + intros ([id r'] & -> & Hin). apply list_elem_of_filter in Hin as [Hact Hin].
      apply elem_of_entries in Hin. exists id. done.
    + intros (id & Hr & Hact). exists (id, r). split; [done |].
      apply list_elem_of_filter. split; [done | by apply elem_of_entries].
  - rewrite Hlist, length_fmap, <- active_records_size. apply DeviceCount_mod.
Qed.

(** X2. [UnregisterAllDevices] keeps every record and its alias, sets every
    device pointer to NULL and empties the alias index; the counter, the
    universe store and the ports stay as they were, and no device is counted
    afterwards. *)
Theorem UnregisterAllDevices_spec dm :
  let dm' := UnregisterAllDevices dm in
  m_devices dm' = deactivate <$> m_devices dm /\
  m_alias_map dm' = ∅ /\
  m_next_device_alias dm' = m_next_device_alias dm /\
  m_universe_store dm' = m_universe_store dm /\
  port_universe dm' = port_universe dm /\
  aliases dm' = aliases dm /\
  (forall id, GetDevice id dm' = missing_device) /\
  DeviceCount dm' = 0.
Proof.
  intros dm'. destruct (UnregisterAllDevices_frame dm) as (Hd & Hm & Hn & Hs & Hp).
  fold dm' in Hd, Hm, Hn, Hs, Hp.
  assert (Hnone : active_records dm' = ∅).
  { unfold active_records. apply map_empty. intros id.
    apply map_lookup_filter_None. right. intros r Hr [d Hdev].
    rewrite Hd, lookup_fmap in Hr.
    destruct (m_devices dm !! id); simpl in Hr; [| done].
    injection Hr as <-. done. }
  split; [done |]. split; [done |]. split; [done |].
  split; [done |]. split; [done |].
  split; [by apply aliases_deactivate_all |]. split.
  - intros id. unfold GetDevice. rewrite Hd, lookup_fmap.
    by destruct (m_devices dm !! id).
  - rewrite DeviceCount_mod, Hnone, map_size_empty. done.
Qed.

(** A run to try the calls on: "usb-1" and "usb-2" register in that order
    and get the aliases 1 and 2; while "usb-1" is unregistered it is reported
    missing; registered again it has alias 1; the new device "usb-3" gets
    alias 3; three devices are active in the end. *)
Example alias_scenario :
  let dm1 := run glibc64 scenario_before bare_manager in
  let gone := step glibc64 dm1 (UnregisterPtr (Some (nth_device 1))) in
  let dm2 := run glibc64 scenario_after dm1 in
  GetDevice "usb-1" dm1 = {| alias := 1; device := Some (nth_device 1) |} /\
  GetDevice "usb-2" dm1 = {| alias := 2; device := Some (nth_device 2) |} /\
  GetDevice "usb-1" gone = missing_device /\
  DeviceCount gone = 1 /\
  GetDevice "usb-1" dm2 = {| alias := 1; device := Some (nth_device 1) |} /\
  GetDevice "usb-3" dm2 = {| alias := 3; device := Some (nth_device 3) |} /\
  GetDevice_alias 3 dm2 = Some (nth_device 3) /\
  DeviceCount dm2 = 3.
Proof. vm_compute. repeat split. Qed.

(** Another: with "5" stored under "portA", registering a device with a port
    whose unique id is "portA" succeeds, asks the universe store for universe
    5 and leaves the port bound to it. *)
Example restore_stored_patch :
  let dm := new_DeviceManager (Some {[ "portA"%string := "5"%string ]}) empty_store ∅ in
  let registered := RegisterDevice glibc64 (Some device_A) dm in
  registered.1 = true /\
  GetUniverse port_A registered.2 = Some 5 /\
  requested (m_universe_store registered.2) = [5] /\
  5 ∈ universes (m_universe_store registered.2).
Proof. vm_compute. repeat split. Qed.

(** X3. A stored value that is not passed over (converted to [int] it is not
    0, or [errno] is not set): the universe [(int) strtol(v)] is asked of the
    store, exists afterwards, and the port is bound to it. *)
Theorem restore_binds_converted_value c d dm prefs port v :
  m_port_preferences dm = Some prefs ->
  port ∈ device_Ports d ->
  port_UniqueId port <> ""%string ->
  prefs !! port_UniqueId port = Some v ->
  v <> ""%string ->
  ~ skipped_value c v ->
  (forall q, q ∈ device_Ports d -> port_addr q = port_addr port -> q = port) ->
  let id := int_of_long (strtol c v 0).1 in
  let dm' := RestoreDevicePortPatchings c (Some d) dm in
  GetUniverse port dm' = Some id /\
  id ∈ universes (m_universe_store dm') /\
  exists asked,
    requested (m_universe_store dm') = requested (m_universe_store dm) ++ asked /\
    id ∈ asked.
Proof.
  intros Hprefs Hin Hid Hv Hne Hs Hown id dm'. unfold dm', id. clear dm' id.
  destruct (patch_target_value c prefs port v Hid Hv Hne) as [_ Hpatch].
  specialize (Hpatch Hs).
  rewrite (Restore_loop c d dm prefs Hprefs).
  assert (Hasked : int_of_long (strtol c v 0).1
                   ∈ omap (patch_target c prefs) (device_Ports d)).
  { apply list_elem_of_omap. exists port. done. }
  split; [| split].
  - unfold GetUniverse. rewrite restore_loop_binding by done. by rewrite Hpatch.
  - apply restore_loop_universes. by left.
  - eexists. split; [apply restore_loop_requested | done].
Qed.

(** X3, on the stored value "7seven": [strtol] reads 7. *)
Lemma restore_binds_converted_value_witness :
  let dm := new_DeviceManager (Some {[ "portA"%string := "7seven"%string ]}) empty_store ∅ in
  ~ skipped_value glibc64 "7seven" /\
  GetUniverse port_A (RestoreDevicePortPatchings glibc64 (Some device_A) dm) = Some 7.
Proof.
  intros dm.
  assert (Hs : ~ skipped_value glibc64 "7seven") by (intros [H _]; discriminate H).
  split; [exact Hs |].
  refine (proj1
    (restore_binds_converted_value glibc64 device_A dm
       {[ "portA"%string := "7seven"%string ]} port_A "7seven"
       eq_refl _ _ eq_refl _ Hs _)).
  - apply list_elem_of_singleton. reflexivity.
  - discriminate.
  - discriminate.
  - intros q Hq _. apply list_elem_of_singleton in Hq. exact Hq.
Defined.

(** X4. The patch follows the unique ids, not the objects. Let the manager
    have a preferences store and let a port of an active device be bound to
    the [int] universe [u], with a non-empty unique id that no other port of
    that device has. When the device is unregistered and a device object with
    the same unique id is registered (a new one, say, built when the hardware
    comes back), the record gets its old alias and the port of the new object
    with that unique id ends up bound to [u], asked of the universe store. *)
Theorem patching_follows_unique_id c d dm prefs found port u between d' port' :
  m_port_preferences dm = Some prefs ->
  device_UniqueId d <> ""%string ->
  m_devices dm !! device_UniqueId d = Some found ->
  device found = Some d ->
  port ∈ device_Ports d ->
  port_UniqueId port <> ""%string ->
  (forall q, q ∈ device_Ports d -> port_UniqueId q = port_UniqueId port -> q = port) ->
  GetUniverse port dm = Some u ->
  INT_MIN <= u <= INT_MAX ->
  device_UniqueId d' = device_UniqueId d ->
  port' ∈ device_Ports d' ->
  port_UniqueId port' = port_UniqueId port ->
  (forall q, q ∈ device_Ports d' -> port_addr q = port_addr port' -> q = port') ->
  let gone := UnregisterDevice_ptr (Some d) dm in
  let back := RegisterDevice c (Some d') (set_port_universe between gone.2) in
  gone.1 = true /\
  back.1 = true /\
  GetDevice (device_UniqueId d) back.2 = {| alias := alias found; device := Some d' |} /\
  GetUniverse port' back.2 = Some u /\
  exists asked,
    requested (m_universe_store back.2) = requested (m_universe_store dm) ++ asked /\
    u ∈ asked.
Proof.
  intros Hprefs Hdev_id Hfound Hactive Hin Hid Hkey Hbound Hu Hsame Hin' Hid' Hown
    gone back.
  destruct (save_then_restore c d dm prefs found port u between d' port')
    as (Hgone & _ & Hback & Hport & _ & Hasked); try done.
  fold gone in Hgone. fold back in Hback, Hport, Hasked.
  split; [done |]. split; [done |]. split; [| split; done].
  destruct (RegisterDevice_success c d' (set_port_universe between gone.2) back.2)
    as (a & Hrec & Hwhere).
  { rewrite <- Hback. apply surjective_pairing. }
  rewrite Hsame in Hrec, Hwhere.
  rewrite (GetDevice_active _ _ _ d' Hrec eq_refl). f_equal.
  assert (Hleft : m_devices (set_port_universe between gone.2) !! device_UniqueId d
                  = Some (deactivate found)).
  { unfold gone, UnregisterDevice_ptr, UnregisterDevice.
    apply empty_string_false in Hdev_id. rewrite Hdev_id, Hfound, Hactive. simpl.
    by rewrite lookup_insert_eq. }
  destruct Hwhere as [(f0 & Hf0 & _ & ->) | (Hnone & _)]; [| congruence].
  rewrite Hleft in Hf0. by injection Hf0 as <-.
Qed.

(** X4, on a second device object with the unique id of the first. *)
Lemma patching_follows_unique_id_witness :
  let gone := UnregisterDevice_ptr (Some device_A) patched_manager in
  let back := RegisterDevice glibc64 (Some device_B) gone.2 in
  GetUniverse port_A patched_manager = Some 7 /\
  GetUniverse port_B gone.2 = None /\
  GetUniverse port_B back.2 = Some 7.
Proof.
  intros gone back.
  split; [reflexivity |]. split; [reflexivity |].
  refine (proj1 (proj2 (proj2 (proj2
    (patching_follows_unique_id glibc64 device_A patched_manager ∅
       {| alias := 1; device := Some device_A |} port_A 7
       (port_universe gone.2) device_B port_B
       eq_refl _ eq_refl eq_refl _ _ _ eq_refl _ eq_refl _ eq_refl _))))).
  - discriminate.
  - apply list_elem_of_singleton. reflexivity.
  - discriminate.
  - intros q Hq _. apply list_elem_of_singleton in Hq. exact Hq.
  - split; discriminate.
  - apply list_elem_of_singleton. reflexivity.
  - intros q Hq _. apply list_elem_of_singleton in Hq. exact Hq.
Defined.

(** ** How the calls compose *)

Lemma RegisterDevice_installed c d dm dm1 :
  RegisterDevice c (Some d) dm = (true, dm1) ->
  device_UniqueId d <> ""%string /\
  exists a,
    m_devices dm1 = <[device_UniqueId d := {| alias := a; device := Some d |}]> (m_devices dm) /\
    m_alias_map dm1 = <[a := d]> (m_alias_map dm) /\
    m_port_preferences dm1 = m_port_preferences dm /\
    (forall found, m_devices dm !! device_UniqueId d = Some found ->
                   device found = None /\ alias found = a) /\
    (m_devices dm !! device_UniqueId d = None ->
     a = m_next_device_alias dm /\
     m_next_device_alias dm1 = uint_incr (m_next_device_alias dm)) /\
    (is_Some (m_devices dm !! device_UniqueId d) ->
     m_next_device_alias dm1 = m_next_device_alias dm).
Proof.
  intros Hreg. pose proof (RegisterDevice_outcome c (Some d) dm) as Hout.
  rewrite Hreg in Hout.
  inversion Hout as [| d0 found dm0 Hd0 Hid Hfound Hdev Hd Hm Hn Hp
                     | d0 dm0 Hd0 Hid Hnone Hd Hm Hn Hp]; subst; injection Hd0 as <-.
  - split; [done |]. exists (alias found).
    split; [done |]. split; [done |]. split; [done |]. split; [| split].
    + intros f Hf. rewrite Hfound in Hf. by injection Hf as <-.
    + congruence.
    + done.
  - split; [done |]. exists (m_next_device_alias dm).
    split; [done |]. split; [done |]. split; [done |]. split; [| split].
    + congruence.
    + done.
    + intros [? ?]. congruence.
Qed.

Lemma UnregisterDevice_done device_id dm found d :
  m_devices dm !! device_id = Some found -> device found = Some d ->
  exists dm1,
    UnregisterDevice device_id dm = (true, dm1) /\
    m_devices dm1 = <[device_id := deactivate found]> (m_devices dm) /\
    m_alias_map dm1 = delete (alias found) (m_alias_map dm) /\
    m_next_device_alias dm1 = m_next_device_alias dm /\
    m_universe_store dm1 = m_universe_store dm /\
    port_universe dm1 = port_universe dm.
Proof.
  intros Hfound Hdev. unfold UnregisterDevice. rewrite Hfound, Hdev.
  eexists. split; [reflexivity |]. simpl.
  pose proof (Save_frame (Some d) dm) as (-> & -> & -> & -> & ->). done.
Qed.

(** X5. In any state in which the record of a unique id holds a device
    (the device is registered), registering any device object with that
    unique id is refused and changes nothing, and [GetDevice(unique_id)]
    returns the record. Unregistering the unique id then succeeds, once (and
    so does the pointer overload on any device object with that unique id,
    which is then not empty); after it the unique id is reported missing and
    unregistering again, by unique id or by pointer, is refused and changes
    nothing. *)
Theorem registration_is_exclusive c id found active d' dm :
  m_devices dm !! id = Some found ->
  device found = Some active ->
  device_UniqueId d' = id ->
  RegisterDevice c (Some d') dm = (false, dm) /\
  GetDevice id dm = found /\
  exists dm2,
    UnregisterDevice id dm = (true, dm2) /\
    (id <> ""%string -> UnregisterDevice_ptr (Some d') dm = (true, dm2)) /\
    GetDevice id dm2 = missing_device /\
    UnregisterDevice id dm2 = (false, dm2) /\
    UnregisterDevice_ptr (Some d') dm2 = (false, dm2).
Proof.
  intros Hfound Hactive Hsame.
  split; [| split].
  - unfold RegisterDevice. rewrite Hsame.
    destruct (empty_string id); [done |]. by rewrite Hfound, Hactive.
  - by apply (GetDevice_active _ _ _ active).
  - destruct (UnregisterDevice_done _ _ _ _ Hfound Hactive) as (dm2 & Hun & Hd2 & _).
    exists dm2.
    assert (Hagain : UnregisterDevice id dm2 = (false, dm2)).
    { unfold UnregisterDevice. by rewrite Hd2, lookup_insert_eq. }
    split; [done |]. split; [| split; [| split; [done |]]].
    + intros Hid. apply empty_string_false in Hid.
      unfold UnregisterDevice_ptr. by rewrite Hsame, Hid.
    + unfold GetDevice. by rewrite Hd2, lookup_insert_eq.
    + unfold UnregisterDevice_ptr. rewrite Hsame.
      by destruct (empty_string id).
Qed.

(** X5, in a state reached by two registrations, on a second device object
    with the unique id of the first device. *)
Lemma registration_is_exclusive_witness :
  let dm := run glibc64 scenario_before bare_manager in
  let twin := with_ports [port_A] (nth_device 1) in
  m_devices dm !! "usb-1"%string = Some {| alias := 1; device := Some (nth_device 1) |} /\
  device_UniqueId twin = "usb-1"%string /\
  RegisterDevice glibc64 (Some twin) dm = (false, dm).
Proof.
  intros dm twin.
  assert (Hrec : m_devices dm !! "usb-1"%string
                 = Some {| alias := 1; device := Some (nth_device 1) |})
    by (vm_compute; reflexivity).
  assert (Hid : device_UniqueId twin = "usb-1"%string) by (vm_compute; reflexivity).
  split; [exact Hrec |]. split; [exact Hid |].
  exact (proj1 (registration_is_exclusive glibc64 "usb-1"
                  {| alias := 1; device := Some (nth_device 1) |} (nth_device 1)
                  twin dm Hrec eq_refl Hid)).
Defined.

Lemma active_records_activate (m : gmap string device_alias_pair) id a d :
  (forall found, m !! id = Some found -> device found = None) ->
  size (filter is_active (<[id := {| alias := a; device := Some d |}]> m))
  = S (size (filter is_active m)).
Proof.
  intros Hinactive.
  rewrite map_filter_insert_True by (unfold is_active; simpl; eauto).
  apply map_size_insert_None. apply map_lookup_filter_None.
  destruct (m !! id) as [found |] eqn:Hfound; [right | by left].
  intros r [= <-] [d0 Hd0]. simpl in Hd0. rewrite (Hinactive found) in Hd0; done.
Qed.

Lemma active_records_deactivate (m : gmap string device_alias_pair) id found d :
  m !! id = Some found -> device found = Some d ->
  size (filter is_active m)
  = S (size (filter is_active (<[id := deactivate found]> m))).
Proof.
  intros Hfound Hdev.
  rewrite map_filter_insert_False by (unfold is_active; simpl; by intros [? ?]).
  rewrite map_filter_delete.
  assert (Hin : filter is_active m !! id = Some found).
  { apply map_lookup_filter_Some. split; [done |]. unfold is_active. simpl. eauto. }
  rewrite map_size_delete_Some by eauto.
  assert (size (filter is_active m) <> 0%nat).
  { intros Hz. apply map_size_empty_iff in Hz. by rewrite Hz, lookup_empty in Hin. }
  lia.
Qed.

Lemma uint_incr_mod n : uint_incr (n mod UINT_MODULUS) = (n + 1) mod UINT_MODULUS.
Proof. unfold uint_incr. apply Z.add_mod_idemp_l. unfold UINT_MODULUS. lia. Qed.

(** X6. How the calls move the number of active devices: a successful
    [RegisterDevice] adds one active record, a successful [UnregisterDevice]
    (either overload) takes one away, and [DeviceCount()] follows, as an
    [unsigned int]; a call of these that fails leaves the count as it was;
    and [UnregisterAllDevices] leaves no active record, so a count of 0. *)
Theorem DeviceCount_follows_calls c dev device_id dm :
  ((RegisterDevice c dev dm).1 = true ->
   size (active_records (RegisterDevice c dev dm).2) = S (size (active_records dm)) /\
   DeviceCount (RegisterDevice c dev dm).2 = uint_incr (DeviceCount dm)) /\
  ((RegisterDevice c dev dm).1 = false ->
   DeviceCount (RegisterDevice c dev dm).2 = DeviceCount dm) /\
  ((UnregisterDevice device_id dm).1 = true ->
   size (active_records dm) = S (size (active_records (UnregisterDevice device_id dm).2)) /\
   DeviceCount dm = uint_incr (DeviceCount (UnregisterDevice device_id dm).2)) /\
  ((UnregisterDevice device_id dm).1 = false ->
   DeviceCount (UnregisterDevice device_id dm).2 = DeviceCount dm) /\
  ((UnregisterDevice_ptr dev dm).1 = true ->
   size (active_records dm) = S (size (active_records (UnregisterDevice_ptr dev dm).2)) /\
   DeviceCount dm = uint_incr (DeviceCount (UnregisterDevice_ptr dev dm).2)) /\
  ((UnregisterDevice_ptr dev dm).1 = false ->
   DeviceCount (UnregisterDevice_ptr dev dm).2 = DeviceCount dm) /\
  size (active_records (UnregisterAllDevices dm)) = 0%nat /\
  DeviceCount (UnregisterAllDevices dm) = 0.
Proof.
  assert (Hun : forall id,
    ((UnregisterDevice id dm).1 = true ->
     size (active_records dm) = S (size (active_records (UnregisterDevice id dm).2)) /\
     DeviceCount dm = uint_incr (DeviceCount (UnregisterDevice id dm).2)) /\
    ((UnregisterDevice id dm).1 = false ->
     DeviceCount (UnregisterDevice id dm).2 = DeviceCount dm)).
  { intros id.
    destruct (UnregisterDevice_outcome id dm)
      as [dm0 -> _ | found d dm0 Hfound Hdev Hd _ _ _ _ _]; simpl; [done |].
    split; [intros _ | done].
    assert (Hsize : size (active_records dm) = S (size (active_records dm0))).
    { unfold active_records. rewrite Hd. by eapply active_records_deactivate. }
    split; [done |]. rewrite !DeviceCount_mod, uint_incr_mod, Hsize. f_equal. lia. }
  assert (Hnone : active_records (UnregisterAllDevices dm) = ∅).
  { destruct (UnregisterAllDevices_frame dm) as (Hd & _).
    unfold active_records. apply map_empty. intros id.
    apply map_lookup_filter_None. right. intros r Hr [d Hdev].
    rewrite Hd, lookup_fmap in Hr.
    destruct (m_devices dm !! id); simpl in Hr; [| done].
    injection Hr as <-. done. }
  split; [| split; [| split; [apply Hun | split; [apply Hun | split; [| split; [| split]]]]]].
  - intros Hok. destruct (RegisterDevice c dev dm) as [ok dm1] eqn:Hreg.
    simpl in *. subst ok. destruct dev as [d |]; [| by injection Hreg].
    destruct (RegisterDevice_installed _ _ _ _ Hreg) as (_ & a & Hd & _ & _ & Hfound & _).
    assert (Hsize : size (active_records dm1) = S (size (active_records dm))).
    { unfold active_records. rewrite Hd. apply active_records_activate.
      intros found Hf. by destruct (Hfound found Hf). }
    split; [done |]. rewrite !DeviceCount_mod, uint_incr_mod, Hsize. f_equal. lia.
  - destruct (RegisterDevice_outcome c dev dm) as [dm0 -> _ | |]; by simpl.
  - unfold UnregisterDevice_ptr. destruct dev as [d |]; [| done].
    destruct (empty_string _); [done |]. apply Hun.
  - unfold UnregisterDevice_ptr. destruct dev as [d |]; [| done].
    destruct (empty_string _); [done |]. apply Hun.
  - by rewrite Hnone, map_size_empty.
  - by rewrite DeviceCount_mod, Hnone, map_size_empty.
Qed.

(** X7. A successful registration in any state, wrapped counter or not: the
    alias that [GetDevice(unique_id)] reports leads back to the device through
    [GetDevice(alias)]; the lookups of every other unique id and of every
    other alias answer as before. After unregistering the device its alias
    leads nowhere, the other lookups still answer as before the registration,
    and the record is left behind with its alias; if the unique id was known
    already, the records and the counter are exactly those from before the
    registration. *)
Theorem register_then_unregister c d dm dm1 :
  RegisterDevice c (Some d) dm = (true, dm1) ->
  let id := device_UniqueId d in
  let a := alias (GetDevice id dm1) in
  let dm2 := (UnregisterDevice id dm1).2 in
  GetDevice id dm1 = {| alias := a; device := Some d |} /\
  GetDevice_alias a dm1 = Some d /\
  (forall id', id' <> id -> GetDevice id' dm1 = GetDevice id' dm) /\
  (forall a', a' <> a -> GetDevice_alias a' dm1 = GetDevice_alias a' dm) /\
  (UnregisterDevice id dm1).1 = true /\
  GetDevice_alias a dm2 = None /\
  (forall id', id' <> id -> GetDevice id' dm2 = GetDevice id' dm) /\
  (forall a', a' <> a -> GetDevice_alias a' dm2 = GetDevice_alias a' dm) /\
  m_devices dm2 = <[id := {| alias := a; device := None |}]> (m_devices dm) /\
  (is_Some (m_devices dm !! id) ->
   m_devices dm2 = m_devices dm /\ m_next_device_alias dm2 = m_next_device_alias dm).
Proof.
  intros Hreg id a dm2.
  destruct (RegisterDevice_installed _ _ _ _ Hreg)
    as (Hid & a0 & Hd & Hm & _ & Hfound & _ & Hknown).
  fold id in Hd, Hfound, Hknown.
  assert (Hrec : m_devices dm1 !! id = Some {| alias := a0; device := Some d |})
    by (by rewrite Hd, lookup_insert_eq).
  assert (Hget : GetDevice id dm1 = {| alias := a0; device := Some d |})
    by (by apply (GetDevice_active _ _ _ d)).
  assert (Ha : a = a0) by (unfold a; by rewrite Hget).
  rewrite Ha. clear a Ha.
  destruct (UnregisterDevice_done _ _ _ _ Hrec eq_refl)
    as (dm2' & Hun & Hd2 & Hm2 & Hn2 & _).
  assert (Hdm2 : dm2 = dm2') by (unfold dm2; by rewrite Hun).
  rewrite Hdm2. clear dm2 Hdm2. rewrite Hun. simpl in Hd2, Hm2.
  assert (Hrecords : m_devices dm2' = <[id := {| alias := a0; device := None |}]> (m_devices dm)).
  { rewrite Hd2, Hd. apply insert_insert_eq. }
  split; [done |]. split; [| split; [| split; [| split; [done | split; [| split; [| split; [| split]]]]]]].
  - unfold GetDevice_alias. by rewrite Hm, lookup_insert_eq.
  - intros id' Hne. unfold GetDevice. by rewrite Hd, lookup_insert_ne.
  - intros a' Hne. unfold GetDevice_alias. by rewrite Hm, lookup_insert_ne.
  - unfold GetDevice_alias. by rewrite Hm2, lookup_delete_eq.
  - intros id' Hne. unfold GetDevice. by rewrite Hrecords, lookup_insert_ne.
  - intros a' Hne. unfold GetDevice_alias.
    by rewrite Hm2, lookup_delete_ne, Hm, lookup_insert_ne.
  - done.
  - intros [found Hf]. destruct (Hfound found Hf) as [Hnull Halias].
    split; [| rewrite Hn2; apply Hknown; eauto].
    rewrite Hrecords. apply insert_id. rewrite Hf. f_equal.
    destruct found as [fa fd]. simpl in *. by subst.
Qed.

(** X7, on the first device registered with a manager. *)
Lemma register_then_unregister_witness :
  let dm := new_DeviceManager (Some ∅) empty_store ∅ in
  let dm1 := (RegisterDevice glibc64 (Some device_A) dm).2 in
  RegisterDevice glibc64 (Some device_A) dm = (true, dm1) /\
  GetDevice_alias (alias (GetDevice "usb-1" dm1)) dm1 = Some device_A.
Proof.
  intros dm dm1.
  assert (Hreg : RegisterDevice glibc64 (Some device_A) dm = (true, dm1)) by reflexivity.
  split; [exact Hreg |].
  exact (proj1 (proj2 (register_then_unregister glibc64 device_A dm dm1 Hreg))).
Defined.

Lemma save_port_bindings prefs dm dm' port :
  port_universe dm' = port_universe dm ->
  save_port prefs dm' port = save_port prefs dm port.
Proof. unfold save_port, GetUniverse. by intros ->. Qed.

Lemma save_loop_bindings ports prefs dm dm' :
  port_universe dm' = port_universe dm ->
  fold_left (fun p port => save_port p dm' port) ports prefs
  = fold_left (fun p port => save_port p dm port) ports prefs.
Proof.
  intros Hsame. revert prefs. induction ports as [| port ports IH]; intros prefs; [done |].
  simpl. by rewrite IH, (save_port_bindings _ dm dm').
Qed.

Lemma Save_unfold d dm prefs :
  m_port_preferences dm = Some prefs ->
  SaveDevicePortPatchings (Some d) dm
  = set_port_preferences
      (Some (fold_left (fun p port => save_port p dm port) (device_Ports d) prefs)) dm.
Proof. unfold SaveDevicePortPatchings. by intros ->. Qed.

Lemma Save_null dm : SaveDevicePortPatchings None dm = dm.
Proof. unfold SaveDevicePortPatchings. by destruct (m_port_preferences dm). Qed.

(** X8. Saving the patchings of a device a second time changes nothing;
    and when no port of one device has the (non-empty) unique id of a port of
    another, saving the two devices in either order gives the same state. *)
Theorem SaveDevicePortPatchings_repeated dev dev' dm :
  SaveDevicePortPatchings dev (SaveDevicePortPatchings dev dm)
  = SaveDevicePortPatchings dev dm /\
  ((forall d d' p q,
      dev = Some d -> dev' = Some d' ->
      p ∈ device_Ports d -> q ∈ device_Ports d' ->
      has_unique_id p -> port_UniqueId p <> port_UniqueId q) ->
   SaveDevicePortPatchings dev (SaveDevicePortPatchings dev' dm)
   = SaveDevicePortPatchings dev' (SaveDevicePortPatchings dev dm)).
Proof.
  destruct (m_port_preferences dm) as [prefs |] eqn:Hprefs; cycle 1.
  { assert (Hn : forall dv, SaveDevicePortPatchings dv dm = dm)
      by (intros dv; unfold SaveDevicePortPatchings; by rewrite Hprefs).
    by rewrite !Hn. }
  destruct dev as [d |]; cycle 1.
  { by rewrite !Save_null. }
  split.
  - rewrite (Save_unfold d dm prefs Hprefs).
    erewrite (Save_unfold d (set_port_preferences _ dm)) by reflexivity.
    unfold set_port_preferences. simpl. f_equal. f_equal.
    apply map_eq. intros key. rewrite !save_loop_lookup.
    by destruct (last _).
  - intros Hapart. destruct dev' as [d' |]; cycle 1.
    { by rewrite !Save_null. }
    rewrite (Save_unfold d' dm prefs Hprefs), (Save_unfold d dm prefs Hprefs).
    erewrite (Save_unfold d (set_port_preferences _ dm)) by reflexivity.
    erewrite (Save_unfold d' (set_port_preferences _ dm)) by reflexivity.
    unfold set_port_preferences. simpl. f_equal. f_equal.
    apply map_eq. intros key. rewrite !save_loop_lookup.
    destruct (last (filter (writes_key key) (device_Ports d))) as [p |] eqn:Hp;
      destruct (last (filter (writes_key key) (device_Ports d'))) as [q |] eqn:Hq;
      try done.
    apply last_Some_elem_of, list_elem_of_filter in Hp as [[Hkp Hne] Hp].
    apply last_Some_elem_of, list_elem_of_filter in Hq as [[Hkq _] Hq].
    exfalso. apply (Hapart d d' p q eq_refl eq_refl Hp Hq).
    + unfold has_unique_id. congruence.
    + congruence.
Qed.

(** ** What restoring does to the universe store and to the ports *)

Lemma int_of_long_range l : INT_MIN <= int_of_long l <= INT_MAX.
Proof.
  unfold int_of_long, INT_MIN, INT_MAX.
  pose proof (Z.mod_pos_bound (l + 2 ^ 31) (2 ^ 32) ltac:(lia)). lia.
Qed.

Lemma patch_target_range c prefs port id :
  patch_target c prefs port = Some id -> INT_MIN <= id <= INT_MAX.
Proof.
  unfold patch_target.
  destruct (empty_string (port_UniqueId port)); [done |].
  destruct (empty_string _); [done |].
  destruct (_ && _); [done |]. intros [= <-]. apply int_of_long_range.
Qed.

Lemma restore_loop_bound c prefs ports dm a :
  port_universe (fold_left (restore_port c prefs) ports dm) !! a = port_universe dm !! a \/
  exists port id,
    port ∈ ports /\ port_addr port = a /\ patch_target c prefs port = Some id /\
    port_universe (fold_left (restore_port c prefs) ports dm) !! a = Some id.
Proof.
  induction ports as [| x ports IH] using rev_ind; [by left |].
  rewrite fold_left_app. cbn [fold_left]. rewrite restore_port_target.
  destruct (patch_target c prefs x) as [id |] eqn:Hx.
  - unfold patch, AddPort. cbn [port_universe set_port_universe set_universe_store].
    destruct (decide (port_addr x = a)) as [<- | Hne].
    + right. exists x, id. rewrite lookup_insert_eq. split; [| done].
      apply elem_of_app. right. by apply list_elem_of_singleton.
    + rewrite lookup_insert_ne by done.
      destruct IH as [IH | (port & id' & Hin & ? & ? & ?)]; [by left |].
      right. exists port, id'. split; [| done]. apply elem_of_app. by left.
  - destruct IH as [IH | (port & id' & Hin & ? & ? & ?)]; [by left |].
    right. exists port, id'. split; [| done]. apply elem_of_app. by left.
Qed.

(** X9. [RestoreDevicePortPatchings] only adds: the universe store
    afterwards holds the universes it held and those asked for, each of them
    an [int]; a port that was bound stays bound; a port bound afterwards is
    bound as before or to a universe that was asked for, and so is in the
    store; ports of other devices, the records, the alias index, the counter
    and the preferences are as before. *)
Theorem RestoreDevicePortPatchings_only_adds c dev dm :
  let dm' := RestoreDevicePortPatchings c dev dm in
  exists asked,
    requested (m_universe_store dm') = requested (m_universe_store dm) ++ asked /\
    (forall id, id ∈ universes (m_universe_store dm') <->
                id ∈ asked \/ id ∈ universes (m_universe_store dm)) /\
    (forall id, id ∈ asked -> INT_MIN <= id <= INT_MAX) /\
    (forall a u, port_universe dm !! a = Some u -> is_Some (port_universe dm' !! a)) /\
    (forall a u, port_universe dm' !! a = Some u ->
       port_universe dm !! a = Some u \/ u ∈ asked) /\
    (forall a, (forall d q, dev = Some d -> q ∈ device_Ports d -> port_addr q <> a) ->
       port_universe dm' !! a = port_universe dm !! a) /\
    m_devices dm' = m_devices dm /\
    m_alias_map dm' = m_alias_map dm /\
    m_next_device_alias dm' = m_next_device_alias dm /\
    m_port_preferences dm' = m_port_preferences dm.
Proof.
  intros dm'. pose proof (Restore_frame c dev dm) as (Hd & Hm & Hn & Hp).
  fold dm' in Hd, Hm, Hn, Hp.
  assert (Hidle : dm' = dm ->
    exists asked,
      requested (m_universe_store dm') = requested (m_universe_store dm) ++ asked /\
      (forall id, id ∈ universes (m_universe_store dm') <->
                  id ∈ asked \/ id ∈ universes (m_universe_store dm)) /\
      (forall id, id ∈ asked -> INT_MIN <= id <= INT_MAX) /\
      (forall a u, port_universe dm !! a = Some u -> is_Some (port_universe dm' !! a)) /\
      (forall a u, port_universe dm' !! a = Some u ->
         port_universe dm !! a = Some u \/ u ∈ asked) /\
      (forall a, (forall d q, dev = Some d -> q ∈ device_Ports d -> port_addr q <> a) ->
         port_universe dm' !! a = port_universe dm !! a) /\
      m_devices dm' = m_devices dm /\
      m_alias_map dm' = m_alias_map dm /\
      m_next_device_alias dm' = m_next_device_alias dm /\
      m_port_preferences dm' = m_port_preferences dm).
  { intros ->. exists []. rewrite app_nil_r. split; [done |]. split.
    { intros id. rewrite elem_of_nil. tauto. }
    split; [by intros id ?%elem_of_nil |]. split; [eauto |]. split; [eauto |]. done. }
  destruct (m_port_preferences dm) as [prefs |] eqn:Hprefs; cycle 1.
  { apply Hidle. unfold dm', RestoreDevicePortPatchings. by rewrite Hprefs. }
  destruct dev as [d |]; cycle 1.
  { apply Hidle. unfold dm', RestoreDevicePortPatchings. by rewrite Hprefs. }
  clear Hidle. unfold dm' in *. rewrite (Restore_loop c d dm prefs Hprefs) in *.
  exists (omap (patch_target c prefs) (device_Ports d)).
  split; [apply restore_loop_requested |].
  split; [apply restore_loop_universes |]. split; [| split; [| split; [| split]]].
  - intros id (port & _ & Ht)%list_elem_of_omap. by eapply patch_target_range.
  - intros a u Hbound.
    destruct (restore_loop_bound c prefs (device_Ports d) dm a)
      as [-> | (port & id & _ & _ & _ & ->)]; eauto.
  - intros a u Hbound.
    destruct (restore_loop_bound c prefs (device_Ports d) dm a)
      as [Hsame | (port & id & Hin & _ & Ht & Hnew)].
    + left. by rewrite <- Hsame.
    + right. rewrite Hnew in Hbound. injection Hbound as <-.
      apply list_elem_of_omap. eauto.
  - intros a Hother. apply restore_loop_untouched.
    intros q Hq. by apply (Hother d).
  - done.
Qed.

(** Unregistering an active device and registering a device object with
    its unique id, whatever became of the ports' bindings in between: the
    second call runs the loop of [RestoreDevicePortPatchings] over what the
    first has saved. *)
Lemma unregister_then_register c d d' dm prefs found between :
  m_port_preferences dm = Some prefs ->
  device_UniqueId d <> ""%string ->
  m_devices dm !! device_UniqueId d = Some found ->
  device found = Some d ->
  device_UniqueId d' = device_UniqueId d ->
  let saved := fold_left (fun p q => save_port p dm q) (device_Ports d) prefs in
  let gone := UnregisterDevice_ptr (Some d) dm in
  let back := RegisterDevice c (Some d') (set_port_universe between gone.2) in
  gone.1 = true /\
  m_port_preferences gone.2 = Some saved /\
  exists dm2,
    port_universe dm2 = between /\
    m_universe_store dm2 = m_universe_store dm /\
    back = (true, fold_left (restore_port c saved) (device_Ports d') dm2).
Proof.
  intros Hprefs Hdev_id Hfound Hactive Hsame saved gone back.
  assert (Hgone : gone =
    (true,
     set_devices (<[device_UniqueId d := {| alias := alias found; device := None |}]>
                    (m_devices dm))
       (set_alias_map (delete (alias found) (m_alias_map dm))
          (set_port_preferences (Some saved) dm)))).
  { unfold gone, UnregisterDevice_ptr, UnregisterDevice.
    apply empty_string_false in Hdev_id. rewrite Hdev_id, Hfound, Hactive.
    unfold SaveDevicePortPatchings. rewrite Hprefs. done. }
  unfold back. rewrite Hgone. cbn [fst snd]. split; [done |]. split; [done |].
  unfold RegisterDevice.
  rewrite Hsame. apply empty_string_false in Hdev_id. rewrite Hdev_id.
  cbn [m_devices set_port_universe set_devices set_alias_map set_port_preferences].
  rewrite lookup_insert_eq. cbn [device alias].
  eexists. split; [| split]; [| | unfold RestoreDevicePortPatchings; simpl; reflexivity];
    done.
Qed.

(** X10. When every port of an active device has a unique id and an address
    of its own among the device's ports, and the ports are bound to [int]
    universes, unregistering the device and registering it again restores
    the whole patching: a port that was bound to [u] is bound to [u]; a port
    that was not bound is passed over, whatever was stored under its unique
    id before, and has the binding it got in between. So when the bindings
    were not touched in between, every port of the device is bound as
    before. *)
Theorem device_patching_round_trip c d dm prefs found between :
  m_port_preferences dm = Some prefs ->
  device_UniqueId d <> ""%string ->
  m_devices dm !! device_UniqueId d = Some found ->
  device found = Some d ->
  (forall p, p ∈ device_Ports d -> has_unique_id p) ->
  (forall p q, p ∈ device_Ports d -> q ∈ device_Ports d ->
     port_UniqueId p = port_UniqueId q \/ port_addr p = port_addr q -> p = q) ->
  (forall p u, p ∈ device_Ports d -> GetUniverse p dm = Some u -> INT_MIN <= u <= INT_MAX) ->
  let gone := UnregisterDevice_ptr (Some d) dm in
  let back := RegisterDevice c (Some d) (set_port_universe between gone.2) in
  gone.1 = true /\ back.1 = true /\
  (forall p, p ∈ device_Ports d ->
     GetUniverse p back.2
     = match GetUniverse p dm with
       | Some u => Some u
       | None => between !! port_addr p
       end) /\
  (between = port_universe dm ->
   forall p, p ∈ device_Ports d -> GetUniverse p back.2 = GetUniverse p dm).
Proof.
  intros Hprefs Hdev_id Hfound Hactive Hids Hown Hint gone back.
  destruct (unregister_then_register c d d dm prefs found between)
    as (Hgone & _ & dm2 & Hports2 & _ & Hback); try done.
  split; [done |]. unfold back, gone. rewrite Hback. cbn [fst snd]. split; [done |].
  assert (Hall : forall p, p ∈ device_Ports d ->
    GetUniverse p
      (fold_left
         (restore_port c (fold_left (fun p0 q => save_port p0 dm q) (device_Ports d) prefs))
         (device_Ports d) dm2)
    = match GetUniverse p dm with
      | Some u => Some u
      | None => between !! port_addr p
      end).
  { intros p Hp. unfold GetUniverse at 1.
    rewrite restore_loop_binding; [| done | intros q Hq Ha; symmetry; apply Hown; auto].
    assert (Hsaved :
      fold_left (fun p0 q => save_port p0 dm q) (device_Ports d) prefs !! port_UniqueId p
      = IntToString <$> GetUniverse p dm).
    { rewrite save_loop_lookup, last_writer; auto. }
    destruct (GetUniverse p dm) as [u |] eqn:Hbound; simpl in Hsaved.
    - destruct (IntToString_not_skipped c u (Hint p u Hp Hbound)) as [Hns Hval].
      destruct (patch_target_value c _ p (IntToString u) (Hids p Hp) Hsaved) as [_ Hpatch].
      { apply empty_string_false, IntToString_nonempty. }
      rewrite Hpatch by done. by rewrite Hval.
    - unfold patch_target, Preferences.GetValue.
      destruct (empty_string (port_UniqueId p)); [by rewrite Hports2 |].
      rewrite Hsaved. simpl. by rewrite Hports2. }
  split; [exact Hall |].
  intros -> p Hp. rewrite Hall by done. unfold GetUniverse.
  by destruct (port_universe dm !! port_addr p).
Qed.

(** X10, on the device with one port, bound to universe 7. *)
Lemma device_patching_round_trip_witness :
  let gone := UnregisterDevice_ptr (Some device_A) patched_manager in
  let back := RegisterDevice glibc64 (Some device_A) (set_port_universe ∅ gone.2) in
  GetUniverse port_A patched_manager = Some 7 /\
  GetUniverse port_A back.2 = Some 7.
Proof.
  intros gone back. split; [reflexivity |].
  assert (Hone : forall p, p ∈ device_Ports device_A -> p = port_A)
    by (intros p Hp; apply list_elem_of_singleton in Hp; exact Hp).
  assert (Hin : port_A ∈ device_Ports device_A)
    by (apply list_elem_of_singleton; reflexivity).
  destruct (device_patching_round_trip glibc64 device_A patched_manager
              ∅ {| alias := 1; device := Some device_A |} ∅)
    as (_ & _ & Hports & _).
  - reflexivity.
  - discriminate.
  - reflexivity.
  - reflexivity.
  - intros p Hp. rewrite (Hone p Hp). discriminate.
  - intros p q Hp Hq _. rewrite (Hone p Hp), (Hone q Hq). reflexivity.
  - intros p u Hp Hu. rewrite (Hone p Hp) in Hu. vm_compute in Hu.
    injection Hu as <-. split; discriminate.
  - exact (Hports port_A Hin).
Defined.

(** X11. Restoring and then saving brings a stored value into its decimal
    form: for a port with a unique id and an address of its own among the
    device's ports, and a stored value [v] that is not passed over, the value
    stored after [RestoreDevicePortPatchings] and [SaveDevicePortPatchings] is
    the decimal string of [(int) strtol(v)]; [strtol] reads it back without
    setting [errno], and restoring from it binds the port to the same
    universe, whatever became of the bindings in between. *)
Theorem restore_then_save c d dm prefs port v between :
  m_port_preferences dm = Some prefs ->
  port ∈ device_Ports d ->
  port_UniqueId port <> ""%string ->
  prefs !! port_UniqueId port = Some v ->
  v <> ""%string ->
  ~ skipped_value c v ->
  (forall q, q ∈ device_Ports d ->
     port_UniqueId q = port_UniqueId port \/ port_addr q = port_addr port -> q = port) ->
  let u := int_of_long (strtol c v 0).1 in
  let dm1 := SaveDevicePortPatchings (Some d) (RestoreDevicePortPatchings c (Some d) dm) in
  GetUniverse port dm1 = Some u /\
  (exists prefs1,
     m_port_preferences dm1 = Some prefs1 /\
     prefs1 !! port_UniqueId port = Some (IntToString u)) /\
  strtol c (IntToString u) 0 = (u, 0) /\
  GetUniverse port (RestoreDevicePortPatchings c (Some d) (set_port_universe between dm1))
  = Some u.
Proof.
  intros Hprefs Hin Hid Hv Hne Hs Hown u dm1.
  destruct (patch_target_value c prefs port v Hid Hv Hne) as [_ Hpatch].
  specialize (Hpatch Hs). fold u in Hpatch.
  pose proof (Restore_frame c (Some d) dm) as (_ & _ & _ & Hp).
  rewrite Hprefs in Hp.
  assert (Hbound : GetUniverse port (RestoreDevicePortPatchings c (Some d) dm) = Some u).
  { rewrite (Restore_loop c d dm prefs Hprefs). unfold GetUniverse.
    rewrite restore_loop_binding by auto. by rewrite Hpatch. }
  assert (Hu : INT_MIN <= u <= INT_MAX) by apply int_of_long_range.
  set (prefs1 := fold_left
         (fun p q => save_port p (RestoreDevicePortPatchings c (Some d) dm) q)
         (device_Ports d) prefs).
  assert (Hdm1 : dm1 = set_port_preferences (Some prefs1)
                         (RestoreDevicePortPatchings c (Some d) dm))
    by (by apply Save_unfold).
  assert (Hkey : prefs1 !! port_UniqueId port = Some (IntToString u)).
  { unfold prefs1. rewrite save_loop_lookup, last_writer by auto. by rewrite Hbound. }
  split; [by rewrite Hdm1 |]. split; [exists prefs1; by rewrite Hdm1 |].
  split; [apply strtol_IntToString; by apply int_range_in_long |].
  destruct (IntToString_not_skipped c u Hu) as [Hns Hval].
  destruct (patch_target_value c prefs1 port (IntToString u) Hid Hkey) as [_ Hpatch1].
  { apply empty_string_false, IntToString_nonempty. }
  specialize (Hpatch1 Hns). rewrite Hval in Hpatch1.
  rewrite (Restore_loop c d _ prefs1) by (by rewrite Hdm1).
  unfold GetUniverse. rewrite restore_loop_binding by auto. by rewrite Hpatch1.
Qed.

(** X11, on the stored value "7seven", which ends as "7". *)
Lemma restore_then_save_witness :
  let dm := new_DeviceManager (Some {[ "portA"%string := "7seven"%string ]}) empty_store ∅ in
  let dm1 := SaveDevicePortPatchings (Some device_A)
               (RestoreDevicePortPatchings glibc64 (Some device_A) dm) in
  ~ skipped_value glibc64 "7seven" /\
  exists prefs1,
    m_port_preferences dm1 = Some prefs1 /\ prefs1 !! "portA"%string = Some "7"%string.
Proof.
  intros dm dm1.
  assert (Hs : ~ skipped_value glibc64 "7seven") by (intros [H _]; discriminate H).
  split; [exact Hs |].
  refine (proj1 (proj2
    (restore_then_save glibc64 device_A dm
       {[ "portA"%string := "7seven"%string ]} port_A "7seven" ∅
       eq_refl _ _ eq_refl _ Hs _))).
  - apply list_elem_of_singleton. reflexivity.
  - discriminate.
  - discriminate.
  - intros q Hq _. apply list_elem_of_singleton in Hq. exact Hq.
Defined.

(** ** Where the patching is read and written *)

Lemma RegisterDevice_without_preferences c dev dm :
  m_port_preferences dm = None ->
  m_universe_store (RegisterDevice c dev dm).2 = m_universe_store dm /\
  port_universe (RegisterDevice c dev dm).2 = port_universe dm.
Proof.
  intros Hnone. unfold RegisterDevice. destruct dev as [d |]; [| done].
  destruct (empty_string _); [done |].
  destruct (m_devices dm !! device_UniqueId d) as [found |].
  - destruct (device found); [done |].
    unfold RestoreDevicePortPatchings. simpl. by rewrite Hnone.
  - unfold RestoreDevicePortPatchings. simpl. by rewrite Hnone.
Qed.

Lemma RegisterDevice_preferences c dev dm :
  m_port_preferences (RegisterDevice c dev dm).2 = m_port_preferences dm.
Proof.
  destruct (RegisterDevice_outcome c dev dm) as [dm' -> _ | |]; simpl; done.
Qed.

Lemma Save_preferences_presence dev dm :
  is_Some (m_port_preferences (SaveDevicePortPatchings dev dm))
  <-> is_Some (m_port_preferences dm).
Proof.
  unfold SaveDevicePortPatchings.
  destruct (m_port_preferences dm) as [prefs |] eqn:Hprefs, dev as [d |];
    rewrite ?Hprefs; simpl; done.
Qed.

(** The loop of [UnregisterAllDevices] saves the ports of the listed
    devices, one after the other, reading the bindings of the state it
    started in. *)
Lemma UnregisterAllDevices_loop (l : list (string * device_alias_pair)) dm dm0 :
  port_universe dm0 = port_universe dm ->
  m_port_preferences
    (fold_left
       (fun dm1 entry =>
          let dm2 := SaveDevicePortPatchings (device entry.2) dm1 in
          set_devices
            (<[entry.1 := {| alias := alias entry.2; device := None |}]> (m_devices dm2))
            dm2)
       l dm0)
  = fold_left (fun p port => save_port p dm port)
      (concat ((fun r => match device r with
                         | Some d => device_Ports d
                         | None => []
                         end) <$> (snd <$> filter is_active l)))
    <$> m_port_preferences dm0.
Proof.
  revert dm0. induction l as [| [id [a dev]] l IH]; intros dm0 Hports.
  - simpl. by destruct (m_port_preferences dm0).
  - cbn [fold_left fst snd device alias].
    pose proof (Save_frame dev dm0) as (_ & _ & _ & _ & Hp).
    rewrite IH by (simpl; congruence). cbn [m_port_preferences set_devices].
    destruct dev as [d |].
    + rewrite filter_cons_True by (unfold is_active; simpl; eauto).
      rewrite !fmap_cons. cbn [snd device concat].
      unfold SaveDevicePortPatchings.
      destruct (m_port_preferences dm0) as [prefs |] eqn:Hprefs; rewrite ?Hprefs; [| done].
      simpl. rewrite fold_left_app. f_equal. f_equal. by apply save_loop_bindings.
    + rewrite filter_cons_False by (unfold is_active; simpl; by intros [? ?]).
      by rewrite Save_null.
Qed.

Lemma UnregisterAllDevices_preferences dm :
  m_port_preferences (UnregisterAllDevices dm)
  = fold_left (fun p port => save_port p dm port) (active_ports dm)
    <$> m_port_preferences dm.
Proof.
  unfold UnregisterAllDevices. cbn [m_port_preferences set_alias_map].
  rewrite (UnregisterAllDevices_loop _ dm dm) by done.
  unfold active_ports, Devices. by rewrite Devices_loop.
Qed.

Lemma step_preferences_presence c dm op :
  is_Some (m_port_preferences (step c dm op)) <-> is_Some (m_port_preferences dm).
Proof.
  assert (Hun : forall id,
    is_Some (m_port_preferences (UnregisterDevice id dm).2)
    <-> is_Some (m_port_preferences dm)).
  { intros id. destruct (UnregisterDevice_outcome id dm)
      as [dm0 -> _ | found d dm0 _ _ _ _ _ Hp _ _]; simpl; [done |].
    rewrite Hp. apply Save_preferences_presence. }
  destruct op as [dev | id | dev |]; cbn [step].
  - by rewrite RegisterDevice_preferences.
  - apply Hun.
  - unfold UnregisterDevice_ptr. destruct dev as [d |]; [| done].
    destruct (empty_string _); [done | apply Hun].
  - rewrite UnregisterAllDevices_preferences, fmap_is_Some. done.
Qed.

Lemma step_patching c dm op :
  m_port_preferences dm = None \/ is_unregistration op ->
  m_universe_store (step c dm op) = m_universe_store dm /\
  port_universe (step c dm op) = port_universe dm.
Proof.
  intros Hwhy.
  assert (Hun : forall id,
    m_universe_store (UnregisterDevice id dm).2 = m_universe_store dm /\
    port_universe (UnregisterDevice id dm).2 = port_universe dm).
  { intros id. destruct (UnregisterDevice_outcome id dm)
      as [dm0 -> _ | found d dm0 _ _ _ _ _ _ Hs Hp]; simpl; done. }
  destruct op as [dev | id | dev |]; cbn [step].
  - destruct Hwhy as [Hnone | []]. by apply RegisterDevice_without_preferences.
  - apply Hun.
  - unfold UnregisterDevice_ptr. destruct dev as [d |]; [| done].
    destruct (empty_string _); [done | apply Hun].
  - pose proof (UnregisterAllDevices_frame dm) as (_ & _ & _ & ? & ?). done.
Qed.

(** X12. The universe store and the bindings of the ports are changed by
    [RegisterDevice] only, and only when the manager has a preferences store:
    a run without registrations, or any run of a manager built without a
    preferences factory, leaves both as they were. No call makes a
    preferences store appear or go away. *)
Theorem patching_only_on_register c ops dm :
  let dm' := run c ops dm in
  (is_Some (m_port_preferences dm') <-> is_Some (m_port_preferences dm)) /\
  (m_port_preferences dm = None \/ Forall is_unregistration ops ->
   m_universe_store dm' = m_universe_store dm /\
   port_universe dm' = port_universe dm).
Proof.
  revert dm. induction ops as [| op ops IH]; intros dm; [done |].
  cbn zeta in *. simpl. destruct (IH (step c dm op)) as [Hpresence Hsame].
  split.
  - rewrite Hpresence. apply step_preferences_presence.
  - intros Hwhy.
    assert (Hstep : m_port_preferences dm = None \/ is_unregistration op).
    { destruct Hwhy as [? | Hall]; [by left | right]. by inversion Hall. }
    destruct (step_patching c dm op Hstep) as [<- <-]. apply Hsame.
    destruct Hwhy as [Hnone | Hall]; [left | right; by inversion Hall].
    pose proof (step_preferences_presence c dm op) as Hp.
    rewrite Hnone in Hp. destruct (m_port_preferences (step c dm op)); [| done].
    destruct Hp as [Hp _]. by destruct Hp.
Qed.

Lemma elem_of_concat {A} (x : A) (ls : list (list A)) :
  x ∈ concat ls <-> exists l, x ∈ l /\ l ∈ ls.
Proof.
  induction ls as [| l0 ls IH]; simpl.
  - split; [by intros ?%elem_of_nil | by intros (l & _ & ?%elem_of_nil)].
  - rewrite elem_of_app, IH. split.
    + intros [? | (l & ? & ?)]; [exists l0 | exists l]; rewrite elem_of_cons; eauto.
    + intros (l & Hx & [-> | ?]%elem_of_cons); eauto.
Qed.

(** X13. [UnregisterAllDevices] saves the patchings of the devices of
    [Devices()], in that order, reading the bindings it started with: under
    every key it leaves what the last of all their ports with that
    (non-empty) unique id gives, and under the key of a port that alone
    among them has its unique id the decimal string of the port's universe,
    or nothing when the port is not bound. *)
Theorem UnregisterAllDevices_saves_patchings dm prefs :
  m_port_preferences dm = Some prefs ->
  exists prefs',
    m_port_preferences (UnregisterAllDevices dm) = Some prefs' /\
    (forall key,
       prefs' !! key
       = match last (filter (writes_key key) (active_ports dm)) with
         | Some port => IntToString <$> GetUniverse port dm
         | None => prefs !! key
         end) /\
    (forall port,
       port ∈ active_ports dm -> has_unique_id port ->
       (forall q, q ∈ active_ports dm -> port_UniqueId q = port_UniqueId port -> q = port) ->
       prefs' !! port_UniqueId port = IntToString <$> GetUniverse port dm) /\
    (forall port,
       port ∈ active_ports dm <->
       exists r d, r ∈ Devices dm /\ device r = Some d /\ port ∈ device_Ports d).
Proof.
  intros Hprefs. eexists. split.
  { rewrite UnregisterAllDevices_preferences, Hprefs. reflexivity. }
  split; [intros key; apply save_loop_lookup |]. split.
  - intros port Hin Hid Huniq. by rewrite save_loop_lookup, last_writer.
  - intros port. unfold active_ports. rewrite elem_of_concat. split.
    + intros (ports & Hport & (r & -> & Hr)%list_elem_of_fmap).
      destruct (device r) as [d |] eqn:Hd; [eauto | by apply elem_of_nil in Hport].
    + intros (r & d & Hr & Hd & Hport). exists (device_Ports d). split; [done |].
      apply list_elem_of_fmap. exists r. by rewrite Hd.
Qed.

(** X13, on the manager with one device, whose port is bound to universe 7. *)
Lemma UnregisterAllDevices_saves_patchings_witness :
  m_port_preferences patched_manager = Some ∅ /\
  exists prefs',
    m_port_preferences (UnregisterAllDevices patched_manager) = Some prefs' /\
    prefs' !! "portA"%string = Some "7"%string.
Proof.
  split; [reflexivity |].
  destruct (UnregisterAllDevices_saves_patchings patched_manager ∅ eq_refl)
    as (prefs' & Hsaved & _ & Hport & _).
  exists prefs'. split; [exact Hsaved |].
  assert (Hports : active_ports patched_manager = [port_A]) by (vm_compute; reflexivity).
  apply (Hport port_A).
  - rewrite Hports. apply list_elem_of_singleton. reflexivity.
  - discriminate.
  - intros q Hq _. rewrite Hports in Hq. apply list_elem_of_singleton in Hq. exact Hq.
Defined.

(** ** The records are kept under the unique ids of their devices *)

Lemma step_keyed_by_unique_id c dm op :
  keyed_by_unique_id dm -> keyed_by_unique_id (step c dm op).
Proof.
  intros [Hempty Hkey].
  assert (Hun : forall id, keyed_by_unique_id (UnregisterDevice id dm).2).
  { intros id. destruct (UnregisterDevice_outcome id dm)
      as [dm0 -> _ | found d dm0 Hfound _ Hd _ _ _ _ _]; simpl; [done |].
    split; rewrite Hd.
    - rewrite lookup_insert_ne; [done | congruence].
    - intros id' r d'. destruct (decide (id' = id)) as [-> | Hne].
      + rewrite lookup_insert_eq. by intros [= <-].
      + rewrite lookup_insert_ne by done. apply Hkey. }
  destruct op as [dev | id | dev |]; cbn [step].
  - destruct (RegisterDevice c dev dm) as [[] dm1] eqn:Hreg; cycle 1.
    { pose proof (RegisterDevice_outcome c dev dm) as Hout. rewrite Hreg in Hout.
      inversion Hout; by subst. }
    destruct dev as [d |]; [| by injection Hreg].
    destruct (RegisterDevice_installed _ _ _ _ Hreg) as (Hid & a & Hd & _).
    simpl. split; rewrite Hd.
    + by rewrite lookup_insert_ne.
    + intros id' r d'. destruct (decide (id' = device_UniqueId d)) as [-> | Hne].
      * rewrite lookup_insert_eq. intros [= <-] [= <-]. done.
      * rewrite lookup_insert_ne by done. apply Hkey.
  - apply Hun.
  - unfold UnregisterDevice_ptr. destruct dev as [d |]; [| done].
    destruct (empty_string _); [done | apply Hun].
  - pose proof (UnregisterAllDevices_frame dm) as (Hd & _). split; rewrite Hd.
    + by rewrite lookup_fmap, Hempty.
    + intros id r d. rewrite lookup_fmap.
      destruct (m_devices dm !! id); simpl; [| done]. by intros [= <-].
Qed.

Lemma run_keyed_by_unique_id c ops dm :
  keyed_by_unique_id dm -> keyed_by_unique_id (run c ops dm).
Proof.
  revert dm. induction ops as [| op ops IH]; intros dm Hkey; [done |].
  simpl. by apply IH, step_keyed_by_unique_id.
Qed.

Lemma StronglySorted_filter {A} (R : relation A) (P : A -> Prop)
    `{!forall x, Decision (P x)} (l : list A) :
  StronglySorted R l -> StronglySorted R (filter P l).
Proof.
  induction 1 as [| x l Hl IH Hx]; [constructor |].
  rewrite filter_cons. destruct (decide (P x)); [| done].
  constructor; [done |]. apply Forall_forall. intros y Hy%list_elem_of_filter.
  rewrite Forall_forall in Hx. apply Hx, Hy.
Qed.

Lemma elem_of_Devices dm r :
  r ∈ Devices dm <-> exists id, m_devices dm !! id = Some r /\ is_Some (device r).
Proof.
  unfold Devices. rewrite Devices_loop, app_nil_l, list_elem_of_fmap. split.
  - intros ([id r'] & -> & Hin). apply list_elem_of_filter in Hin as [Hact Hin].
    apply elem_of_entries in Hin. exists id. done.
  - intros (id & Hr & Hact). exists (id, r). split; [done |].
    apply list_elem_of_filter. split; [done | by apply elem_of_entries].
Qed.

Lemma active_unique_ids_keys dm :
  keyed_by_unique_id dm ->
  active_unique_ids dm = (filter is_active (entries (m_devices dm))).*1.
Proof.
  intros [_ Hkey]. unfold active_unique_ids, Devices. rewrite Devices_loop, app_nil_l.
  assert (Hl : forall l : list (string * device_alias_pair),
    (forall id r, (id, r) ∈ l -> m_devices dm !! id = Some r) ->
    omap (fun r => device_UniqueId <$> device r) (filter is_active l).*2
    = (filter is_active l).*1).
  { induction l as [| [id r] l IH]; intros Hl; [done |].
    assert (Htail : forall id0 r0, (id0, r0) ∈ l -> m_devices dm !! id0 = Some r0)
      by (intros id0 r0 Hin; apply Hl, elem_of_cons; by right).
    rewrite filter_cons. destruct (decide (is_active (id, r))) as [[d Hd] | Hno].
    - rewrite !fmap_cons. cbn [omap list_omap fst snd]. simpl in Hd.
      rewrite Hd. simpl. rewrite (Hkey id r d); [| apply Hl, elem_of_cons; by left | done].
      f_equal. by apply IH.
    - by apply IH. }
  apply Hl. intros id r. apply elem_of_entries.
Qed.

(** X14. Along every run from the initial state the records are kept under
    the unique ids of their devices, and none under the empty string: what
    [GetDevice(unique_id)] returns has that unique id; the devices of
    [Devices()] come in the order of their unique ids, no unique id twice;
    and looking up the unique id of a device of [Devices()] gives its pair
    back. *)
Theorem records_keyed_by_unique_id c prefs store ports ops :
  let dm := run c ops (new_DeviceManager prefs store ports) in
  m_devices dm !! ""%string = None /\
  (forall id r d,
     m_devices dm !! id = Some r -> device r = Some d -> device_UniqueId d = id) /\
  (forall id d, device (GetDevice id dm) = Some d -> device_UniqueId d = id) /\
  active_unique_ids dm = (filter is_active (entries (m_devices dm))).*1 /\
  StronglySorted String.le (active_unique_ids dm) /\
  NoDup (active_unique_ids dm) /\
  (forall r d,
     r ∈ Devices dm -> device r = Some d -> GetDevice (device_UniqueId d) dm = r).
Proof.
  intros dm.
  assert (Hinv : keyed_by_unique_id dm).
  { apply run_keyed_by_unique_id. split; [done |]. intros id r d.
    simpl. by rewrite lookup_empty. }
  assert (Hids : active_unique_ids dm = (filter is_active (entries (m_devices dm))).*1)
    by (by apply active_unique_ids_keys).
  destruct Hinv as [Hempty Hkey].
  split; [done |]. split; [done |]. split; [| split; [done | split; [| split]]].
  - intros id d. unfold GetDevice.
    destruct (m_devices dm !! id) as [r |] eqn:Hr; [| done].
    destruct (device r) as [d' |] eqn:Hd; [| done].
    rewrite Hd. intros [= <-]. by eapply Hkey.
  - rewrite Hids. apply (StronglySorted_fmap fst key_le String.le); [done |].
    apply StronglySorted_filter, entries_sorted.
  - rewrite Hids. eapply sublist_NoDup; [| apply fmap_sublist, sublist_filter].
    rewrite entries_Permutation. apply NoDup_fst_map_to_list.
  - intros r d (id & Hr & _)%elem_of_Devices Hd.
    rewrite (Hkey id r d Hr Hd). by apply (GetDevice_active _ _ _ d).
Qed.

(** ** The comparisons *)

Lemma strict_weak_order_by_key {A} (key : A -> Z) :
  strict_weak_order (fun x y => key x <? key y).
Proof.
  unfold strict_weak_order. repeat split; intros; lia.
Qed.

(** X15. [operator<] on the manager's pairs compares the aliases and nothing
    else; it is a strict weak ordering, under which two pairs are equivalent
    exactly when they have the same alias. Along every run from the initial
    state in which at most 2^32 unique ids get registered, it orders the
    pairs of [Devices()] totally: of two different ones, one is less than the
    other. *)
Theorem device_alias_pair_lt_orders_Devices c prefs store ports ops :
  strict_weak_order device_alias_pair_lt /\
  (forall x y,
     device_alias_pair_lt x y = false /\ device_alias_pair_lt y x = false
     <-> alias x = alias y) /\
  (let dm := run c ops (new_DeviceManager prefs store ports) in
   Z.of_nat (size (m_devices dm)) <= UINT_MODULUS ->
   forall x y,
     x ∈ Devices dm -> y ∈ Devices dm -> x <> y ->
     device_alias_pair_lt x y = true \/ device_alias_pair_lt y x = true).
Proof.
  assert (Hlt : forall x y, device_alias_pair_lt x y = (alias x <? alias y)).
  { intros x y. unfold device_alias_pair_lt. by destruct (alias x <? alias y). }
  split; [| split].
  - pose proof (strict_weak_order_by_key alias) as (? & ? & ? & ?).
    unfold strict_weak_order. setoid_rewrite Hlt. done.
  - intros x y. rewrite !Hlt. lia.
  - intros dm Hsize x y (idx & Hx & _)%elem_of_Devices (idy & Hy & _)%elem_of_Devices Hne.
    pose proof (run_alias_inv c ops _ (alias_inv_new prefs store ports) Hsize) as Hinv.
    fold dm in Hinv.
    assert (Hdiff : alias x <> alias y).
    { intros Heq. apply Hne.
      assert (idx = idy).
      { apply (inv_inj dm Hinv idx idy (alias x)); rewrite aliases_lookup.
        - by rewrite Hx.
        - rewrite Hy. simpl. by rewrite Heq. }
      subst idy. congruence. }
    rewrite !Hlt. lia.
Qed.

(** X16. lla/LlaDevice.h: [operator<] on plugins compares the ids, on
    devices the aliases, and nothing else. Both are strict weak orderings;
    two plugins are equivalent under it exactly when they have the same id,
    two devices exactly when they have the same alias, whatever their names,
    descriptions, unique ids and ports. *)
Theorem Lla_operator_lt :
  strict_weak_order LlaPlugin.lt /\
  (forall p q,
     LlaPlugin.lt p q = false /\ LlaPlugin.lt q p = false
     <-> LlaPlugin.Id p = LlaPlugin.Id q) /\
  strict_weak_order LlaDevice.lt /\
  (forall d e,
     LlaDevice.lt d e = false /\ LlaDevice.lt e d = false
     <-> LlaDevice.Alias d = LlaDevice.Alias e).
Proof.
  split; [apply (strict_weak_order_by_key LlaPlugin.m_id) |].
  split; [intros p q; unfold LlaPlugin.lt, LlaPlugin.Id; lia |].
  split; [apply (strict_weak_order_by_key LlaDevice.m_alias) |].
  intros d e. unfold LlaDevice.lt, LlaDevice.Alias. lia.
Qed.

(** ** Unregistering all devices, and unregistering them one by one *)

Lemma DeviceManager_eq (dm1 dm2 : DeviceManager) :
  m_universe_store dm1 = m_universe_store dm2 ->
  m_port_preferences dm1 = m_port_preferences dm2 ->
  m_next_device_alias dm1 = m_next_device_alias dm2 ->
  m_devices dm1 = m_devices dm2 ->
  m_alias_map dm1 = m_alias_map dm2 ->
  port_universe dm1 = port_universe dm2 ->
  dm1 = dm2.
Proof. destruct dm1, dm2. simpl. by intros -> -> -> -> -> ->. Qed.

Lemma map_step_index_keys_active dm dm' :
  index_keys_active dm -> map_step dm dm' -> index_keys_active dm'.
Proof.
  intros Hinv Hstep a d0 Ha.
  destruct Hstep as [Hd Hm _ | id found d Hfound Hdev Hd Hm _ | id d Hnone Hd Hm _
                    | id found d Hfound Hdev Hd Hm _ | Hd Hm _]; rewrite Hm in Ha.
  - rewrite Hd. exact (Hinv a d0 Ha).
  - destruct (decide (a = alias found)) as [-> | Hne].
    + exists id, {| alias := alias found; device := Some d |}.
      rewrite Hd, lookup_insert_eq. simpl. eauto.
    + rewrite lookup_insert_ne in Ha by done.
      destruct (Hinv a d0 Ha) as (id' & r & Hr & Hact & Halias).
      exists id', r. rewrite Hd, lookup_insert_ne; [done |].
      intros <-. rewrite Hfound in Hr. injection Hr as <-.
      rewrite Hdev in Hact. by destruct Hact.
  - destruct (decide (a = m_next_device_alias dm)) as [-> | Hne].
    + exists id, {| alias := m_next_device_alias dm; device := Some d |}.
      rewrite Hd, lookup_insert_eq. simpl. eauto.
    + rewrite lookup_insert_ne in Ha by done.
      destruct (Hinv a d0 Ha) as (id' & r & Hr & Hact & Halias).
      exists id', r. rewrite Hd, lookup_insert_ne; [done | congruence].
  - destruct (decide (a = alias found)) as [-> | Hne].
    { by rewrite lookup_delete_eq in Ha. }
    rewrite lookup_delete_ne in Ha by done.
    destruct (Hinv a d0 Ha) as (id' & r & Hr & Hact & Halias).
    exists id', r. rewrite Hd, lookup_insert_ne; [done | congruence].
  - by rewrite lookup_empty in Ha.
Qed.

Lemma run_index_keys_active c ops dm :
  index_keys_active dm -> index_keys_active (run c ops dm).
Proof.
  revert dm. induction ops as [| op ops IH]; intros dm Hinv; [done |].
  simpl. apply IH. eapply map_step_index_keys_active; [done | apply step_map_step].
Qed.

Lemma run_cons c op ops dm : run c (op :: ops) dm = run c ops (step c dm op).
Proof. done. Qed.

Lemma deactivate_inactive r : device r = None -> deactivate r = r.
Proof. destruct r as [a dev]. simpl. by intros ->. Qed.

(** The records after unregistering the listed unique ids. *)
Lemma unregister_each_devices c ids dm id :
  m_devices (run c (Unregister <$> ids) dm) !! id
  = if decide (id ∈ ids) then deactivate <$> m_devices dm !! id else m_devices dm !! id.
Proof.
  revert dm. induction ids as [| id0 ids IH]; intros dm.
  { rewrite fmap_nil. unfold run. cbn [fold_left].
    rewrite decide_False; [done | apply not_elem_of_nil]. }
  rewrite fmap_cons. rewrite run_cons. cbn [step].
  rewrite IH.
  assert (Hstep : m_devices (UnregisterDevice id0 dm).2 !! id
                  = if decide (id = id0) then deactivate <$> m_devices dm !! id
                    else m_devices dm !! id).
  { destruct (UnregisterDevice_outcome id0 dm)
      as [dm0 -> Hno | found d dm0 Hfound _ Hd _ _ _ _ _]; simpl.
    - destruct (decide (id = id0)) as [-> | Hne]; [| done].
      destruct Hno as [-> | (found & -> & Hdev)]; [done |].
      simpl. by rewrite deactivate_inactive.
    - rewrite Hd. destruct (decide (id = id0)) as [-> | Hne].
      + by rewrite lookup_insert_eq, Hfound.
      + by rewrite lookup_insert_ne. }
  rewrite Hstep.
  destruct (decide (id = id0)) as [-> | Hne].
  - rewrite (decide_True (P := id0 ∈ id0 :: ids)) by (apply elem_of_cons; by left).
    destruct (decide (id0 ∈ ids)); [| done].
    by destruct (m_devices dm !! id0).
  - destruct (decide (id ∈ ids)) as [Hin | Hnotin].
    + rewrite decide_True; [done | apply elem_of_cons; by right].
    + rewrite decide_False; [done |]. intros [? | ?]%elem_of_cons; done.
Qed.

(** An alias that is still in the index after unregistering the listed
    unique ids was in it before, and none of the listed records that were
    active has it. *)
Lemma unregister_each_alias_map c ids dm a d :
  m_alias_map (run c (Unregister <$> ids) dm) !! a = Some d ->
  m_alias_map dm !! a = Some d /\
  forall id r, id ∈ ids -> m_devices dm !! id = Some r -> is_Some (device r) -> alias r <> a.
Proof.
  revert dm. induction ids as [| id0 ids IH]; intros dm.
  { simpl. intros Ha. split; [done |]. by intros id r ?%elem_of_nil. }
  rewrite fmap_cons. rewrite run_cons. cbn [step].
  intros Ha. apply IH in Ha as [Ha Hrest].
  destruct (UnregisterDevice_outcome id0 dm)
    as [dm0 -> Hno | found d0 dm0 Hfound Hdev Hd Hm _ _ _ _]; simpl in *.
  - split; [done |]. intros id r [-> | Hin]%elem_of_cons Hr Hact; [| by eapply Hrest].
    destruct Hno as [Hnone | (found & Hfound & Hdev)]; [congruence |].
    rewrite Hfound in Hr. injection Hr as <-. rewrite Hdev in Hact. by destruct Hact.
  - rewrite Hm in Ha. apply lookup_delete_Some in Ha as [Hne Ha].
    split; [done |]. intros id r Hin Hr Hact.
    destruct (decide (id = id0)) as [-> | Hother].
    + rewrite Hfound in Hr. by injection Hr as <-.
    + apply elem_of_cons in Hin as [? | Hin]; [done |].
      apply (Hrest id r Hin); [| done]. by rewrite Hd, lookup_insert_ne.
Qed.

(** The preferences after unregistering, one after the other, active
    devices with different unique ids. *)
Lemma unregister_each_preferences c (l : list (string * device_alias_pair)) dm dm0 :
  port_universe dm0 = port_universe dm ->
  NoDup l.*1 ->
  (forall id r, (id, r) ∈ l -> m_devices dm0 !! id = Some r) ->
  m_port_preferences (run c (Unregister <$> (filter is_active l).*1) dm0)
  = fold_left (fun p port => save_port p dm port)
      (concat ((fun r => match device r with
                         | Some d => device_Ports d
                         | None => []
                         end) <$> (filter is_active l).*2))
    <$> m_port_preferences dm0.
Proof.
  revert dm0. induction l as [| [id r] l IH]; intros dm0 Hports Hnodup Hl.
  { simpl. by destruct (m_port_preferences dm0). }
  rewrite fmap_cons in Hnodup. apply NoDup_cons in Hnodup as [Hfresh Hnodup].
  assert (Hr : m_devices dm0 !! id = Some r) by (apply Hl, elem_of_cons; by left).
  rewrite filter_cons. destruct (decide (is_active (id, r))) as [[d Hd] | Hno].
  - simpl in Hd. rewrite !fmap_cons, run_cons. cbn [step fst snd concat].
    destruct (UnregisterDevice_done id dm0 r d Hr Hd)
      as (dm1 & Hun & Hd1 & _ & _ & _ & Hp1).
    pose proof (UnregisterDevice_outcome id dm0) as Hout. rewrite Hun in Hout.
    inversion Hout as [| found d' dm' Hfound Hdev _ _ _ Hprefs _ _]; subst.
    rewrite Hr in Hfound. injection Hfound as <-.
    rewrite Hd in Hdev. injection Hdev as <-.
    rewrite Hun. cbn [snd]. rewrite IH; [| congruence | done |]; cycle 1.
    { intros id' r' Hin. rewrite Hd1, lookup_insert_ne.
      - apply Hl, elem_of_cons. by right.
      - intros <-. apply Hfresh. apply list_elem_of_fmap. by exists (id, r'). }
    rewrite Hprefs, Hd. unfold SaveDevicePortPatchings.
    destruct (m_port_preferences dm0) as [prefs0 |] eqn:Hprefs0; simpl;
      rewrite ?Hprefs0; [| done].
    simpl. rewrite fold_left_app. f_equal. f_equal. by apply save_loop_bindings.
  - apply IH; [done | done |]. intros id' r' Hin. apply Hl, elem_of_cons. by right.
Qed.

Lemma run_unregister_frame c ids dm :
  m_universe_store (run c (Unregister <$> ids) dm) = m_universe_store dm /\
  port_universe (run c (Unregister <$> ids) dm) = port_universe dm /\
  m_next_device_alias (run c (Unregister <$> ids) dm) = m_next_device_alias dm.
Proof.
  revert dm. induction ids as [| id ids IH]; intros dm; [done |].
  rewrite fmap_cons. rewrite run_cons. cbn [step].
  destruct (IH (UnregisterDevice id dm).2) as (-> & -> & ->).
  destruct (UnregisterDevice_outcome id dm)
    as [dm0 -> _ | found d dm0 _ _ _ _ Hn _ Hs Hp]; simpl; done.
Qed.

(** X17. In every state reached from the initial one,
    [UnregisterAllDevices] does what unregistering the devices of
    [Devices()] one by one, in that order, does: the two end in the same
    state. *)
Theorem UnregisterAllDevices_one_by_one c prefs store ports ops :
  let dm := run c ops (new_DeviceManager prefs store ports) in
  UnregisterAllDevices dm = run c (Unregister <$> active_unique_ids dm) dm.
Proof.
  intros dm.
  assert (Hkeyed : keyed_by_unique_id dm).
  { apply run_keyed_by_unique_id. split; [done |]. intros id r d.
    simpl. by rewrite lookup_empty. }
  assert (Hindex : index_keys_active dm).
  { apply run_index_keys_active. intros a d. simpl. by rewrite lookup_empty. }
  assert (Hids : active_unique_ids dm = (filter is_active (entries (m_devices dm))).*1)
    by (by apply active_unique_ids_keys).
  assert (Hlisted : forall id r,
    m_devices dm !! id = Some r -> is_Some (device r) -> id ∈ active_unique_ids dm).
  { intros id r Hr Hact. rewrite Hids. apply list_elem_of_fmap. exists (id, r).
    split; [done |]. apply list_elem_of_filter. split; [done | by apply elem_of_entries]. }
  destruct (UnregisterAllDevices_frame dm) as (Hd & Hm & Hn & Hs & Hp).
  destruct (run_unregister_frame c (active_unique_ids dm) dm) as (Hs' & Hp' & Hn').
  apply DeviceManager_eq.
  - by rewrite Hs, Hs'.
  - rewrite UnregisterAllDevices_preferences, Hids.
    rewrite (unregister_each_preferences c _ dm dm); [| done | |].
    + unfold active_ports, Devices. by rewrite Devices_loop.
    + rewrite entries_Permutation. apply NoDup_fst_map_to_list.
    + intros id r. apply elem_of_entries.
  - by rewrite Hn, Hn'.
  - rewrite Hd. apply map_eq. intros id.
    rewrite unregister_each_devices, lookup_fmap.
    destruct (decide (id ∈ active_unique_ids dm)) as [Hin | Hnotin]; [done |].
    destruct (m_devices dm !! id) as [r |] eqn:Hr; [| done]. simpl. f_equal.
    apply deactivate_inactive. destruct (device r) eqn:Hdev; [| done].
    exfalso. apply Hnotin, (Hlisted id r); eauto.
  - rewrite Hm. symmetry. apply map_empty. intros a.
    destruct (m_alias_map (run c (Unregister <$> active_unique_ids dm) dm) !! a)
      as [d |] eqn:Ha; [| done].
    apply unregister_each_alias_map in Ha as [Ha Hnone].
    destruct (Hindex a d Ha) as (id & r & Hr & Hact & Halias).
    exfalso. apply (Hnone id r); eauto.
  - by rewrite Hp, Hp'.
Qed.

(** ** Shutting down and starting again *)

(** A registration that succeeds ends with [RestoreDevicePortPatchings],
    run on the preferences, the universe store and the bindings of the state
    before. *)
Lemma RegisterDevice_restores c d dm dm1 :
  RegisterDevice c (Some d) dm = (true, dm1) ->
  exists dm0,
    dm1 = RestoreDevicePortPatchings c (Some d) dm0 /\
    m_port_preferences dm0 = m_port_preferences dm /\
    m_universe_store dm0 = m_universe_store dm /\
    port_universe dm0 = port_universe dm.
Proof.
  unfold RegisterDevice. destruct (empty_string _); [done |].
  destruct (m_devices dm !! device_UniqueId d) as [found |].
  - destruct (device found); [done |]. intros [= <-]. eexists. split; [reflexivity |]. done.
  - intros [= <-]. eexists. split; [reflexivity |]. done.
Qed.

Lemma RegisterDevice_accepts c d dm :
  device_UniqueId d <> ""%string ->
  device (GetDevice (device_UniqueId d) dm) = None ->
  (RegisterDevice c (Some d) dm).1 = true.
Proof.
  intros Hid Hfree. destruct (RegisterDevice_outcome c (Some d) dm)
    as [dm' -> Hwhy | |]; [| done | done].
  exfalso. destruct Hwhy as [? | [(d0 & [= <-] & ?) | (d0 & found & [= <-] & Hfound & [a Hdev])]];
    [done | done |].
  unfold GetDevice in Hfree. rewrite Hfound, Hdev in Hfree. by rewrite Hdev in Hfree.
Qed.

(** X18. Shutting down and starting again keeps the patching. Let a port of
    a device of [Devices()] be bound to the [int] universe [u], with a unique
    id that no other port of those devices has. After [UnregisterAllDevices],
    in any state that holds the preferences it left (the same manager,
    whatever became of the bindings, or a new manager built on these
    preferences) and in which the device is not registered, registering the
    device succeeds and binds the port to [u], which the universe store then
    holds. *)
Theorem patching_survives_restart c dm prefs r d port u dm2 :
  m_port_preferences dm = Some prefs ->
  r ∈ Devices dm -> device r = Some d ->
  device_UniqueId d <> ""%string ->
  port ∈ device_Ports d ->
  has_unique_id port ->
  (forall q, q ∈ active_ports dm -> port_UniqueId q = port_UniqueId port -> q = port) ->
  (forall q, q ∈ device_Ports d -> port_addr q = port_addr port -> q = port) ->
  GetUniverse port dm = Some u ->
  INT_MIN <= u <= INT_MAX ->
  m_port_preferences dm2 = m_port_preferences (UnregisterAllDevices dm) ->
  device (GetDevice (device_UniqueId d) dm2) = None ->
  let back := RegisterDevice c (Some d) dm2 in
  back.1 = true /\
  GetUniverse port back.2 = Some u /\
  u ∈ universes (m_universe_store back.2).
Proof.
  intros Hprefs Hr Hd Hid Hport Hkey Huniq Hown Hbound Hu Hsaved Hfree back.
  assert (Hok : back.1 = true) by (by apply RegisterDevice_accepts).
  split; [done |].
  destruct (RegisterDevice_restores c d dm2 back.2) as (dm0 & -> & Hp0 & _ & _).
  { rewrite <- Hok. apply surjective_pairing. }
  rewrite Hsaved, UnregisterAllDevices_preferences, Hprefs in Hp0. simpl in Hp0.
  rewrite (Restore_loop c d dm0 _ Hp0).
  assert (Hactive : port ∈ active_ports dm).
  { unfold active_ports. apply elem_of_concat. exists (device_Ports d).
    split; [done |]. apply list_elem_of_fmap. exists r. by rewrite Hd. }
  assert (Hvalue :
    fold_left (fun p q => save_port p dm q) (active_ports dm) prefs !! port_UniqueId port
    = Some (IntToString u)).
  { by rewrite save_loop_lookup, last_writer, Hbound. }
  destruct (IntToString_not_skipped c u Hu) as [Hns Hval].
  destruct (patch_target_value c _ port (IntToString u) Hkey Hvalue) as [_ Hpatch].
  { apply empty_string_false, IntToString_nonempty. }
  specialize (Hpatch Hns). rewrite Hval in Hpatch.
  split.
  - unfold GetUniverse. rewrite restore_loop_binding by done. by rewrite Hpatch.
  - apply restore_loop_universes. left. apply list_elem_of_omap. eauto.
Qed.

(** X18, on a new manager built on the preferences the first left. *)
Lemma patching_survives_restart_witness :
  let saved := m_port_preferences (UnregisterAllDevices patched_manager) in
  let dm2 := new_DeviceManager saved empty_store ∅ in
  GetUniverse port_A patched_manager = Some 7 /\
  GetUniverse port_A dm2 = None /\
  GetUniverse port_A (RegisterDevice glibc64 (Some device_A) dm2).2 = Some 7.
Proof.
  intros saved dm2. split; [reflexivity |]. split; [reflexivity |].
  assert (Hports : active_ports patched_manager = [port_A]) by (vm_compute; reflexivity).
  refine (proj1 (proj2
    (patching_survives_restart glibc64 patched_manager ∅
       {| alias := 1; device := Some device_A |} device_A port_A 7 dm2
       eq_refl _ eq_refl _ _ _ _ _ eq_refl _ eq_refl eq_refl))).
  - vm_compute. apply list_elem_of_singleton. reflexivity.
  - discriminate.
  - apply list_elem_of_singleton. reflexivity.
  - discriminate.
  - intros q Hq _. rewrite Hports in Hq. apply list_elem_of_singleton in Hq. exact Hq.
  - intros q Hq _. apply list_elem_of_singleton in Hq. exact Hq.
  - split; discriminate.
Defined.
